(** * seag-cprs: the CPRS decompressor of [src/main.c]

    A shallow embedding of [decompress] and of the constant table it reads,
    followed by the properties of the decoder that the specification states,
    and then of [read_file], [write_file] and [main] around it.

    Conventions of the embedding.
    - A [uint32_t] is a [Z] in [0, 2^32); arithmetic that can wrap is written
      with [u32].  [int] values go through [i32], the [int8_t] counter
      [remainingShifts] through [i8].
    - [data] is the array of 32-bit words the caller hands over, as a list;
      a word is read with [load], which has no answer outside the array.
    - The output buffer is the list of its bytes.  The accumulator
      [currentValue] is only ever zeroed, byte-poked through a [uint8_t*]
      and copied as a whole, so it is kept as the four bytes of its storage
      (lane [k] is the byte at address [&currentValue + k]); that makes the
      model independent of the byte order of the machine.
    - [writeCursor] and [readCursor] are kept as word offsets from [buffer]
      and [data].
    - An access outside [data] or outside the buffer is undefined in C; the
      model stops there with a [fault] that says which access it was.
    - [writeCarryByte] is declared without an initial value; the value it
      happens to hold is the parameter [garbage] of [decompress].
    - [malloc] is taken to succeed.  The [while (1)] loop is run with fuel.
    - Shift counts are written as the source has them; they stay below 32
      (lemmas [codeLenA_range], [codeLenB_range], [refill_counter]), so no
      shift of the source is undefined.  [while (iVar6--)] is run
      [iVar6] times; [iVar6] is at least 2 (lemma [count_range]). *)

From stdpp Require Import base numbers list.

Local Open Scope Z_scope.

Module Cprs.

(** ** Machine integers *)

Definition u32 (z : Z) : Z := z mod 2 ^ 32.
Definition i32 (z : Z) : Z := (z + 2 ^ 31) mod 2 ^ 32 - 2 ^ 31.
Definition i8 (z : Z) : Z := (z + 128) mod 256 - 128.

(** ** Constants *)

Definition CPRS_SIG : Z := 0x53525043.
Definition CPRS_TERM : Z := 0x10002.

Definition CPRS_TABLE : list Z :=
  [ 0x00000001; 0x00000003; 0x00000000; 0x00000001;
    0x00000001; 0x00000003; 0x00000002; 0x00000003;
    0x00000003; 0x00000005; 0x00000004; 0x0000000b;
    0x00000008; 0x0000000a; 0x0000000c; 0x0000010a;
    0x00000002; 0x00000006; 0x00000000; 0x00000003;
    0x00000002; 0x00000006; 0x00000004; 0x00000007;
    0x00000002; 0x00000006; 0x00000008; 0x0000000b;
    0x00000003; 0x00000007; 0x0000000c; 0x00000013;
    0x00000004; 0x00000008; 0x00000014; 0x00000023;
    0x00000005; 0x00000009; 0x00000024; 0x00000043;
    0x00000006; 0x0000000a; 0x00000044; 0x00000083;
    0x00000007; 0x0000000b; 0x00000084; 0x00000103;
    0x00000008; 0x0000000c; 0x00000104; 0x00000203;
    0x00000009; 0x0000000d; 0x00000204; 0x00000403;
    0x0000000a; 0x0000000e; 0x00000404; 0x00000803;
    0x0000000b; 0x0000000f; 0x00000804; 0x00001003;
    0x0000000c; 0x00000010; 0x00001004; 0x00002003;
    0x0000000d; 0x00000011; 0x00002004; 0x00004003;
    0x0000000e; 0x00000012; 0x00004004; 0x00008003;
    0x0000000f; 0x00000013; 0x00008004; 0x00010002;
    0x00000001; 0x00000002; 0x00000004; 0x00000008;
    0x00000010; 0x00000020; 0x00000040; 0x00000080;
    0x00000100; 0x00000200; 0x00000400; 0x00000800;
    0x00001000; 0x00002000; 0x00004000; 0x00008000;
    0x00010000; 0x00020000; 0x00040000; 0x00080000;
    0x00000009; 0x00000012; 0x00000024; 0x00000048;
    0x00000090; 0x00000120; 0x00000240; 0x00000480;
    0x00000900; 0x00001200; 0x00002400; 0x00004800;
    0x00000001; 0x00009000; 0x00002490; 0x00010900;
    0x00004349; 0x00000091; 0x00019024; 0x00002599;
    0x00051941; 0x0005d34b; 0x00004101; 0x00008001;
    0x0000b080; 0x00082c94; 0x00014308; 0x0004d183;
    0x000880b5; 0x0003f8ad; 0x000cadd5; 0x0004f7db;
    0x00010901; 0x0000d349; 0x00002401; 0x00009924;
    0x000066d0; 0x000519d0; 0x0004436f; 0x00006498;
    0x00059940; 0x000563cb; 0x00086d95; 0x0001c309;
    0x00000000; 0x00c602b5; 0x018c016b; 0x01ce037b;
    0x02940021; 0x01290042; 0x01ad0231; 0x02520084;
    0x031802d6; 0x0210014a; 0x039c02f7; 0x027303de;
    0x03bd00e7; 0x035a0063; 0x01ef0339; 0x00a50108;
    0x015502aa; 0x0372025b; 0x00b702e5; 0x00100200;
    0x01f602cf; 0x019f03ec; 0x039602dc; 0x03d9033e;
    0x01cb016e; 0x00fb0367; 0x00010020; 0x00040080;
    0x00080100; 0x01b9032d; 0x00020040; 0x027d03b3;
    0x021d0160; 0x03b0000b; 0x00240111; 0x00810228;
    0x0335019b; 0x02b9036c; 0x02d500b6; 0x02b602c5;
    0x01e30185; 0x006f00ac; 0x03b502a2; 0x02bd0055;
    0x02690192; 0x0133024c; 0x02f501f4; 0x02b7028f ].

(** [CPRS_TABLE[i]]; every index the decoder forms is below 192
    (lemma [table_index_in_range]), so the default is never returned. *)
Definition tbl (i : Z) : Z := nth (Z.to_nat i) CPRS_TABLE 0.

(** ** Faults and results *)

Inductive fault : Type :=
| OobDataRead      (* [*readCursor] or [data[k]] outside [data] *)
| OobBufferRead    (* [start[i]] outside the output buffer *)
| OobBufferWrite.  (* [*writeCursor = ...] outside the output buffer *)

Inductive res (A : Type) : Type :=
| Ok (a : A)
| Err (f : fault).
Arguments Ok {A} a.
Arguments Err {A} f.

Definition bind {A B : Type} (r : res A) (k : A -> res B) : res B :=
  match r with
  | Ok a => k a
  | Err f => Err f
  end.

Notation "x <- r ;; k" := (bind r (fun x => k))
  (at level 100, r at next level, right associativity).

(** What a call of [decompress] comes to. *)
Inductive result : Type :=
| RNull                                   (* [return 0] *)
| RBuffer (buffer : list Z) (sizeOut : Z) (* [return buffer], [*sizeOut] set *)
| RFault (f : fault)                      (* undefined behaviour reached *)
| RFuel.                                  (* the loop was still running *)

(** ** Memory *)

(** [data[i]] *)
Definition load (data : list Z) (i : Z) : option Z :=
  if i <? 0 then None else data !! Z.to_nat i.

(** [((uint8_t* )buffer)[p]] *)
Definition load_byte (buf : list Z) (p : Z) : res Z :=
  if p <? 0 then Err OobBufferRead
  else match buf !! Z.to_nat p with
       | Some b => Ok b
       | None => Err OobBufferRead
       end.

(** [*writeCursor = currentValue]: the four bytes of the accumulator go to
    bytes [4*wc .. 4*wc+3] of the buffer. *)
Definition store_word (buf : list Z) (wc : Z) (cv : list Z) : res (list Z) :=
  if (0 <=? wc) && (4 * wc + 4 <=? Z.of_nat (length buf))
  then Ok (list_inserts (Z.to_nat (4 * wc)) cv buf)
  else Err OobBufferWrite.

(** ** Output assembler *)

Record out : Type := MkOut {
  buffer : list Z;
  currentValue : list Z;
  writeCursor : Z;
  index : Z;
  writeCarryByte : Z
}.

Definition set_writeCarryByte (b : Z) (o : out) : out :=
  MkOut (buffer o) (currentValue o) (writeCursor o) (index o) b.

Definition set_buffer (buf : list Z) (o : out) : out :=
  MkOut buf (currentValue o) (writeCursor o) (index o) (writeCarryByte o).

(** The five statements that the source repeats in all three emitting paths
    (literal, run, copy): store [writeCarryByte] in lane [index & 3] of the
    accumulator, advance [index], and when [index] reaches a multiple of
    four commit the accumulator and clear it.  (The source keeps the lane
    number in [alpha], which is dead at that point.) *)
Definition put_byte (o : out) : res out :=
  let lane := Z.land (index o) 3 in
  let index' := u32 (index o + 1) in
  let cv := <[Z.to_nat lane := writeCarryByte o]> (currentValue o) in
  if Z.land index' 3 =? 0 then
    buf' <- store_word (buffer o) (writeCursor o) cv ;;
    Ok (MkOut buf' [0; 0; 0; 0] (writeCursor o + 1) index' (writeCarryByte o))
  else
    Ok (MkOut (buffer o) cv (writeCursor o) index' (writeCarryByte o)).

(** [while (iVar6--) { ... }] of the run path. *)
Fixpoint run_loop (n : nat) (o : out) : res out :=
  match n with
  | O => Ok o
  | S n' => o' <- put_byte o ;; run_loop n' o'
  end.

(** The body of [for (int i = 0; ...)] in the copy path; [near] is the test
    [(uint32_t)(iVar7 * 2) < 4] and [p] the offset of [start + i] from
    [buffer].  With a near source the pending word is committed first, so
    that [start[i]] can see the bytes still in the accumulator. *)
Definition copy_iter (near : bool) (p : Z) (o : out) : res out :=
  o1 <- (if near && negb (Z.land (index o) 3 =? 0)
         then buf' <- store_word (buffer o) (writeCursor o) (currentValue o) ;;
              Ok (set_buffer buf' o)
         else Ok o) ;;
  b <- load_byte (buffer o1) p ;;
  put_byte (set_writeCarryByte b o1).

(** [for (int i = 0; i < iVar6; ++i) { ... }]; [n] is the number of
    iterations left and [start] the offset of [start] from [buffer]. *)
Fixpoint copy_loop (n : nat) (near : bool) (start i : Z) (o : out) : res out :=
  match n with
  | O => Ok o
  | S n' =>
      o' <- copy_iter near (start + i) o ;;
      copy_loop n' near start (i + 1) o'
  end.

(** ** Symbol decoder: the locals of the coded path, as functions of the
    window [alpha] *)

Definition uVar9 (alpha : Z) : Z :=
  tbl (Z.land (Z.shiftr alpha 1) 3 * 0x04).

(** first value of [uVar1] *)
Definition uVar1 (alpha : Z) : Z :=
  Z.shiftr (Z.shiftr alpha 3) (Z.land (uVar9 alpha) 0xff).

Definition uVar5 (alpha : Z) : Z := Z.shiftr (uVar1 alpha) 4.

(** [puVar2], as an index into [CPRS_TABLE] *)
Definition puVar2 (alpha : Z) : Z := Z.land (uVar1 alpha) 0xf * 0x04 + 0x10.

(** second value of [uVar1]: [*puVar2] *)
Definition uVar1' (alpha : Z) : Z := tbl (puVar2 alpha).

Definition readCarryByte_coded (alpha : Z) : Z :=
  Z.shiftr (uVar5 alpha) (Z.land (uVar1' alpha) 0xff).

Definition remainingShifts_coded (rs alpha : Z) : Z :=
  i8 (u32 (u32 rs - u32 (uVar9 alpha + 7 + uVar1' alpha))).

Definition iVar7 (alpha : Z) : Z :=
  i32 (u32 (tbl (puVar2 alpha + 2)
            + Z.land (u32 (Z.shiftl 1 (Z.land (uVar1' alpha) 0xff) - 1))
                     (uVar5 alpha))).

Definition iVar6 (alpha : Z) : Z :=
  i32 (u32 (u32 (tbl (Z.land (Z.shiftr alpha 1) 3 * 0x04 + 2)
                 + Z.land (u32 (Z.shiftl 1 (Z.land (uVar9 alpha) 0xff) - 1))
                          (Z.shiftr alpha 3))
            + u32 (Z.shiftr (i32 (u32 (tbl (puVar2 alpha + 1) + 0xb))) 3))).

(** ** Bitstream reader *)

Record reader : Type := MkReader {
  alpha : Z;
  beta : Z;
  remainingShifts : Z;
  readCursor : Z
}.

(** Lines 231-237: [rcb] is [readCarryByte] and [rs] is [remainingShifts],
    both as the branch above left them. *)
Definition refill (data : list Z) (rcb rs : Z) (r : reader) : res reader :=
  if rs <? 0 then
    let rs' := i8 (rs + 0x20) in
    let rcb' := Z.shiftr (beta r) (0x20 - rs') in
    match load data (readCursor r) with
    | None => Err OobDataRead
    | Some w =>
        Ok (MkReader (Z.lor (u32 (Z.shiftl w rs')) rcb') w rs' (readCursor r + 1))
    end
  else
    Ok (MkReader (Z.lor (u32 (Z.shiftl (beta r) rs)) rcb) (beta r) rs (readCursor r)).

(** ** Decode engine *)

Definition state : Type := reader * out.

Inductive step_result : Type :=
| Continue (s : state)   (* the end of the loop body was reached *)
| Break (o : out)        (* [break] *)
| Crash (f : fault).

Definition continue_with (data : list Z) (rcb rs : Z) (r : reader)
    (o : res out) : step_result :=
  match o with
  | Err f => Crash f
  | Ok o' =>
      match refill data rcb rs r with
      | Err f => Crash f
      | Ok r' => Continue (r', o')
      end
  end.

(** One pass through the body of [while (1)]. *)
Definition step (data : list Z) (s : state) : step_result :=
  let (r, o) := s in
  let a := alpha r in
  if Z.land a 1 =? 0 then
    let rcb := Z.shiftr a 9 in
    let rs := i8 (remainingShifts r - 9) in
    let b := Z.land (Z.shiftr a 1) 0xff in
    continue_with data rcb rs r (put_byte (set_writeCarryByte b o))
  else
    let rcb := readCarryByte_coded a in
    let rs := remainingShifts_coded (remainingShifts r) a in
    if iVar7 a >=? CPRS_TERM then Break o
    else if iVar7 a =? 0 then
      continue_with data rcb rs r (run_loop (Z.to_nat (iVar6 a)) o)
    else
      continue_with data rcb rs r
        (copy_loop (Z.to_nat (iVar6 a)) (u32 (iVar7 a * 2) <? 4)
                   (index o - iVar7 a * 2) 0 o).

(** Lines 240-246. *)
Definition finish (o : out) : result :=
  if negb (Z.land (index o) 3 =? 0) then
    match store_word (buffer o) (writeCursor o) (currentValue o) with
    | Err f => RFault f
    | Ok buf' => RBuffer buf' (index o)
    end
  else RBuffer (buffer o) (index o).

Fixpoint loop (fuel : nat) (data : list Z) (s : state) : result :=
  match fuel with
  | O => RFuel
  | S fuel' =>
      match step data s with
      | Continue s' => loop fuel' data s'
      | Break o => finish o
      | Crash f => RFault f
      end
  end.

(** The state on entry to the loop. *)
Definition init_state (garbage decompressedSize a b : Z) : state :=
  (MkReader a b 0x20 5,
   MkOut (replicate (Z.to_nat decompressedSize) 0) [0; 0; 0; 0] 0 0 garbage).

Definition decompress (fuel : nat) (garbage : Z) (data : list Z)
    (sizeBytes : Z) : result :=
  if negb (sizeBytes mod 4 =? 0) then RNull
  else
    let size := sizeBytes / 4 in
    if size <=? 5 then RNull
    else
      match load data 0 with
      | None => RFault OobDataRead
      | Some w0 =>
          if negb (w0 =? CPRS_SIG) then RNull
          else
            match load data (size - 1) with
            | None => RFault OobDataRead
            | Some wl =>
                if negb (wl =? CPRS_SIG) then RNull
                else
                  match load data 2, load data 3, load data 4 with
                  | Some decompressedSize, Some a, Some b =>
                      loop fuel data (init_state garbage decompressedSize a b)
                  | _, _, _ => RFault OobDataRead
                  end
            end
      end.

(** * The vocabulary of the specification *)

(** ** The table seen as 48 rows of four columns *)

Definition col (row c : Z) : Z := tbl (4 * row + c).

(** The names the specification gives to the parts of a coded symbol. *)
Section CodedSymbol.
Variable window : Z.

Definition primaryRow : Z := Z.land (Z.shiftr window 1) 3.
Definition codeLenA : Z := col primaryRow 0.
Definition rest : Z := Z.shiftr (Z.shiftr window 3) codeLenA.
Definition secondaryRow : Z := 4 + Z.land rest 0xf.
Definition codeLenB : Z := col secondaryRow 0.
Definition high : Z := Z.shiftr rest 4.
Definition sym : Z := col secondaryRow 2 + Z.land high (2 ^ codeLenB - 1).
Definition count : Z :=
  col primaryRow 2 + Z.land (Z.shiftr window 3) (2 ^ codeLenA - 1)
  + Z.shiftr (col secondaryRow 1 + 11) 3.
Definition consumed : Z := codeLenA + 7 + codeLenB.
End CodedSymbol.

(** The bytes emitted so far: the committed words of the buffer followed by
    the lanes of the accumulator that are in use. *)
Definition emitted (o : out) : list Z :=
  take (Z.to_nat (4 * writeCursor o)) (buffer o)
  ++ take (Z.to_nat (Z.land (index o) 3)) (currentValue o).

(** What the loop keeps true of the assembler: [writeCursor] is at word
    [index / 4], that word and all before it lie inside the buffer, and the
    buffer is one that [malloc] of a [uint32_t] size can have returned. *)
Definition out_ok (o : out) : Prop :=
  0 <= index o /\
  writeCursor o = index o / 4 /\
  length (currentValue o) = 4%nat /\
  4 * writeCursor o <= Z.of_nat (length (buffer o)) /\
  Z.of_nat (length (buffer o)) < 2 ^ 32.

(** [writeCarryByte] is the byte emitted last, if any byte was emitted. *)
Definition carry_ok (o : out) : Prop :=
  emitted o = [] \/ last (emitted o) = Some (writeCarryByte o).

(** The copy of [n] bytes from distance [d] on a plain list: one byte at a
    time, each appended byte being available to the next. *)
Fixpoint copy_bytes (n d : nat) (l : list Z) : list Z :=
  match n with
  | O => l
  | S n' => copy_bytes n' d (l ++ [nth (length l - d) l 0])
  end.

(** The high [k] bits of a 32-bit register, as a number. *)
Definition high_bits (k x : Z) : Z := Z.shiftr x (32 - k).

(** The carry bits in the words of the specification: "the high
    [(32 - counter)] bits of [lookahead]", [counter] being the live-bit
    counter after 32 was added to it. *)
Definition carry_as_specified (counter lookahead : Z) : Z :=
  high_bits (32 - counter) lookahead.

(** The window in the words of the specification: "[lookahead_old_shifted |
    carry]", for a shift by [s] places to the left (to the right when [s]
    is negative). *)
Definition window_as_specified (s counter lookahead_old : Z) : Z :=
  Z.lor (u32 (Z.shiftl lookahead_old s)) (carry_as_specified counter lookahead_old).

(** The bit stream of a container: bit [k] is bit [k mod 32] of word
    [3 + k / 32]. *)
Definition stream_bit (data : list Z) (k : Z) : bool :=
  match load data (3 + k / 32) with
  | Some w => Z.testbit w (k mod 32)
  | None => false
  end.

(** The reader stands at bit [pos] of the stream: the window holds the 32
    bits from [pos] on, the lookahead register holds the word before the
    read cursor, and the counter says how many bits of that word the
    window does not reach. *)
Definition reader_at (data : list Z) (pos : Z) (r : reader) : Prop :=
  0 <= remainingShifts r <= 32 /\
  5 <= readCursor r <= Z.of_nat (length data) /\
  pos = 32 * (readCursor r - 4) - remainingShifts r /\
  load data (readCursor r - 1) = Some (beta r) /\
  0 <= alpha r < 2 ^ 32 /\
  forall j, 0 <= j < 32 -> Z.testbit (alpha r) j = stream_bit data (pos + j).

(** The structural checks of lines 126-141. *)
Definition invalid_container (data : list Z) (sizeBytes : Z) : Prop :=
  sizeBytes mod 4 <> 0 \/
  sizeBytes / 4 <= 5 \/
  load data 0 <> Some CPRS_SIG \/
  load data (sizeBytes / 4 - 1) <> Some CPRS_SIG.

(** [k] passes through the loop body, none of which leaves the loop. *)
Fixpoint steps (k : nat) (data : list Z) (s : state) : option state :=
  match k with
  | O => Some s
  | S k' =>
      match step data s with
      | Continue s' => steps k' data s'
      | _ => None
      end
  end.

(** A container that passes the structural checks and whose words are
    32-bit values. *)
Definition well_formed (data : list Z) (sizeBytes : Z) : Prop :=
  sizeBytes mod 4 = 0 /\
  5 < sizeBytes / 4 /\
  Z.of_nat (length data) = sizeBytes / 4 /\
  load data 0 = Some CPRS_SIG /\
  load data (sizeBytes / 4 - 1) = Some CPRS_SIG /\
  Forall (fun w => 0 <= w < 2 ^ 32) data.


(** * Worked containers

    The bit stream of a container is [data[3]], [data[4]], [data[5]], ...
    read from the least significant bit.  A literal [b] is the 9 bits
    [b << 1]; the coded symbols used below are
    - [0x001] (10 bits): primary row 0, secondary row 4, [sym = 0],
      [count = 2], a run of two;
    - [0x10b] (10 bits): primary row 1, secondary row 4, [sym = 1],
      [count = 5], a copy of five bytes from two bytes back;
    - [0x7ffff1] (23 bits): secondary row 19, [sym = 0x10003], terminal. *)

(** Literals [0x41 .. 0x45], then the terminal symbol. *)
Definition literals_container : list Z :=
  [CPRS_SIG; 0; 8; 0x42190882; 0xfffe28a4; 0xf; CPRS_SIG].

(** The state of [literals_container] after its five literals. *)
Definition literals_reader : reader := MkReader 0x7ffff1 0xf 19 6.
Definition literals_out : out :=
  MkOut [0x41; 0x42; 0x43; 0x44; 0; 0; 0; 0] [0x45; 0; 0; 0] 1 5 0x45.

(** Literal [0x41], a run of two, then the terminal symbol. *)
Definition run_container : list Z :=
  [CPRS_SIG; 0; 4; 0xff880282; 0x3ff; CPRS_SIG].

(** The state of [run_container] after its literal. *)
Definition run_reader : reader := MkReader 0xffffc401 0x3ff 23 5.
Definition run_out : out := MkOut [0; 0; 0; 0] [0x41; 0; 0; 0] 0 1 0x41.

(** Literals [0xab], [0xcd], a copy of five bytes from two bytes back, then
    the terminal symbol. *)
Definition copy_container : list Z :=
  [CPRS_SIG; 0; 8; 0x142f3556; 0x7ffff; CPRS_SIG].

(** The state of [copy_container] after its two literals. *)
Definition copy_reader : reader := MkReader 0xffffc50b 0x7ffff 14 5.
Definition copy_out : out :=
  MkOut [0; 0; 0; 0; 0; 0; 0; 0] [0xab; 0xcd; 0; 0] 0 2 0xcd.

(** Literal [0xab], the same copy, then the terminal symbol: the copy has
    one byte of output behind it. *)
Definition short_copy_container : list Z :=
  [CPRS_SIG; 0; 8; 0xff8a1756; 0x3ff; CPRS_SIG].

(** A run of two as the very first symbol, then the terminal symbol. *)
Definition first_run_container : list Z :=
  [CPRS_SIG; 0; 4; 0xffffc401; 1; CPRS_SIG].


(** One payload word, all zero, and no terminal symbol anywhere before the
    trailer. *)
Definition truncated_container : list Z :=
  [CPRS_SIG; 0; 64; 0; 0; 0; CPRS_SIG].

(** * Further vocabulary *)

(** Nothing but zero beyond the emitted bytes: the buffer from byte [index]
    on, and the lanes of the accumulator that are not in use. *)
Definition tail_zero (o : out) : Prop :=
  (forall (p : nat) x,
     index o <= Z.of_nat p -> buffer o !! p = Some x -> x = 0) /\
  (forall (j : nat) x,
     Z.land (index o) 3 <= Z.of_nat j -> currentValue o !! j = Some x -> x = 0).

(** The [width] bits of the stream from bit [pos] on spell [value], least
    significant bit first. *)
Definition stream_field (data : list Z) (pos width value : Z) : Prop :=
  forall j, 0 <= j < width -> stream_bit data (pos + j) = Z.testbit value j.

(** The stream holds the literals [bs] from bit [pos] on: for each byte a
    0 bit and then its eight bits. *)
Fixpoint literals_at (data : list Z) (pos : Z) (bs : list Z) : Prop :=
  match bs with
  | [] => True
  | b :: bs' => stream_field data pos 9 (2 * b) /\ literals_at data (pos + 9) bs'
  end.

(** * The rest of the program: [read_file], [write_file], [main]

    The C library is modelled by what it is asked and what it answers.
    - An input stream is the list of the bytes still to be read.  A call
      [fread(p, 1, n, file)] delivers the next [m] of them, where [m] is at
      most [n], at most what is left, and at least 1 unless one of the two
      is 0; how many exactly is up to the stream ([avail], indexed by the
      number of the call), so short reads are covered.
    - [realloc] succeeds and keeps the bytes already in the buffer; the
      buffer is modelled by the bytes read into it so far and by its
      capacity [bufferSize].  A call of [fread] that could write past the
      capacity is a fault.
    - Whether [fopen] succeeds, and how many bytes [fwrite] writes, is
      given from outside.  [fclose] and the messages on [stderr] are left
      out.
    - The choice between [argv[1]] and [stdin], and between [argv[2]] and
      [stdout], only selects the stream; the streams are parameters.
    - [main] hands the byte buffer to [decompress] as an array of
      [uint32_t]: the words are formed least significant byte first, as on
      the machines the program is written for. *)

Definition ERR_OK : Z := 0x00.
Definition ERR_USAGE : Z := 0x01.
Definition ERR_CPRS_FILE : Z := 0x02.
Definition ERR_UNCPRS : Z := 0x08.
Definition ERR_OUT_FILE : Z := 0x10.

Definition FILE_READ_INCREMENT : Z := 0x1000.

(** The return value of [fread(p, 1, request, file)]. *)
Definition fread_count (avail : nat -> Z) (call : nat) (request : Z)
    (rest : list Z) : Z :=
  Z.min (Z.min request (Z.of_nat (length rest))) (Z.max 1 (avail call)).

(** What [read_file] hands back: the bytes in the buffer, its capacity, and
    [*sizeOut]. *)
Inductive read_result : Type :=
| ReadNull                                          (* [return 0] *)
| ReadBuffer (bytes : list Z) (capacity sizeOut : Z) (* [return buffer] *)
| ReadOverrun                                       (* [fread] past the buffer *)
| ReadFuel.

(** The [do { ... } while (fread(...) != 0)] loop of [read_file]; [buffer]
    holds the [totalBytesRead + bytesRead] bytes read so far. *)
Fixpoint read_loop (fuel : nat) (avail : nat -> Z) (call : nat)
    (rest buffer : list Z) (bufferSize totalBytesRead bytesRead : Z)
    : read_result :=
  match fuel with
  | O => ReadFuel
  | S fuel' =>
      let totalBytesRead := totalBytesRead + bytesRead in
      let bufferSize :=
        if totalBytesRead >=? bufferSize
        then bufferSize + FILE_READ_INCREMENT
        else bufferSize in
      let request := bufferSize - totalBytesRead in
      if request <? 0 then ReadOverrun
      else
        let bytesRead := fread_count avail call request rest in
        if bytesRead =? 0 then ReadBuffer buffer bufferSize totalBytesRead
        else
          read_loop fuel' avail (S call)
            (drop (Z.to_nat bytesRead) rest)
            (buffer ++ take (Z.to_nat bytesRead) rest)
            bufferSize totalBytesRead bytesRead
  end.

(** [read_file]; [file] is [None] when [fopen] fails. *)
Definition read_file (fuel : nat) (avail : nat -> Z) (file : option (list Z))
    : read_result :=
  match file with
  | None => ReadNull
  | Some content => read_loop fuel avail O content [] 0 0 0
  end.

(** [write_file]: whether it succeeded, and the bytes that reached the
    stream; [opens] says whether [fopen] succeeds, [accept] how many bytes
    the stream takes. *)
Definition write_file (opens : bool) (accept : Z) (data : list Z) (size : Z)
    : bool * option (list Z) :=
  if negb opens then (false, None)
  else
    let written := Z.min size (Z.max 0 accept) in
    (written =? size, Some (take (Z.to_nat written) data)).

(** The buffer of bytes seen through a [uint32_t*]. *)
Fixpoint words_of_bytes (bytes : list Z) : list Z :=
  match bytes with
  | b0 :: b1 :: b2 :: b3 :: rest =>
      (b0 + 2 ^ 8 * b1 + 2 ^ 16 * b2 + 2 ^ 24 * b3) :: words_of_bytes rest
  | _ => []
  end.

(** What a run of the program comes to: its exit code and the bytes that
    reached the output stream, if [fwrite] was called. *)
Record main_result : Type := MkMain {
  exit_code : Z;
  written : option (list Z)
}.

(** [main]; the answer is [None] when the run reaches undefined behaviour
    or the fuel of one of the loops runs out. *)
Definition main (argc : Z) (rfuel : nat) (avail : nat -> Z)
    (input : option (list Z)) (fuel : nat) (garbage : Z)
    (opens : bool) (accept : Z) : option main_result :=
  if negb (argc =? 2) && negb (argc =? 3) then Some (MkMain ERR_USAGE None)
  else
    match read_file rfuel avail input with
    | ReadNull => Some (MkMain ERR_CPRS_FILE None)
    | ReadBuffer compressed _ compressedSize =>
        match decompress fuel garbage (words_of_bytes compressed) compressedSize with
        | RNull => Some (MkMain ERR_UNCPRS None)
        | RBuffer decompressed decompressedSize =>
            let (success, out) := write_file opens accept decompressed decompressedSize in
            Some (MkMain (if success then ERR_OK else ERR_OUT_FILE) out)
        | _ => None
        end
    | _ => None
    end.

(** The four bytes of the signature as they lie in the file: "CPRS". *)
Definition magic : list Z := [0x43; 0x50; 0x52; 0x53].

(** The structural checks read on the bytes of the input. *)
Definition invalid_input (content : list Z) : Prop :=
  Z.of_nat (length content) mod 4 <> 0 \/
  Z.of_nat (length content) < 24 \/
  take 4 content <> magic \/
  drop (length content - 4) content <> magic.

(** [run_container] as the 24 bytes of a file. *)
Definition run_container_bytes : list Z :=
  magic ++ [0; 0; 0; 0; 4; 0; 0; 0; 0x82; 0x02; 0x88; 0xff; 0xff; 0x03; 0; 0]
  ++ magic.

(** Literals [0x41 .. 0x45], then the terminal symbol, in a container that
    declares the five bytes it holds. *)
Definition odd_size_container : list Z :=
  [CPRS_SIG; 0; 5; 0x42190882; 0xfffe28a4; 0xf; CPRS_SIG].

(** * Properties *)

Ltac solve_out_ok := unfold out_ok; simpl; split_and!; try reflexivity; lia.

Ltac solve_well_formed :=
  unfold well_formed; split_and!;
  [ reflexivity | reflexivity | reflexivity | reflexivity | reflexivity
  | lazymatch goal with
    | |- Forall _ ?c => let c' := eval hnf in c in change c with c'
    end;
    repeat (apply List.Forall_cons; [vm_compute; split; congruence |]);
    apply List.Forall_nil ].

(** ** Machine integers *)

Lemma u32_small z : 0 <= z < 2 ^ 32 -> u32 z = z.
Proof. intros H. unfold u32. apply Z.mod_small. lia. Qed.

Lemma u32_range z : 0 <= u32 z < 2 ^ 32.
Proof. unfold u32. apply Z.mod_pos_bound. lia. Qed.

Lemma i32_small z : - 2 ^ 31 <= z < 2 ^ 31 -> i32 z = z.
Proof. intros H. unfold i32. rewrite Z.mod_small; lia. Qed.

Lemma i8_small z : -128 <= z < 128 -> i8 z = z.
Proof. intros H. unfold i8. rewrite Z.mod_small; lia. Qed.

(** The counter update of the coded path: the detour through [uint32_t]
    and back to [int8_t] is the plain difference. *)
Lemma i8_u32_sub rs c :
  -128 <= rs - c < 128 -> 0 <= rs < 2 ^ 32 -> 0 <= c < 2 ^ 32 ->
  i8 (u32 (u32 rs - u32 c)) = rs - c.
Proof.
  intros H1 H2 H3. rewrite (u32_small rs), (u32_small c) by lia.
  unfold i8, u32. Z.div_mod_to_equations. lia.
Qed.

Lemma land_mask_mod x k : 0 <= k -> Z.land x (2 ^ k - 1) = x mod 2 ^ k.
Proof.
  intros Hk. rewrite <- Z.land_ones by lia. f_equal.
  rewrite Z.ones_equiv. lia.
Qed.

Lemma land_mask_range x k : 0 <= k -> 0 <= Z.land x (2 ^ k - 1) < 2 ^ k.
Proof.
  intros Hk. rewrite land_mask_mod by lia. apply Z.mod_pos_bound. lia.
Qed.

Lemma land_small_const x k : 0 <= k -> 0 <= Z.land x (Z.ones k) < 2 ^ k.
Proof.
  intros Hk. rewrite Z.land_ones by lia. apply Z.mod_pos_bound. lia.
Qed.

Lemma shiftr_nonneg x n : 0 <= x -> 0 <= Z.shiftr x n.
Proof. intros. apply Z.shiftr_nonneg. lia. Qed.

Lemma shiftr_le x n : 0 <= x -> 0 <= n -> Z.shiftr x n <= x.
Proof.
  intros Hx Hn. rewrite Z.shiftr_div_pow2 by lia.
  apply Z.div_le_upper_bound; [lia |].
  assert (1 <= 2 ^ n) by lia. nia.
Qed.

(** ** The rows the decoder can select *)

Lemma primary_row p :
  0 <= p < 4 ->
  1 <= col p 0 <= 8 /\ 0 <= col p 2 <= 12.
Proof.
  intros H.
  assert (p = 0 \/ p = 1 \/ p = 2 \/ p = 3) as Hp by lia.
  destruct Hp as [-> | [-> | [-> | ->]]]; vm_compute; intuition congruence.
Qed.

Lemma secondary_row q :
  0 <= q < 16 ->
  2 <= col (4 + q) 0 <= 15 /\ 6 <= col (4 + q) 1 <= 19 /\
  0 <= col (4 + q) 2 <= 0x8004.
Proof.
  intros H.
  assert (q = 0 \/ q = 1 \/ q = 2 \/ q = 3 \/ q = 4 \/ q = 5 \/ q = 6 \/ q = 7
          \/ q = 8 \/ q = 9 \/ q = 10 \/ q = 11 \/ q = 12 \/ q = 13 \/ q = 14
          \/ q = 15) as Hq by lia.
  repeat (destruct Hq as [-> | Hq]; [vm_compute; intuition congruence |]).
  subst q. vm_compute. intuition congruence.
Qed.

Lemma primaryRow_range a : 0 <= primaryRow a < 4.
Proof. unfold primaryRow. apply (land_small_const _ 2). lia. Qed.

Lemma secondaryRow_range a : 0 <= secondaryRow a - 4 < 16.
Proof.
  unfold secondaryRow.
  pose proof (land_small_const (rest a) 4 ltac:(lia)) as H.
  change (Z.ones 4) with 0xf in H. change (2 ^ 4) with 16 in H. lia.
Qed.

Lemma codeLenA_range a : 1 <= codeLenA a <= 8.
Proof. apply primary_row, primaryRow_range. Qed.

Lemma codeLenB_range a : 2 <= codeLenB a <= 15.
Proof.
  unfold codeLenB. pose proof (secondaryRow_range a) as H.
  replace (secondaryRow a) with (4 + (secondaryRow a - 4)) by lia.
  apply secondary_row. lia.
Qed.

Lemma consumed_range a : 10 <= consumed a <= 30.
Proof.
  unfold consumed. pose proof (codeLenA_range a). pose proof (codeLenB_range a).
  lia.
Qed.

(** Every table index formed by the coded path lies inside the table. *)
Lemma table_index_in_range a :
  0 <= primaryRow a * 0x04 + 2 < 192 /\ 0 <= puVar2 a + 2 < 192.
Proof.
  pose proof (primaryRow_range a) as Hp. split; [lia |].
  unfold puVar2.
  pose proof (land_small_const (uVar1 a) 4 ltac:(lia)) as H.
  change (Z.ones 4) with 0xf in H. change (2 ^ 4) with 16 in H. lia.
Qed.

Lemma uVar9_codeLenA a : uVar9 a = codeLenA a.
Proof. unfold uVar9, codeLenA, col, primaryRow. f_equal. lia. Qed.

Lemma land_0xff_small x : 0 <= x < 256 -> Z.land x 0xff = x.
Proof.
  intros H. change 0xff with (Z.ones 8). rewrite Z.land_ones by lia.
  apply Z.mod_small. lia.
Qed.

Lemma uVar1_rest a : uVar1 a = rest a.
Proof.
  unfold uVar1, rest. rewrite uVar9_codeLenA.
  pose proof (codeLenA_range a). rewrite land_0xff_small by lia. reflexivity.
Qed.

Lemma puVar2_secondaryRow a c : puVar2 a + c = 4 * secondaryRow a + c.
Proof. unfold puVar2, secondaryRow. rewrite uVar1_rest. lia. Qed.

Lemma uVar1'_codeLenB a : uVar1' a = codeLenB a.
Proof.
  unfold uVar1', codeLenB, col.
  rewrite <- (Z.add_0_r (puVar2 a)), puVar2_secondaryRow. reflexivity.
Qed.

Lemma mask_u32 k :
  0 <= k <= 31 -> u32 (Z.shiftl 1 k - 1) = 2 ^ k - 1.
Proof.
  intros H. rewrite Z.shiftl_1_l. apply u32_small.
  assert (2 ^ k <= 2 ^ 31) by (apply Z.pow_le_mono_r; lia).
  assert (0 < 2 ^ k) by lia. lia.
Qed.

Lemma pow2_le_15 k : 0 <= k <= 15 -> 0 < 2 ^ k <= 2 ^ 15.
Proof.
  intros H. split; [lia | apply Z.pow_le_mono_r; lia].
Qed.

Lemma iVar7_sym a : iVar7 a = sym a.
Proof.
  unfold iVar7, sym, high.
  rewrite puVar2_secondaryRow, uVar1'_codeLenB.
  unfold uVar5. rewrite uVar1_rest.
  pose proof (codeLenB_range a) as HB.
  rewrite land_0xff_small by lia. rewrite mask_u32 by lia.
  rewrite (Z.land_comm (2 ^ codeLenB a - 1)).
  pose proof (land_mask_range (Z.shiftr (rest a) 4) (codeLenB a) ltac:(lia)) as Hm.
  pose proof (pow2_le_15 (codeLenB a) ltac:(lia)) as Hp.
  pose proof (secondaryRow_range a) as Hs.
  assert (0 <= col (secondaryRow a) 2 <= 0x8004) as Hc.
  { replace (secondaryRow a) with (4 + (secondaryRow a - 4)) by lia.
    apply secondary_row. lia. }
  fold (col (secondaryRow a) 2).
  rewrite u32_small by lia. apply i32_small. lia.
Qed.

Lemma sym_range a : 0 <= sym a <= 0x10003.
Proof.
  unfold sym, high.
  pose proof (codeLenB_range a) as HB.
  pose proof (land_mask_range (Z.shiftr (rest a) 4) (codeLenB a) ltac:(lia)) as Hm.
  pose proof (pow2_le_15 (codeLenB a) ltac:(lia)) as Hp.
  pose proof (secondaryRow_range a) as Hs.
  assert (0 <= col (secondaryRow a) 2 <= 0x8004) as Hc.
  { replace (secondaryRow a) with (4 + (secondaryRow a - 4)) by lia.
    apply secondary_row. lia. }
  lia.
Qed.

Lemma count_range a : 2 <= count a <= 270.
Proof.
  unfold count.
  pose proof (codeLenA_range a) as HA.
  pose proof (primary_row (primaryRow a) (primaryRow_range a)) as [_ Hc2].
  pose proof (land_mask_range (Z.shiftr a 3) (codeLenA a) ltac:(lia)) as Hm.
  assert (2 ^ codeLenA a <= 2 ^ 8) as Hp by (apply Z.pow_le_mono_r; lia).
  pose proof (secondaryRow_range a) as Hs.
  assert (6 <= col (secondaryRow a) 1 <= 19) as Hc1.
  { replace (secondaryRow a) with (4 + (secondaryRow a - 4)) by lia.
    apply secondary_row. lia. }
  assert (2 <= Z.shiftr (col (secondaryRow a) 1 + 11) 3 <= 3).
  { rewrite Z.shiftr_div_pow2 by lia. change (2 ^ 3) with 8.
    Z.div_mod_to_equations; lia. }
  lia.
Qed.

Lemma iVar6_count a : iVar6 a = count a.
Proof.
  pose proof (count_range a) as Hcount.
  unfold iVar6. unfold count in *.
  rewrite uVar9_codeLenA, puVar2_secondaryRow.
  pose proof (codeLenA_range a) as HA.
  rewrite land_0xff_small by lia. rewrite mask_u32 by lia.
  rewrite (Z.land_comm (2 ^ codeLenA a - 1)).
  replace (Z.land (Z.shiftr a 1) 3 * 4 + 2) with (4 * primaryRow a + 2)
    by (unfold primaryRow; lia).
  fold (col (primaryRow a) 2). fold (col (secondaryRow a) 1).
  pose proof (primary_row (primaryRow a) (primaryRow_range a)) as [_ Hc2].
  pose proof (land_mask_range (Z.shiftr a 3) (codeLenA a) ltac:(lia)) as Hm.
  assert (2 ^ codeLenA a <= 2 ^ 8) as Hp by (apply Z.pow_le_mono_r; lia).
  pose proof (secondaryRow_range a) as Hs.
  assert (6 <= col (secondaryRow a) 1 <= 19) as Hc1.
  { replace (secondaryRow a) with (4 + (secondaryRow a - 4)) by lia.
    apply secondary_row. lia. }
  rewrite (u32_small (col (secondaryRow a) 1 + 11)) by lia.
  rewrite (i32_small (col (secondaryRow a) 1 + 11)) by lia.
  assert (2 <= Z.shiftr (col (secondaryRow a) 1 + 11) 3 <= 3) as Hsh.
  { rewrite Z.shiftr_div_pow2 by lia. change (2 ^ 3) with 8.
    Z.div_mod_to_equations; lia. }
  rewrite (u32_small (Z.shiftr _ 3)) by lia.
  rewrite (u32_small (col _ 2 + _)) by lia.
  rewrite u32_small by lia. apply i32_small. lia.
Qed.

Lemma readCarryByte_coded_shift a :
  readCarryByte_coded a = Z.shiftr a (consumed a).
Proof.
  unfold readCarryByte_coded, uVar5. rewrite uVar1'_codeLenB, uVar1_rest.
  pose proof (codeLenA_range a) as HA. pose proof (codeLenB_range a) as HB.
  rewrite land_0xff_small by lia. unfold rest, consumed.
  rewrite !Z.shiftr_shiftr by lia. f_equal. lia.
Qed.

Lemma remainingShifts_coded_sub rs a :
  0 <= rs <= 32 -> remainingShifts_coded rs a = rs - consumed a.
Proof.
  intros Hrs. unfold remainingShifts_coded.
  rewrite uVar9_codeLenA, uVar1'_codeLenB. fold (consumed a).
  pose proof (consumed_range a). apply i8_u32_sub; lia.
Qed.

Lemma land_1_testbit a : Z.land a 1 = Z.b2z (Z.testbit a 0).
Proof.
  change 1 with (Z.ones 1) at 1. rewrite Z.land_ones by lia.
  rewrite Z.bit0_mod. reflexivity.
Qed.

Lemma land_3_mod x : Z.land x 3 = x mod 4.
Proof. change 3 with (Z.ones 2). rewrite Z.land_ones by lia. reflexivity. Qed.

(** ** Output assembler *)

Lemma emitted_length o : out_ok o -> Z.of_nat (length (emitted o)) = index o.
Proof.
  intros (Hi & Hw & Hc & Hb & _). unfold emitted.
  rewrite length_app, !length_take, land_3_mod, Hc.
  assert (0 <= index o mod 4 < 4) by (apply Z.mod_pos_bound; lia).
  assert (index o = 4 * (index o / 4) + index o mod 4)
    by (apply Z.div_mod; lia).
  lia.
Qed.

Lemma take_inserts_here {A} (k l : list A) (n : nat) :
  (n + length k <= length l)%nat ->
  take (n + length k) (list_inserts n k l) = take n l ++ k.
Proof.
  intros H. apply list_eq. intros i.
  destruct (decide (i < n)%nat) as [Hlt | Hge].
  - rewrite lookup_take_lt by lia. rewrite list_lookup_inserts_lt by lia.
    rewrite lookup_app_l by (rewrite length_take; lia).
    rewrite lookup_take_lt by lia. reflexivity.
  - rewrite lookup_app_r by (rewrite length_take; lia).
    rewrite length_take, Nat.min_l by lia.
    destruct (decide (i < n + length k)%nat) as [Hin | Hout].
    + rewrite lookup_take_lt by lia. apply list_lookup_inserts; lia.
    + rewrite lookup_take_ge by lia. symmetry. apply lookup_ge_None. lia.
Qed.

Lemma take_inserts_before {A} (k l : list A) (n m : nat) :
  (m <= n)%nat -> take m (list_inserts n k l) = take m l.
Proof.
  intros H. apply list_eq. intros i.
  destruct (decide (i < m)%nat) as [Hlt | Hge].
  - rewrite !lookup_take_lt by lia. apply list_lookup_inserts_lt. lia.
  - rewrite !lookup_take_ge by lia. reflexivity.
Qed.

Lemma insert_last_lane (cv : list Z) (b : Z) :
  length cv = 4%nat -> <[3%nat := b]> cv = take 3 cv ++ [b].
Proof.
  intros H. destruct cv as [| c0 [| c1 [| c2 [| c3 [| c4 cv]]]]];
    simpl in H; try discriminate. reflexivity.
Qed.

Lemma take_succ_insert (cv : list Z) (b : Z) (i : nat) :
  (i < length cv)%nat -> take (S i) (<[i := b]> cv) = take i cv ++ [b].
Proof.
  intros H. rewrite (take_S_r _ _ b) by (apply list_lookup_insert_eq; lia).
  rewrite take_insert_ge by lia. reflexivity.
Qed.

Lemma store_word_Ok buf wc cv buf' :
  store_word buf wc cv = Ok buf' ->
  0 <= wc /\ 4 * wc + 4 <= Z.of_nat (length buf)
  /\ buf' = list_inserts (Z.to_nat (4 * wc)) cv buf.
Proof.
  unfold store_word. intros H.
  destruct (0 <=? wc) eqn:E1; destruct (4 * wc + 4 <=? Z.of_nat (length buf)) eqn:E2;
    simpl in H; try discriminate.
  apply Z.leb_le in E1, E2. inversion H. auto.
Qed.

Lemma store_word_room buf wc cv :
  0 <= wc -> 4 * wc + 4 <= Z.of_nat (length buf) ->
  store_word buf wc cv = Ok (list_inserts (Z.to_nat (4 * wc)) cv buf).
Proof.
  intros H1 H2. unfold store_word.
  rewrite (proj2 (Z.leb_le _ _) H1), (proj2 (Z.leb_le _ _) H2). reflexivity.
Qed.

(** One emitted byte: if [put_byte] stays inside the buffer, it appends
    [writeCarryByte] to the emitted bytes and advances [index] by one. *)
Lemma put_byte_spec o o' :
  out_ok o -> put_byte o = Ok o' ->
  out_ok o' /\
  emitted o' = emitted o ++ [writeCarryByte o] /\
  index o' = index o + 1 /\
  writeCarryByte o' = writeCarryByte o /\
  length (buffer o') = length (buffer o).
Proof.
  intros (Hi & Hw & Hc & Hb & Hlen) Hput.
  assert (0 <= index o mod 4 < 4) as Hlane by (apply Z.mod_pos_bound; lia).
  assert (index o = 4 * writeCursor o + index o mod 4) as Hidx
    by (rewrite Hw; apply Z.div_mod; lia).
  assert (0 <= writeCursor o) as Hwc by (rewrite Hw; apply Z.div_pos; lia).
  unfold put_byte in Hput. rewrite !land_3_mod in Hput.
  destruct (decide (index o mod 4 = 3)) as [H3 | H3].
  - (* the accumulator fills up *)
    assert (index o + 1 = 4 * (writeCursor o + 1)) as Hnext by lia.
    assert (u32 (index o + 1) mod 4 = 0) as Hz.
    { unfold u32. rewrite Hnext. Z.div_mod_to_equations. lia. }
    rewrite Hz in Hput. simpl in Hput.
    destruct (store_word (buffer o) (writeCursor o)
                (<[Z.to_nat (index o mod 4) := writeCarryByte o]> (currentValue o)))
      as [buf' | f] eqn:Hst; simpl in Hput; [| discriminate].
    apply store_word_Ok in Hst. destruct Hst as (_ & Hroom & ->).
    assert (u32 (index o + 1) = index o + 1) as Hu by (apply u32_small; lia).
    rewrite Hu in Hput. inversion Hput; subst o'; clear Hput.
    unfold out_ok, emitted. simpl. rewrite length_inserts.
    repeat split; try lia.
    + rewrite Hnext. rewrite Z.mul_comm, Z.div_mul by lia. reflexivity.
    + rewrite land_3_mod, Hnext.
      replace (4 * (writeCursor o + 1) mod 4) with 0
        by (Z.div_mod_to_equations; lia).
      rewrite land_3_mod, H3. simpl (take (Z.to_nat 0) _).
      rewrite app_nil_r.
      change (Z.to_nat 3) with 3%nat.
      rewrite insert_last_lane by assumption.
      assert (length (take 3 (currentValue o) ++ [writeCarryByte o]) = 4%nat)
        as Hl4 by (rewrite length_app, length_take, Hc; reflexivity).
      replace (Z.to_nat (4 * (writeCursor o + 1)))
        with (Z.to_nat (4 * writeCursor o)
              + length (take 3 (currentValue o) ++ [writeCarryByte o]))%nat
        by (rewrite Hl4; lia).
      rewrite take_inserts_here by (rewrite Hl4; lia).
      rewrite app_assoc. reflexivity.
  - (* a lane of the accumulator is set, nothing is committed *)
    assert (4 * writeCursor o <= 2 ^ 32 - 4) as Hcap
      by (Z.div_mod_to_equations; lia).
    assert (u32 (index o + 1) = index o + 1) as Hu by (apply u32_small; lia).
    rewrite Hu in Hput.
    assert ((index o + 1) mod 4 = index o mod 4 + 1) as Hm
      by (Z.div_mod_to_equations; lia).
    rewrite Hm in Hput.
    destruct (index o mod 4 + 1 =? 0) eqn:E; [lia |].
    inversion Hput; subst o'; clear Hput.
    unfold out_ok, emitted. simpl. rewrite length_insert.
    repeat split; try lia.
    + Z.div_mod_to_equations. lia.
    + rewrite !land_3_mod, Hm.
      replace (Z.to_nat (index o mod 4 + 1)) with (S (Z.to_nat (index o mod 4)))
        by lia.
      rewrite take_succ_insert by lia.
      rewrite app_assoc. reflexivity.
Qed.

(** [put_byte] goes wrong only when the word it has to commit does not fit
    in the buffer. *)
Lemma put_byte_room o :
  out_ok o ->
  (Z.land (index o) 3 = 3 -> index o + 1 <= Z.of_nat (length (buffer o))) ->
  exists o', put_byte o = Ok o'.
Proof.
  intros (Hi & Hw & Hc & Hb & Hlen) Hroom.
  assert (0 <= index o mod 4 < 4) as Hlane by (apply Z.mod_pos_bound; lia).
  assert (index o = 4 * writeCursor o + index o mod 4) as Hidx
    by (rewrite Hw; apply Z.div_mod; lia).
  assert (0 <= writeCursor o) as Hwc by (rewrite Hw; apply Z.div_pos; lia).
  rewrite land_3_mod in Hroom.
  unfold put_byte. rewrite !land_3_mod.
  destruct (u32 (index o + 1) mod 4 =? 0) eqn:E; [| eauto].
  destruct (decide (index o mod 4 = 3)) as [H3 | H3].
  - specialize (Hroom H3).
    rewrite store_word_room by lia. simpl. eauto.
  - exfalso.
    assert (4 * writeCursor o <= 2 ^ 32 - 4) as Hcap
      by (Z.div_mod_to_equations; lia).
    rewrite u32_small in E by lia.
    apply Z.eqb_eq in E. Z.div_mod_to_equations. lia.
Qed.

(** [n] bytes emitted by the run path. *)
Lemma run_loop_spec n : forall o o',
  out_ok o -> run_loop n o = Ok o' ->
  out_ok o' /\
  emitted o' = emitted o ++ replicate n (writeCarryByte o) /\
  index o' = index o + Z.of_nat n /\
  writeCarryByte o' = writeCarryByte o /\
  length (buffer o') = length (buffer o).
Proof.
  induction n as [| n IH]; intros o o' Hok Hrun; simpl in Hrun.
  - inversion Hrun; subst o'. rewrite app_nil_r.
    split_and!; try done; lia.
  - destruct (put_byte o) as [o1 | f] eqn:Hput; simpl in Hrun; [| discriminate].
    destruct (put_byte_spec o o1 Hok Hput) as (Hok1 & He1 & Hi1 & Hb1 & Hl1).
    destruct (IH o1 o' Hok1 Hrun) as (Hok' & He' & Hi' & Hb' & Hl').
    split_and!; try done; try congruence; try lia.
    rewrite He', He1, Hb1, <- app_assoc. reflexivity.
Qed.

Lemma run_loop_room n : forall o,
  out_ok o ->
  4 * ((index o + Z.of_nat n) / 4) <= Z.of_nat (length (buffer o)) ->
  exists o', run_loop n o = Ok o'.
Proof.
  induction n as [| n IH]; intros o Hok Hroom; simpl.
  - eauto.
  - destruct (put_byte_room o Hok) as [o1 Hput].
    { rewrite land_3_mod. intros H3. destruct Hok as (Hi & _).
      Z.div_mod_to_equations. lia. }
    rewrite Hput. simpl.
    destruct (put_byte_spec o o1 Hok Hput) as (Hok1 & _ & Hi1 & _ & Hl1).
    apply IH; [assumption |]. rewrite Hi1, Hl1.
    replace (index o + 1 + Z.of_nat n) with (index o + Z.of_nat (S n)) by lia.
    assumption.
Qed.

(** Reading the emitted bytes back. *)
Lemma lookup_emitted_committed o p :
  out_ok o -> 0 <= p < 4 * writeCursor o ->
  emitted o !! Z.to_nat p = buffer o !! Z.to_nat p.
Proof.
  intros (Hi & Hw & Hc & Hb & _) Hp. unfold emitted.
  rewrite lookup_app_l by (rewrite length_take; lia).
  apply lookup_take_lt. lia.
Qed.

Lemma lookup_emitted_pending o p :
  out_ok o -> 4 * writeCursor o <= p < index o ->
  emitted o !! Z.to_nat p = currentValue o !! Z.to_nat (p - 4 * writeCursor o).
Proof.
  intros (Hi & Hw & Hc & Hb & _) Hp. unfold emitted.
  assert (0 <= writeCursor o) as Hwc by (rewrite Hw; apply Z.div_pos; lia).
  rewrite lookup_app_r by (rewrite length_take; lia).
  rewrite length_take, Nat.min_l by lia.
  rewrite land_3_mod.
  replace (Z.to_nat p - Z.to_nat (4 * writeCursor o))%nat
    with (Z.to_nat (p - 4 * writeCursor o)) by lia.
  apply lookup_take_lt. Z.div_mod_to_equations. lia.
Qed.

Lemma load_byte_Ok buf p b :
  load_byte buf p = Ok b -> 0 <= p /\ buf !! Z.to_nat p = Some b.
Proof.
  unfold load_byte. destruct (p <? 0) eqn:E; [discriminate |].
  apply Z.ltb_ge in E.
  destruct (buf !! Z.to_nat p) as [x |]; [| discriminate].
  intros H. inversion H. auto.
Qed.

Lemma load_byte_lookup buf p b :
  0 <= p -> buf !! Z.to_nat p = Some b -> load_byte buf p = Ok b.
Proof.
  intros Hp Hb. unfold load_byte.
  rewrite (proj2 (Z.ltb_ge _ _) Hp), Hb. reflexivity.
Qed.

Lemma out_ok_set_writeCarryByte b o : out_ok o -> out_ok (set_writeCarryByte b o).
Proof. intros H. exact H. Qed.

(** Committing the pending word early changes the buffer only from byte
    [4 * writeCursor] on: the emitted bytes stay what they were, and the
    pending ones can now be read from the buffer. *)
Lemma early_commit o buf' :
  out_ok o ->
  store_word (buffer o) (writeCursor o) (currentValue o) = Ok buf' ->
  out_ok (set_buffer buf' o) /\
  emitted (set_buffer buf' o) = emitted o /\
  length buf' = length (buffer o) /\
  (forall p, 0 <= p < index o -> buf' !! Z.to_nat p = emitted o !! Z.to_nat p).
Proof.
  intros Hok Hst. pose proof Hok as (Hi & Hw & Hc & Hb & Hlen).
  apply store_word_Ok in Hst. destruct Hst as (Hwc & Hroom & ->).
  assert (length (list_inserts (Z.to_nat (4 * writeCursor o)) (currentValue o)
                    (buffer o)) = length (buffer o)) as Hl
    by apply length_inserts.
  split; [| split; [| split]].
  - unfold out_ok, set_buffer. simpl. rewrite Hl. auto.
  - unfold emitted, set_buffer. simpl. f_equal.
    apply take_inserts_before. lia.
  - exact Hl.
  - intros p Hp. destruct (decide (p < 4 * writeCursor o)) as [Hlt | Hge].
    + rewrite lookup_emitted_committed by (auto; lia).
      apply list_lookup_inserts_lt. lia.
    + rewrite lookup_emitted_pending by (auto; lia).
      rewrite list_lookup_inserts.
      * f_equal. lia.
      * rewrite Hc. Z.div_mod_to_equations. lia.
      * Z.div_mod_to_equations. lia.
Qed.

(** One copied byte: if the iteration stays inside the buffer, the source
    position [index - d] held an emitted byte, and that byte is appended. *)
Lemma copy_iter_spec near d o o' :
  out_ok o -> 0 < d -> (near = false -> 4 <= d) ->
  copy_iter near (index o - d) o = Ok o' ->
  exists b,
    d <= index o /\
    emitted o !! Z.to_nat (index o - d) = Some b /\
    out_ok o' /\
    emitted o' = emitted o ++ [b] /\
    index o' = index o + 1 /\
    writeCarryByte o' = b /\
    length (buffer o') = length (buffer o).
Proof.
  intros Hok Hd Hnear Hit. pose proof Hok as (Hi & Hw & Hc & Hb & Hlen).
  assert (0 <= index o mod 4 < 4) as Hlane by (apply Z.mod_pos_bound; lia).
  assert (index o = 4 * writeCursor o + index o mod 4) as Hidx
    by (rewrite Hw; apply Z.div_mod; lia).
  unfold copy_iter in Hit. rewrite land_3_mod in Hit.
  destruct (near && negb (index o mod 4 =? 0)) eqn:Hc0.
  - (* the pending word is committed before the read *)
    destruct (store_word (buffer o) (writeCursor o) (currentValue o))
      as [buf' | f] eqn:Hst; simpl in Hit; [| discriminate].
    destruct (early_commit o buf' Hok Hst) as (Hok1 & He1 & Hl1 & Hrd).
    destruct (load_byte buf' (index o - d)) as [b | f] eqn:Hld;
      simpl in Hit; [| discriminate].
    apply load_byte_Ok in Hld. destruct Hld as (Hp & Hb0).
    rewrite Hrd in Hb0 by lia.
    destruct (put_byte_spec _ o' (out_ok_set_writeCarryByte b _ Hok1) Hit)
      as (Hok' & He' & Hi' & Hb' & Hl').
    exists b. simpl in *. rewrite He', Hl'.
    change (emitted (set_writeCarryByte b (set_buffer buf' o)))
      with (emitted (set_buffer buf' o)).
    rewrite He1. split_and!; try done; lia.
  - (* the source lies in the committed part of the buffer *)
    simpl in Hit.
    destruct (load_byte (buffer o) (index o - d)) as [b | f] eqn:Hld;
      simpl in Hit; [| discriminate].
    apply load_byte_Ok in Hld. destruct Hld as (Hp & Hb0).
    assert (index o - d < 4 * writeCursor o) as Hcommitted.
    { destruct near; simpl in Hc0.
      - apply negb_false_iff, Z.eqb_eq in Hc0. lia.
      - specialize (Hnear eq_refl). lia. }
    rewrite <- lookup_emitted_committed in Hb0 by (auto; lia).
    destruct (put_byte_spec _ o' (out_ok_set_writeCarryByte b _ Hok) Hit)
      as (Hok' & He' & Hi' & Hb' & Hl').
    exists b. simpl in *.
    change (emitted (set_writeCarryByte b o)) with (emitted o) in He'.
    split_and!; try done; lia.
Qed.

Lemma copy_iter_room near d o :
  out_ok o -> 0 < d <= index o -> (near = false -> 4 <= d) ->
  4 * (index o / 4) + 4 <= Z.of_nat (length (buffer o)) ->
  exists o', copy_iter near (index o - d) o = Ok o'.
Proof.
  intros Hok Hd Hnear Hroom. pose proof Hok as (Hi & Hw & Hc & Hb & Hlen).
  assert (0 <= index o mod 4 < 4) as Hlane by (apply Z.mod_pos_bound; lia).
  assert (index o = 4 * writeCursor o + index o mod 4) as Hidx
    by (rewrite Hw; apply Z.div_mod; lia).
  assert (0 <= writeCursor o) as Hwc by (rewrite Hw; apply Z.div_pos; lia).
  assert (is_Some (emitted o !! Z.to_nat (index o - d))) as [b Hb0].
  { apply lookup_lt_is_Some. pose proof (emitted_length o Hok). lia. }
  unfold copy_iter. rewrite land_3_mod.
  destruct (near && negb (index o mod 4 =? 0)) eqn:Hc0.
  - assert (4 * writeCursor o + 4 <= Z.of_nat (length (buffer o))) as Hfit
      by lia.
    pose proof (store_word_room _ _ (currentValue o) Hwc Hfit) as Hst.
    rewrite Hst. simpl.
    destruct (early_commit o _ Hok Hst) as (Hok1 & He1 & Hl1 & Hrd).
    rewrite (load_byte_lookup _ _ b) by (rewrite ?Hrd; auto; lia). simpl.
    apply put_byte_room.
    + apply out_ok_set_writeCarryByte. exact Hok1.
    + simpl. rewrite Hl1. intros _. lia.
  - simpl.
    assert (index o - d < 4 * writeCursor o) as Hcommitted.
    { destruct near; simpl in Hc0.
      - apply negb_false_iff, Z.eqb_eq in Hc0. lia.
      - specialize (Hnear eq_refl). lia. }
    rewrite (load_byte_lookup _ _ b)
      by (rewrite <- ?lookup_emitted_committed; auto; lia).
    simpl. apply put_byte_room.
    + apply out_ok_set_writeCarryByte. exact Hok.
    + simpl. intros _. lia.
Qed.

Lemma copy_bytes_app n d : forall l,
  exists bs, copy_bytes n d l = l ++ bs /\ length bs = n.
Proof.
  induction n as [| n IH]; intros l; simpl.
  - exists []. rewrite app_nil_r. auto.
  - destruct (IH (l ++ [nth (length l - d) l 0])) as (bs & Hbs & Hlen).
    exists (nth (length l - d) l 0 :: bs). rewrite Hbs, <- app_assoc.
    simpl. auto.
Qed.

Lemma copy_bytes_length n d l :
  length (copy_bytes n d l) = (length l + n)%nat.
Proof.
  destruct (copy_bytes_app n d l) as (bs & -> & Hlen).
  rewrite length_app. lia.
Qed.

(** Byte [i] of the copy equals the byte [d] places before it, whether that
    one was there before the copy or was produced by it. *)
Lemma copy_bytes_lookup n d : forall l i,
  (0 < d <= length l)%nat -> (i < n)%nat ->
  copy_bytes n d l !! (length l + i)%nat
  = copy_bytes n d l !! (length l + i - d)%nat.
Proof.
  induction n as [| n IH]; intros l i Hd Hi; [lia |]. simpl.
  set (x := nth (length l - d) l 0).
  destruct i as [| i].
  - destruct (copy_bytes_app n d (l ++ [x])) as (bs & -> & _).
    rewrite <- app_assoc. simpl.
    rewrite lookup_app_r by lia.
    replace (length l + 0 - length l)%nat with 0%nat by lia. simpl.
    rewrite lookup_app_l by lia.
    replace (length l + 0 - d)%nat with (length l - d)%nat by lia.
    unfold x.
    destruct (nth_lookup_or_length l (length l - d) 0) as [-> | Hout];
      [reflexivity | lia].
  - specialize (IH (l ++ [x]) i).
    rewrite length_app in IH. simpl in IH.
    replace (length l + S i)%nat with (length l + 1 + i)%nat by lia.
    apply IH; lia.
Qed.

(** The copy path does on the emitted bytes what [copy_bytes] does on a
    list, as long as it stays inside the buffer. *)
Lemma copy_loop_spec near d start n : forall i o o',
  out_ok o -> 0 < d -> (near = false -> 4 <= d) ->
  start + i = index o - d ->
  copy_loop n near start i o = Ok o' ->
  out_ok o' /\
  emitted o' = copy_bytes n (Z.to_nat d) (emitted o) /\
  index o' = index o + Z.of_nat n /\
  length (buffer o') = length (buffer o) /\
  (n <> O -> d <= index o).
Proof.
  induction n as [| n IH]; intros i o o' Hok Hd Hnear Hstart Hcopy;
    simpl in Hcopy.
  - inversion Hcopy; subst o'. simpl. split_and!; try done; lia.
  - rewrite Hstart in Hcopy.
    destruct (copy_iter near (index o - d) o) as [o1 | f] eqn:Hit;
      simpl in Hcopy; [| discriminate].
    destruct (copy_iter_spec near d o o1 Hok Hd Hnear Hit)
      as (b & Hsrc & Hb & Hok1 & He1 & Hi1 & _ & Hl1).
    destruct (IH (i + 1) o1 o' Hok1 Hd Hnear ltac:(lia) Hcopy)
      as (Hok' & He' & Hi' & Hl' & _).
    split_and!; try done; try lia; try congruence.
    rewrite He', He1. simpl. do 3 f_equal.
    pose proof (emitted_length o Hok) as Hlen.
    replace (length (emitted o) - Z.to_nat d)%nat
      with (Z.to_nat (index o - d)) by lia.
    symmetry. apply nth_lookup_Some. exact Hb.
Qed.

Lemma copy_loop_room near d start n : forall i o,
  out_ok o -> 0 < d <= index o -> (near = false -> 4 <= d) ->
  start + i = index o - d ->
  4 * ((index o + Z.of_nat n + 3) / 4) <= Z.of_nat (length (buffer o)) ->
  exists o', copy_loop n near start i o = Ok o'.
Proof.
  induction n as [| n IH]; intros i o Hok Hd Hnear Hstart Hroom; simpl.
  - eauto.
  - rewrite Hstart.
    destruct (copy_iter_room near d o Hok Hd Hnear) as [o1 Hit].
    { destruct Hok as (Hi & _). Z.div_mod_to_equations. lia. }
    rewrite Hit. simpl.
    destruct (copy_iter_spec near d o o1 Hok ltac:(lia) Hnear Hit)
      as (b & _ & _ & Hok1 & _ & Hi1 & _ & Hl1).
    apply IH; try assumption; try lia.
    rewrite Hi1, Hl1.
    replace (index o + 1 + Z.of_nat n + 3) with (index o + Z.of_nat (S n) + 3)
      by lia.
    assumption.
Qed.

(** [writeCarryByte] follows the output: after any emission it is the last
    emitted byte. *)
Lemma put_byte_carry o o' : out_ok o -> put_byte o = Ok o' -> carry_ok o'.
Proof.
  intros Hok Hput.
  destruct (put_byte_spec o o' Hok Hput) as (_ & He & _ & Hb & _).
  right. rewrite He, Hb. apply last_snoc.
Qed.

Lemma run_loop_carry n : forall o o',
  out_ok o -> carry_ok o -> run_loop n o = Ok o' -> carry_ok o'.
Proof.
  induction n as [| n IH]; intros o o' Hok Hc Hrun; simpl in Hrun.
  - inversion Hrun; subst o'. exact Hc.
  - destruct (put_byte o) as [o1 | f] eqn:Hput; simpl in Hrun; [| discriminate].
    destruct (put_byte_spec o o1 Hok Hput) as (Hok1 & _).
    exact (IH o1 o' Hok1 (put_byte_carry o o1 Hok Hput) Hrun).
Qed.

Lemma copy_loop_carry near d start n : forall i o o',
  out_ok o -> carry_ok o -> 0 < d -> (near = false -> 4 <= d) ->
  start + i = index o - d ->
  copy_loop n near start i o = Ok o' -> carry_ok o'.
Proof.
  induction n as [| n IH]; intros i o o' Hok Hc Hd Hnear Hstart Hcopy;
    simpl in Hcopy.
  - inversion Hcopy; subst o'. exact Hc.
  - rewrite Hstart in Hcopy.
    destruct (copy_iter near (index o - d) o) as [o1 | f] eqn:Hit;
      simpl in Hcopy; [| discriminate].
    destruct (copy_iter_spec near d o o1 Hok Hd Hnear Hit)
      as (b & _ & _ & Hok1 & He1 & Hi1 & Hb1 & _).
    apply (IH (i + 1) o1 o' Hok1); try assumption; try lia.
    right. rewrite He1, Hb1. apply last_snoc.
Qed.

(** ** The three kinds of step *)

Lemma odd_window a : Z.testbit a 0 = true -> (Z.land a 1 =? 0) = false.
Proof. intros H. rewrite land_1_testbit, H. reflexivity. Qed.

Lemma even_window a : Z.testbit a 0 = false -> (Z.land a 1 =? 0) = true.
Proof. intros H. rewrite land_1_testbit, H. reflexivity. Qed.

(** The coded path of [step], with the locals of the source replaced by
    what they are worth. *)
Lemma step_coded (data : list Z) (r : reader) (o : out) :
  Z.testbit (alpha r) 0 = true ->
  0 <= remainingShifts r <= 32 ->
  step data (r, o) =
    if iVar7 (alpha r) >=? CPRS_TERM then Break o
    else
      continue_with data
        (Z.shiftr (alpha r) (consumed (alpha r)))
        (remainingShifts r - consumed (alpha r)) r
        (if iVar7 (alpha r) =? 0 then run_loop (Z.to_nat (iVar6 (alpha r))) o
         else copy_loop (Z.to_nat (iVar6 (alpha r))) (iVar7 (alpha r) * 2 <? 4)
                (index o - iVar7 (alpha r) * 2) 0 o).
Proof.
  intros Hodd Hrs.
  unfold step. rewrite odd_window by exact Hodd.
  rewrite readCarryByte_coded_shift, remainingShifts_coded_sub by exact Hrs.
  pose proof (sym_range (alpha r)) as Hsym. rewrite <- iVar7_sym in Hsym.
  rewrite (u32_small (iVar7 (alpha r) * 2)) by lia.
  destruct (iVar7 (alpha r) >=? CPRS_TERM); [reflexivity |].
  destruct (iVar7 (alpha r) =? 0); reflexivity.
Qed.

(** C1.  A coded-symbol step.  When bit 0 of the window is 1, the locals
    [iVar7] and [iVar6] of the source are the symbol value and the repeat
    count of the specification: the primary row is picked by bits 1..2 of
    the window, [rest] is the window shifted right by 3 and then by
    [codeLenA], the secondary row is row 4 plus the low four bits of
    [rest], [sym] is its column 2 plus the next [codeLenB] bits, [count] is
    column 2 of the primary row plus the [codeLenA] bits after bit 2 plus
    [(col1 + 11) >> 3] of the secondary row.  The step goes on with the
    window shifted right by [codeLenA + 7 + codeLenB] bits and the live-bit
    counter lowered by the same number; none of the machine arithmetic
    wraps. *)
Theorem coded_symbol_step (data : list Z) (r : reader) (o : out) :
  Z.testbit (alpha r) 0 = true ->
  0 <= remainingShifts r <= 32 ->
  let w := alpha r in
  iVar7 w = sym w /\
  iVar6 w = count w /\
  readCarryByte_coded w = Z.shiftr w (codeLenA w + 7 + codeLenB w) /\
  remainingShifts_coded (remainingShifts r) w
    = remainingShifts r - (codeLenA w + 7 + codeLenB w) /\
  step data (r, o) =
    if sym w >=? CPRS_TERM then Break o
    else
      continue_with data
        (Z.shiftr w (codeLenA w + 7 + codeLenB w))
        (remainingShifts r - (codeLenA w + 7 + codeLenB w)) r
        (if sym w =? 0 then run_loop (Z.to_nat (count w)) o
         else copy_loop (Z.to_nat (count w)) (sym w * 2 <? 4)
                (index o - sym w * 2) 0 o).
Proof.
  intros Hodd Hrs w. subst w.
  split_and!.
  - apply iVar7_sym.
  - apply iVar6_count.
  - apply readCarryByte_coded_shift.
  - apply remainingShifts_coded_sub. exact Hrs.
  - rewrite step_coded by assumption.
    rewrite iVar7_sym, iVar6_count. reflexivity.
Qed.

(** C3.  A literal step.  When bit 0 of the window is 0, the step emits the
    one byte [(window >> 1) & 0xFF], goes on with the window shifted right
    by 9 bits and the live-bit counter lowered by 9, and leaves that byte in
    [writeCarryByte]: a run emitted next repeats it.  The step needs the
    word it may have to commit to lie inside the buffer. *)
Theorem literal_step (data : list Z) (r : reader) (o : out) :
  out_ok o ->
  Z.testbit (alpha r) 0 = false ->
  0 <= remainingShifts r <= 32 ->
  (Z.land (index o) 3 = 3 -> index o + 1 <= Z.of_nat (length (buffer o))) ->
  let b := Z.land (Z.shiftr (alpha r) 1) 0xff in
  exists o',
    step data (r, o)
      = continue_with data (Z.shiftr (alpha r) 9) (remainingShifts r - 9) r (Ok o') /\
    out_ok o' /\
    emitted o' = emitted o ++ [b] /\
    index o' = index o + 1 /\
    writeCarryByte o' = b /\
    (forall k : nat,
       4 * ((index o' + Z.of_nat k) / 4) <= Z.of_nat (length (buffer o')) ->
       exists o'', run_loop k o' = Ok o'' /\
                   emitted o'' = emitted o ++ b :: replicate k b).
Proof.
  intros Hok Heven Hrs Hroom b.
  destruct (put_byte_room (set_writeCarryByte b o)
              (out_ok_set_writeCarryByte b o Hok) Hroom) as [o' Hput].
  destruct (put_byte_spec _ o' (out_ok_set_writeCarryByte b o Hok) Hput)
    as (Hok' & He' & Hi' & Hb' & Hl').
  change (emitted (set_writeCarryByte b o)) with (emitted o) in He'.
  simpl in Hi', Hb', Hl'.
  exists o'. split_and!; try done.
  - unfold step. rewrite even_window by exact Heven.
    fold b. rewrite Hput. rewrite i8_small by lia. reflexivity.
  - intros k Hk.
    destruct (run_loop_room k o' Hok' Hk) as [o'' Hrun].
    exists o''. split; [exact Hrun |].
    destruct (run_loop_spec k o' o'' Hok' Hrun) as (_ & He'' & _).
    rewrite He'', He', Hb', <- app_assoc. reflexivity.
Qed.

(** C4.  A run step.  When the decoded symbol value [iVar7] is 0 and the
    repeat count [iVar6] is [k], the step emits [k] copies of
    [writeCarryByte] and [index] advances by [k]; [writeCarryByte] is the
    byte emitted last, as it is on every state the loop reaches
    ([steps_carry_ok]).  The step needs the words it commits to lie inside
    the buffer. *)
Theorem run_step (data : list Z) (r : reader) (o : out) :
  out_ok o ->
  carry_ok o ->
  Z.testbit (alpha r) 0 = true ->
  0 <= remainingShifts r <= 32 ->
  iVar7 (alpha r) = 0 ->
  let k := iVar6 (alpha r) in
  4 * ((index o + k) / 4) <= Z.of_nat (length (buffer o)) ->
  exists o',
    step data (r, o)
      = continue_with data (Z.shiftr (alpha r) (consumed (alpha r)))
          (remainingShifts r - consumed (alpha r)) r (Ok o') /\
    out_ok o' /\
    emitted o' = emitted o ++ replicate (Z.to_nat k) (writeCarryByte o) /\
    index o' = index o + k /\
    writeCarryByte o' = writeCarryByte o /\
    (emitted o <> [] -> last (emitted o) = Some (writeCarryByte o)).
Proof.
  intros Hok Hcarry Hodd Hrs Hsym k Hroom.
  pose proof (count_range (alpha r)) as Hk. rewrite <- iVar6_count in Hk.
  fold k in Hk.
  destruct (run_loop_room (Z.to_nat k) o Hok) as [o' Hrun].
  { rewrite Z2Nat.id by lia. exact Hroom. }
  destruct (run_loop_spec _ o o' Hok Hrun) as (Hok' & He' & Hi' & Hb' & _).
  exists o'. split_and!; try done; try lia.
  - rewrite step_coded by assumption.
    rewrite Hsym. fold k. rewrite <- Hrun. reflexivity.
  - intros Hne. destruct Hcarry as [Hnil | Hlast]; [contradiction | exact Hlast].
Qed.

(** C2, as the code has it.  A back-reference step.  When the decoded
    symbol value [s] is neither 0 nor terminal, the repeat count is [n], the
    source offset [index - 2 * s] is not before the start of the output, and
    the words touched lie inside the buffer, the step emits [n] bytes and
    leaves what was emitted before untouched; byte [i] of the copy equals
    the emitted byte [2 * s] places before it, also when that byte was
    produced by the same copy, so an overlapping copy repeats the pattern
    of the last [2 * s] bytes.  The distance is always even: the nearest
    source is two bytes back, and a copy needs at least [2 * s] bytes of
    output before it. *)
Theorem backref_step (data : list Z) (r : reader) (o : out) :
  out_ok o ->
  Z.testbit (alpha r) 0 = true ->
  0 <= remainingShifts r <= 32 ->
  let s := iVar7 (alpha r) in
  let n := iVar6 (alpha r) in
  0 < s < CPRS_TERM ->
  s * 2 <= index o ->
  4 * ((index o + n + 3) / 4) <= Z.of_nat (length (buffer o)) ->
  exists o',
    step data (r, o)
      = continue_with data (Z.shiftr (alpha r) (consumed (alpha r)))
          (remainingShifts r - consumed (alpha r)) r (Ok o') /\
    out_ok o' /\
    index o' = index o + n /\
    emitted o' = copy_bytes (Z.to_nat n) (Z.to_nat (s * 2)) (emitted o) /\
    (exists bs, emitted o' = emitted o ++ bs /\ Z.of_nat (length bs) = n) /\
    (forall i, 0 <= i < n ->
       is_Some (emitted o' !! Z.to_nat (index o + i)) /\
       emitted o' !! Z.to_nat (index o + i)
       = emitted o' !! Z.to_nat (index o + i - s * 2)).
Proof.
  intros Hok Hodd Hrs s n Hs Hsrc Hroom.
  pose proof (count_range (alpha r)) as Hn. rewrite <- iVar6_count in Hn.
  fold n in Hn.
  assert ((s * 2 <? 4) = false -> 4 <= s * 2) as Hnear
    by (intros H; apply Z.ltb_ge in H; exact H).
  destruct (copy_loop_room (s * 2 <? 4) (s * 2) (index o - s * 2) (Z.to_nat n)
              0 o Hok ltac:(lia) Hnear ltac:(lia)) as [o' Hcopy].
  { rewrite Z2Nat.id by lia. exact Hroom. }
  destruct (copy_loop_spec (s * 2 <? 4) (s * 2) (index o - s * 2) (Z.to_nat n)
              0 o o' Hok ltac:(lia) Hnear ltac:(lia) Hcopy)
    as (Hok' & He' & Hi' & _ & _).
  pose proof (emitted_length o Hok) as Hlen.
  exists o'. split_and!; try done; try lia.
  - rewrite step_coded by assumption. fold s n.
    destruct (s >=? CPRS_TERM) eqn:E1; [apply Z.geb_le in E1; lia |].
    destruct (s =? 0) eqn:E2; [apply Z.eqb_eq in E2; lia |].
    rewrite Hcopy. reflexivity.
  - destruct (copy_bytes_app (Z.to_nat n) (Z.to_nat (s * 2)) (emitted o))
      as (bs & Hbs & Hlb).
    exists bs. rewrite He'. split; [exact Hbs | lia].
  - intros i Hi.
    pose proof (copy_bytes_lookup (Z.to_nat n) (Z.to_nat (s * 2)) (emitted o)
                  (Z.to_nat i) ltac:(lia) ltac:(lia)) as Hlk.
    replace (length (emitted o) + Z.to_nat i)%nat
      with (Z.to_nat (index o + i)) in Hlk by lia.
    replace (Z.to_nat (index o + i) - Z.to_nat (s * 2))%nat
      with (Z.to_nat (index o + i - s * 2)) in Hlk by lia.
    rewrite <- He' in Hlk. split; [| exact Hlk].
    apply lookup_lt_is_Some. pose proof (emitted_length o' Hok'). lia.
Qed.

Lemma finish_spec o :
  out_ok o ->
  (Z.land (index o) 3 <> 0 ->
   4 * writeCursor o + 4 <= Z.of_nat (length (buffer o))) ->
  exists buf,
    finish o = RBuffer buf (index o) /\
    length buf = length (buffer o) /\
    take (Z.to_nat (index o)) buf = emitted o /\
    (Z.land (index o) 3 = 0 -> buf = buffer o) /\
    (Z.land (index o) 3 <> 0 ->
     store_word (buffer o) (writeCursor o) (currentValue o) = Ok buf).
Proof.
  intros Hok Hroom. pose proof Hok as (Hi & Hw & Hc & Hb & Hlen).
  assert (0 <= index o mod 4 < 4) as Hlane by (apply Z.mod_pos_bound; lia).
  assert (index o = 4 * writeCursor o + index o mod 4) as Hidx
    by (rewrite Hw; apply Z.div_mod; lia).
  assert (0 <= writeCursor o) as Hwc by (rewrite Hw; apply Z.div_pos; lia).
  unfold finish.
  destruct (Z.land (index o) 3 =? 0) eqn:E; simpl.
  - apply Z.eqb_eq in E. exists (buffer o). split_and!; try done.
    unfold emitted. rewrite E. simpl. rewrite app_nil_r.
    rewrite land_3_mod in E. do 2 f_equal. lia.
  - apply Z.eqb_neq in E. specialize (Hroom E).
    pose proof (store_word_room _ _ (currentValue o) Hwc Hroom) as Hst.
    rewrite Hst.
    destruct (early_commit o _ Hok Hst) as (_ & _ & Hl1 & Hrd).
    eexists. split_and!; try done.
    apply list_eq. intros j.
    destruct (decide (j < Z.to_nat (index o))%nat) as [Hlt | Hge].
    + rewrite lookup_take_lt by lia.
      specialize (Hrd (Z.of_nat j) ltac:(lia)).
      rewrite Nat2Z.id in Hrd. exact Hrd.
    + rewrite lookup_take_ge by lia. symmetry. apply lookup_ge_None.
      pose proof (emitted_length o Hok). lia.
Qed.

(** The terminal symbol, for a pending word that lies inside the buffer.
    When the decoded symbol value is at least [0x10002], the loop is left
    at once: whatever the payload holds from the read cursor on and however
    much fuel is left, the call returns the buffer with [*sizeOut = index],
    the number of bytes emitted.  When [index & 3 <> 0] the accumulator
    word is committed first, otherwise the buffer is returned as it is;
    either way the first [index] bytes of the buffer are the emitted bytes.
    Where the pending word does not lie inside the buffer, the commit
    writes past its end. *)
Theorem sentinel_step (r : reader) (o : out) :
  out_ok o ->
  Z.testbit (alpha r) 0 = true ->
  CPRS_TERM <= iVar7 (alpha r) ->
  (Z.land (index o) 3 <> 0 ->
   4 * writeCursor o + 4 <= Z.of_nat (length (buffer o))) ->
  exists buf,
    (forall (data : list Z) (fuel : nat),
       loop (S fuel) data (r, o) = RBuffer buf (index o)) /\
    index o = Z.of_nat (length (emitted o)) /\
    take (Z.to_nat (index o)) buf = emitted o /\
    length buf = length (buffer o) /\
    (Z.land (index o) 3 = 0 -> buf = buffer o) /\
    (Z.land (index o) 3 <> 0 ->
     store_word (buffer o) (writeCursor o) (currentValue o) = Ok buf).
Proof.
  intros Hok Hodd Hterm Hroom.
  destruct (finish_spec o Hok Hroom) as (buf & Hfin & Hl & Htake & H0 & H1).
  exists buf. split_and!; try done.
  - intros data fuel. simpl. unfold step.
    rewrite odd_window by exact Hodd.
    destruct (iVar7 (alpha r) >=? CPRS_TERM) eqn:E; [exact Hfin |].
    rewrite Z.geb_leb in E. apply Z.leb_gt in E. lia.
  - symmetry. apply emitted_length. exact Hok.
Qed.

(** ** Bitstream reader *)

(** C6, as the code has it.  The refill rule.  [rs] is the live-bit counter
    after a consumption.  When it is negative, 32 is added to it, the carry
    is the lookahead register shifted right by [32 - counter], that is its
    high [counter] bits, the lookahead register is loaded from the word at
    the read cursor, which advances, and the window is the new lookahead
    shifted left by [counter], OR-ed with the carry.  When it is not
    negative, the window is the lookahead shifted left by the counter,
    OR-ed with the leftover bits, and nothing is read. *)
Theorem refill_rule (data : list Z) (rcb rs : Z) (r : reader) :
  -32 <= rs <= 32 ->
  (rs < 0 ->
   forall w, load data (readCursor r) = Some w ->
     let counter := rs + 32 in
     let carry := high_bits counter (beta r) in
     refill data rcb rs r
     = Ok (MkReader (Z.lor (u32 (Z.shiftl w counter)) carry) w counter
             (readCursor r + 1))) /\
  (0 <= rs ->
   refill data rcb rs r
   = Ok (MkReader (Z.lor (u32 (Z.shiftl (beta r) rs)) rcb) (beta r) rs
           (readCursor r))).
Proof.
  intros Hrs. split.
  - intros Hneg w Hload counter carry. unfold refill.
    rewrite (proj2 (Z.ltb_lt _ _) Hneg), Hload.
    rewrite i8_small by lia. reflexivity.
  - intros Hpos. unfold refill.
    rewrite (proj2 (Z.ltb_ge _ _) Hpos). reflexivity.
Qed.

(** The counter stays within [0, 31] once a symbol has been consumed. *)
Lemma refill_counter data rcb rs r r' :
  -32 <= rs < 32 -> refill data rcb rs r = Ok r' ->
  0 <= remainingShifts r' <= 31 /\
  (0 <= rs -> remainingShifts r' = rs /\ readCursor r' = readCursor r) /\
  (rs < 0 -> remainingShifts r' = rs + 32 /\ readCursor r' = readCursor r + 1).
Proof.
  intros Hrs Href. unfold refill in Href.
  destruct (rs <? 0) eqn:E.
  - apply Z.ltb_lt in E. rewrite i8_small in Href by lia.
    destruct (load data (readCursor r)) as [w |]; [| discriminate].
    inversion Href; subst r'. simpl. lia.
  - apply Z.ltb_ge in E. inversion Href; subst r'. simpl. lia.
Qed.

Lemma stream_bit_word data q t w :
  0 <= t < 32 -> load data (3 + q) = Some w ->
  stream_bit data (32 * q + t) = Z.testbit w t.
Proof.
  intros Ht Hw. unfold stream_bit.
  replace ((32 * q + t) / 32) with q by (Z.div_mod_to_equations; lia).
  replace ((32 * q + t) mod 32) with t by (Z.div_mod_to_equations; lia).
  rewrite Hw. reflexivity.
Qed.

Lemma testbit_above x j : 0 <= x < 2 ^ 32 -> 32 <= j -> Z.testbit x j = false.
Proof.
  intros Hx Hj. destruct (decide (x = 0)) as [-> | Hnz].
  - apply Z.bits_0.
  - apply Z.bits_above_log2; [lia |].
    assert (Z.log2 x < 32) by (apply Z.log2_lt_pow2; lia). lia.
Qed.

Lemma lor_u32_range x y :
  0 <= y < 2 ^ 32 -> 0 <= Z.lor (u32 x) y < 2 ^ 32.
Proof.
  intros Hy. pose proof (u32_range x) as Hx. split.
  - apply Z.lor_nonneg. lia.
  - destruct (decide (Z.lor (u32 x) y = 0)) as [-> | Hnz]; [lia |].
    assert (0 <= Z.lor (u32 x) y) by (apply Z.lor_nonneg; lia).
    apply Z.log2_lt_pow2; [lia |].
    rewrite Z.log2_lor by lia.
    destruct (decide (u32 x = 0)) as [Hx0 | Hx0];
      destruct (decide (y = 0)) as [Hy0 | Hy0].
    + rewrite Hx0, Hy0. simpl. lia.
    + rewrite Hx0. simpl.
      assert (Z.log2 y < 32) by (apply Z.log2_lt_pow2; lia).
      pose proof (Z.log2_nonneg y). lia.
    + rewrite Hy0. simpl.
      assert (Z.log2 (u32 x) < 32) by (apply Z.log2_lt_pow2; lia).
      pose proof (Z.log2_nonneg (u32 x)). lia.
    + assert (Z.log2 (u32 x) < 32) by (apply Z.log2_lt_pow2; lia).
      assert (Z.log2 y < 32) by (apply Z.log2_lt_pow2; lia). lia.
Qed.

Lemma load_Some_lt (data : list Z) i w :
  load data i = Some w -> 0 <= i < Z.of_nat (length data).
Proof.
  unfold load. destruct (i <? 0) eqn:E; [discriminate |].
  apply Z.ltb_ge in E. intros H. apply lookup_lt_Some in H. lia.
Qed.

Lemma load_word_range data i w :
  Forall (fun w => 0 <= w < 2 ^ 32) data -> load data i = Some w ->
  0 <= w < 2 ^ 32.
Proof.
  intros Hall Hload. unfold load in Hload.
  destruct (i <? 0); [discriminate |].
  rewrite Forall_lookup in Hall. exact (Hall _ _ Hload).
Qed.

(** The refill rule keeps the window on the stream: after [n] bits are
    consumed (the leftover being the window shifted right by [n]), the
    reader stands [n] bits further. *)
Lemma refill_advances_stream data pos n r r' :
  Forall (fun w => 0 <= w < 2 ^ 32) data ->
  reader_at data pos r -> 0 < n <= 32 ->
  refill data (Z.shiftr (alpha r) n) (remainingShifts r - n) r = Ok r' ->
  reader_at data (pos + n) r'.
Proof.
  intros Hall (Hrs & Hrc & Hpos & Hbeta & Ha & Hbits) Hn Href.
  pose proof (load_word_range data _ _ Hall Hbeta) as Hb.
  unfold refill in Href.
  destruct (remainingShifts r - n <? 0) eqn:E.
  - (* the lookahead register is used up: the next word is loaded *)
    apply Z.ltb_lt in E. rewrite i8_small in Href by lia.
    destruct (load data (readCursor r)) as [w |] eqn:Hw; [| discriminate].
    pose proof (load_word_range data _ _ Hall Hw) as Hwr.
    pose proof (load_Some_lt data _ _ Hw) as Hwi.
    inversion Href; subst r'; clear Href.
    unfold reader_at. simpl. split_and!; try lia.
    + replace (readCursor r + 1 - 1) with (readCursor r) by lia. exact Hw.
    + apply lor_u32_range. split; [apply shiftr_nonneg; lia |].
      pose proof (shiftr_le (beta r) (32 - (remainingShifts r - n + 32))
                    ltac:(lia) ltac:(lia)). lia.
    + apply lor_u32_range. split; [apply shiftr_nonneg; lia |].
      pose proof (shiftr_le (beta r) (32 - (remainingShifts r - n + 32))
                    ltac:(lia) ltac:(lia)). lia.
    + intros j Hj. rewrite Z.lor_spec. unfold u32.
      rewrite Z.mod_pow2_bits_low by lia.
      rewrite Z.shiftl_spec, Z.shiftr_spec by lia.
      destruct (decide (j < remainingShifts r - n + 32)) as [Hlow | Hhigh].
      * rewrite (Z.testbit_neg_r w) by lia. simpl.
        replace (pos + n + j)
          with (32 * (readCursor r - 4) + (j + (n - remainingShifts r)))
          by lia.
        rewrite (stream_bit_word data _ _ (beta r)) by
          (try lia; replace (3 + (readCursor r - 4)) with (readCursor r - 1)
             by lia; exact Hbeta).
        f_equal. lia.
      * rewrite (testbit_above (beta r)) by lia. rewrite orb_false_r.
        replace (pos + n + j)
          with (32 * (readCursor r - 3) + (j - (remainingShifts r - n + 32)))
          by lia.
        rewrite (stream_bit_word data _ _ w) by
          (try lia; replace (3 + (readCursor r - 3)) with (readCursor r)
             by lia; exact Hw).
        reflexivity.
  - (* bits of the lookahead register are left *)
    apply Z.ltb_ge in E. inversion Href; subst r'; clear Href.
    unfold reader_at. simpl. split_and!; try lia; try assumption.
    + apply lor_u32_range. split; [apply shiftr_nonneg; lia |].
      pose proof (shiftr_le (alpha r) n ltac:(lia) ltac:(lia)). lia.
    + apply lor_u32_range. split; [apply shiftr_nonneg; lia |].
      pose proof (shiftr_le (alpha r) n ltac:(lia) ltac:(lia)). lia.
    + intros j Hj. rewrite Z.lor_spec. unfold u32.
      rewrite Z.mod_pow2_bits_low by lia.
      rewrite Z.shiftl_spec, Z.shiftr_spec by lia.
      destruct (decide (j < remainingShifts r - n)) as [Hlow | Hhigh].
      * rewrite (Z.testbit_neg_r (beta r)) by lia. simpl.
        rewrite Hbits by lia. f_equal. lia.
      * replace (pos + n + j)
          with (32 * (readCursor r - 4) + (j - (remainingShifts r - n)))
          by lia.
        rewrite (stream_bit_word data _ _ (beta r)) by
          (try lia; replace (3 + (readCursor r - 4)) with (readCursor r - 1)
             by lia; exact Hbeta).
        destruct (decide (j + n < 32)) as [Hin | Hout].
        -- rewrite Hbits by lia.
           replace (pos + (j + n))
             with (32 * (readCursor r - 4) + (j - (remainingShifts r - n)))
             by lia.
           rewrite (stream_bit_word data _ _ (beta r)) by
             (try lia; replace (3 + (readCursor r - 4)) with (readCursor r - 1)
                by lia; exact Hbeta).
           apply orb_diag.
        -- rewrite (testbit_above (alpha r)) by lia. apply orb_false_r.
Qed.

Lemma init_reader_at data a b :
  load data 3 = Some a -> load data 4 = Some b ->
  Forall (fun w => 0 <= w < 2 ^ 32) data ->
  reader_at data 0 (MkReader a b 0x20 5).
Proof.
  intros Ha Hb Hall.
  pose proof (load_Some_lt data _ _ Hb) as Hlen.
  pose proof (load_word_range data _ _ Hall Ha) as Har.
  unfold reader_at. simpl. split_and!; try lia; try assumption.
  intros j Hj.
  replace (0 + j) with (32 * 0 + j) by lia.
  rewrite (stream_bit_word data 0 j a) by (try lia; exact Ha). reflexivity.
Qed.

(** ** Container validation *)

Lemma finish_not_null o : finish o <> RNull.
Proof.
  unfold finish. destruct (negb (Z.land (index o) 3 =? 0)); [| discriminate].
  destruct (store_word _ _ _); discriminate.
Qed.

Lemma loop_not_null fuel data : forall s, loop fuel data s <> RNull.
Proof.
  induction fuel as [| fuel IH]; intros s; simpl; [discriminate |].
  destruct (step data s) as [s' | o | f];
    [apply IH | apply finish_not_null | discriminate].
Qed.

Lemma classic_invalid data sizeBytes :
  invalid_container data sizeBytes \/ ~ invalid_container data sizeBytes.
Proof.
  unfold invalid_container.
  destruct (decide (sizeBytes mod 4 = 0)); [| tauto].
  destruct (decide (sizeBytes / 4 <= 5)); [tauto |].
  destruct (decide (load data 0 = Some CPRS_SIG)); [| tauto].
  destruct (decide (load data (sizeBytes / 4 - 1) = Some CPRS_SIG)); tauto.
Qed.

Lemma load_in_range (data : list Z) (i : Z) :
  0 <= i < Z.of_nat (length data) -> exists w, load data i = Some w.
Proof.
  intros H. unfold load. rewrite (proj2 (Z.ltb_ge _ _)) by lia.
  apply lookup_lt_is_Some. lia.
Qed.

Lemma decompress_checks (fuel : nat) (garbage : Z) (data : list Z)
    (sizeBytes : Z) :
  0 <= sizeBytes <= 4 * Z.of_nat (length data) ->
  (invalid_container data sizeBytes ->
   decompress fuel garbage data sizeBytes = RNull) /\
  (~ invalid_container data sizeBytes ->
   exists decompressedSize a b,
     load data 2 = Some decompressedSize /\
     load data 3 = Some a /\
     load data 4 = Some b /\
     decompress fuel garbage data sizeBytes
     = loop fuel data (init_state garbage decompressedSize a b)).
Proof.
  intros Hsz. unfold invalid_container, decompress.
  destruct (sizeBytes mod 4 =? 0) eqn:E4; simpl.
  2: { apply Z.eqb_neq in E4. split; [tauto | intros H; exfalso; tauto]. }
  apply Z.eqb_eq in E4.
  destruct (sizeBytes / 4 <=? 5) eqn:E5.
  { apply Z.leb_le in E5. split; [tauto | intros H; exfalso; tauto]. }
  apply Z.leb_gt in E5.
  assert (sizeBytes / 4 <= Z.of_nat (length data)) as Hwords
    by (Z.div_mod_to_equations; lia).
  destruct (load_in_range data 0 ltac:(lia)) as [w0 H0].
  destruct (load_in_range data (sizeBytes / 4 - 1) ltac:(lia)) as [wl Hl].
  destruct (load_in_range data 2 ltac:(lia)) as [dsz H2].
  destruct (load_in_range data 3 ltac:(lia)) as [a H3].
  destruct (load_in_range data 4 ltac:(lia)) as [b H4].
  rewrite H0, Hl, H2, H3, H4.
  destruct (w0 =? CPRS_SIG) eqn:Ew0; simpl.
  2: { apply Z.eqb_neq in Ew0.
       assert (Some w0 <> Some CPRS_SIG) by congruence.
       split; [tauto | intros H'; exfalso; tauto]. }
  apply Z.eqb_eq in Ew0. subst w0.
  destruct (wl =? CPRS_SIG) eqn:Ewl; simpl.
  2: { apply Z.eqb_neq in Ewl.
       assert (Some wl <> Some CPRS_SIG) by congruence.
       split; [tauto | intros H'; exfalso; tauto]. }
  apply Z.eqb_eq in Ewl. subst wl.
  split.
  - intros [H | [H | [H | H]]]; try lia; congruence.
  - intros _. exists dsz, a, b. auto.
Qed.

(** C7.  [decompress] returns the null pointer exactly when the container
    fails one of the structural checks: byte length not a multiple of 4,
    at most 5 words, first or last word not the signature.  The answer does
    not depend on the fuel, not even on there being any: no symbol is
    decoded and no buffer is returned.  A container that passes the checks
    goes into the decoding loop with a buffer of [data[2]] zero bytes, the
    window [data[3]], the lookahead [data[4]] and the read cursor at
    word 5. *)
Theorem format_check (fuel : nat) (garbage : Z) (data : list Z) (sizeBytes : Z) :
  0 <= sizeBytes <= 4 * Z.of_nat (length data) ->
  (decompress fuel garbage data sizeBytes = RNull
   <-> invalid_container data sizeBytes) /\
  (~ invalid_container data sizeBytes ->
   exists decompressedSize a b,
     load data 2 = Some decompressedSize /\
     load data 3 = Some a /\
     load data 4 = Some b /\
     decompress fuel garbage data sizeBytes
     = loop fuel data (init_state garbage decompressedSize a b)).
Proof.
  intros Hsz.
  destruct (decompress_checks fuel garbage data sizeBytes Hsz) as (Hbad & Hgood).
  split; [| exact Hgood]. split; [| exact Hbad].
  intros Hnull.
  destruct (classic_invalid data sizeBytes) as [Hinv | Hval]; [exact Hinv |].
  destruct (Hgood Hval) as (d & a & b & _ & _ & _ & Heq).
  rewrite Heq in Hnull. exfalso. exact (loop_not_null _ _ _ Hnull).
Qed.

(** ** The decoding loop *)

Lemma loop_S fuel data s :
  loop (S fuel) data s =
  match step data s with
  | Continue s' => loop fuel data s'
  | Break o => finish o
  | Crash f => RFault f
  end.
Proof. reflexivity. Qed.

Lemma loop_steps k data : forall s s' m,
  steps k data s = Some s' -> loop (k + m) data s = loop m data s'.
Proof.
  induction k as [| k IH]; intros s s' m H; simpl in *.
  - inversion H. reflexivity.
  - destruct (step data s) as [s1 | o | f]; try discriminate.
    apply IH. exact H.
Qed.

(** More fuel does not change an answer that was reached. *)
Lemma loop_more_fuel k data : forall s m,
  loop k data s <> RFuel -> loop (k + m) data s = loop k data s.
Proof.
  induction k as [| k IH]; intros s m H; simpl in *; [congruence |].
  destruct (step data s) as [s1 | o | f]; try reflexivity.
  apply IH. exact H.
Qed.

Lemma continue_with_inv data rcb rs r x r' o' :
  continue_with data rcb rs r x = Continue (r', o') ->
  x = Ok o' /\ refill data rcb rs r = Ok r'.
Proof.
  unfold continue_with. destruct x as [o1 | f]; [| discriminate].
  destruct (refill data rcb rs r) as [r1 | f]; [| discriminate].
  intros H. inversion H. auto.
Qed.

Lemma step_break data r o o' : step data (r, o) = Break o' -> o' = o.
Proof.
  unfold step. destruct (Z.land (alpha r) 1 =? 0).
  - unfold continue_with. destruct (put_byte _); [| discriminate].
    destruct (refill _ _ _ _); discriminate.
  - destruct (iVar7 (alpha r) >=? CPRS_TERM); [congruence |].
    destruct (iVar7 (alpha r) =? 0); unfold continue_with.
    + destruct (run_loop _ _); [| discriminate].
      destruct (refill _ _ _ _); discriminate.
    + destruct (copy_loop _ _ _ _ _); [| discriminate].
      destruct (refill _ _ _ _); discriminate.
Qed.

(** A pass through the loop body keeps the assembler in order, keeps the
    size of the buffer, and only adds to the emitted bytes. *)
Lemma step_continue data r o r' o' :
  out_ok o -> step data (r, o) = Continue (r', o') ->
  out_ok o' /\
  length (buffer o') = length (buffer o) /\
  exists bs, emitted o' = emitted o ++ bs.
Proof.
  intros Hok Hstep. unfold step in Hstep.
  destruct (Z.land (alpha r) 1 =? 0).
  - apply continue_with_inv in Hstep. destruct Hstep as (Hput & _).
    destruct (put_byte_spec _ o' (out_ok_set_writeCarryByte _ o Hok) Hput)
      as (Hok' & He' & _ & _ & Hl').
    split_and!; try done. eexists. exact He'.
  - destruct (iVar7 (alpha r) >=? CPRS_TERM); [discriminate |].
    destruct (iVar7 (alpha r) =? 0) eqn:E0.
    + apply continue_with_inv in Hstep. destruct Hstep as (Hrun & _).
      destruct (run_loop_spec _ o o' Hok Hrun) as (Hok' & He' & _ & _ & Hl').
      split_and!; try done. eexists. exact He'.
    + apply continue_with_inv in Hstep. destruct Hstep as (Hcopy & _).
      apply Z.eqb_neq in E0.
      pose proof (sym_range (alpha r)) as Hsym. rewrite <- iVar7_sym in Hsym.
      rewrite (u32_small (iVar7 (alpha r) * 2)) in Hcopy by lia.
      assert ((iVar7 (alpha r) * 2 <? 4) = false -> 4 <= iVar7 (alpha r) * 2)
        as Hnear by (intros H; apply Z.ltb_ge in H; exact H).
      destruct (copy_loop_spec _ (iVar7 (alpha r) * 2)
                  (index o - iVar7 (alpha r) * 2) _ 0 o o' Hok
                  ltac:(lia) Hnear ltac:(lia) Hcopy)
        as (Hok' & He' & _ & Hl' & _).
      split_and!; try done.
      destruct (copy_bytes_app (Z.to_nat (iVar6 (alpha r)))
                  (Z.to_nat (iVar7 (alpha r) * 2)) (emitted o)) as (bs & Hbs & _).
      exists bs. rewrite He'. exact Hbs.
Qed.

Lemma step_carry_ok data r o r' o' :
  out_ok o -> carry_ok o -> step data (r, o) = Continue (r', o') -> carry_ok o'.
Proof.
  intros Hok Hc Hstep. unfold step in Hstep.
  destruct (Z.land (alpha r) 1 =? 0).
  - apply continue_with_inv in Hstep. destruct Hstep as (Hput & _).
    exact (put_byte_carry _ o' (out_ok_set_writeCarryByte _ o Hok) Hput).
  - destruct (iVar7 (alpha r) >=? CPRS_TERM); [discriminate |].
    destruct (iVar7 (alpha r) =? 0) eqn:E0.
    + apply continue_with_inv in Hstep. destruct Hstep as (Hrun & _).
      exact (run_loop_carry _ o o' Hok Hc Hrun).
    + apply continue_with_inv in Hstep. destruct Hstep as (Hcopy & _).
      apply Z.eqb_neq in E0.
      pose proof (sym_range (alpha r)) as Hsym. rewrite <- iVar7_sym in Hsym.
      rewrite (u32_small (iVar7 (alpha r) * 2)) in Hcopy by lia.
      assert ((iVar7 (alpha r) * 2 <? 4) = false -> 4 <= iVar7 (alpha r) * 2)
        as Hnear by (intros H; apply Z.ltb_ge in H; exact H).
      exact (copy_loop_carry _ (iVar7 (alpha r) * 2)
               (index o - iVar7 (alpha r) * 2) _ 0 o o' Hok Hc
               ltac:(lia) Hnear ltac:(lia) Hcopy).
Qed.

(** On every state the loop reaches, the assembler is in order and
    [writeCarryByte] is the last emitted byte, if there is one; before the
    first emission it is what it was on entry. *)
Lemma steps_carry_ok k data : forall s s',
  out_ok (snd s) -> carry_ok (snd s) -> steps k data s = Some s' ->
  carry_ok (snd s').
Proof.
  induction k as [| k IH]; intros s s' Hok Hc H; simpl in H.
  - inversion H; subst s'. exact Hc.
  - destruct (step data s) as [s1 | o | f] eqn:Hstep; try discriminate.
    destruct s as [r o], s1 as [r1 o1]. simpl in Hok, Hc.
    destruct (step_continue data r o r1 o1 Hok Hstep) as (Hok1 & _).
    exact (IH (r1, o1) s' Hok1 (step_carry_ok data r o r1 o1 Hok Hc Hstep) H).
Qed.

Lemma init_state_carry_ok garbage decompressedSize a b :
  carry_ok (snd (init_state garbage decompressedSize a b)).
Proof. left. reflexivity. Qed.

(** A pass through the loop body moves the reader along the stream by the
    bits of the symbol it decoded: 9 for a literal,
    [codeLenA + 7 + codeLenB] for a coded symbol. *)
Lemma step_advances_stream data pos r o r' o' :
  Forall (fun w => 0 <= w < 2 ^ 32) data ->
  reader_at data pos r ->
  step data (r, o) = Continue (r', o') ->
  reader_at data
    (pos + if Z.testbit (alpha r) 0 then consumed (alpha r) else 9) r'.
Proof.
  intros Hall Hat Hstep. pose proof Hat as (Hrs & _).
  destruct (Z.testbit (alpha r) 0) eqn:Hbit.
  - rewrite step_coded in Hstep by assumption.
    destruct (iVar7 (alpha r) >=? CPRS_TERM); [discriminate |].
    apply continue_with_inv in Hstep. destruct Hstep as (_ & Href).
    pose proof (consumed_range (alpha r)).
    apply (refill_advances_stream data pos _ r r' Hall Hat); [lia | exact Href].
  - unfold step in Hstep. rewrite even_window in Hstep by exact Hbit.
    apply continue_with_inv in Hstep. destruct Hstep as (_ & Href).
    rewrite i8_small in Href by lia.
    apply (refill_advances_stream data pos 9 r r' Hall Hat); [lia | exact Href].
Qed.

(** The reader stays on the stream, and so the live-bit counter stays within
    [0, 32], on every state the loop reaches. *)
Lemma steps_reader_at k data : forall pos s s',
  Forall (fun w => 0 <= w < 2 ^ 32) data ->
  reader_at data pos (fst s) -> steps k data s = Some s' ->
  exists pos', pos <= pos' /\ reader_at data pos' (fst s')
               /\ 0 <= remainingShifts (fst s') <= 32.
Proof.
  induction k as [| k IH]; intros pos s s' Hall Hat H; simpl in H.
  - inversion H; subst s'. exists pos. split; [lia |]. split; [exact Hat |].
    destruct Hat as (Hrs & _). exact Hrs.
  - destruct (step data s) as [s1 | o | f] eqn:Hstep; try discriminate.
    destruct s as [r o], s1 as [r1 o1]. simpl in Hat.
    pose proof (step_advances_stream data pos r o r1 o1 Hall Hat Hstep) as Hat1.
    destruct (IH _ (r1, o1) s' Hall Hat1 H) as (pos' & Hle & Hat' & Hrs').
    exists pos'. split; [| auto].
    pose proof (consumed_range (alpha r)).
    destruct (Z.testbit (alpha r) 0); lia.
Qed.

Lemma steps_out_ok k data : forall s s',
  out_ok (snd s) -> steps k data s = Some s' ->
  out_ok (snd s') /\ length (buffer (snd s')) = length (buffer (snd s)).
Proof.
  induction k as [| k IH]; intros s s' Hok H; simpl in H.
  - inversion H; subst s'. auto.
  - destruct (step data s) as [s1 | o | f] eqn:Hstep; try discriminate.
    destruct s as [r o], s1 as [r1 o1]. simpl in Hok.
    destruct (step_continue data r o r1 o1 Hok Hstep) as (Hok1 & Hl1 & _).
    destruct (IH (r1, o1) s' Hok1 H) as (Hok' & Hl').
    split; [exact Hok' | simpl in *; congruence].
Qed.

Lemma init_state_out_ok garbage decompressedSize a b :
  0 <= decompressedSize < 2 ^ 32 ->
  out_ok (snd (init_state garbage decompressedSize a b)).
Proof.
  intros H. unfold out_ok, init_state. simpl. rewrite length_replicate.
  split_and!; try done; lia.
Qed.

Lemma well_formed_valid data sizeBytes :
  well_formed data sizeBytes ->
  0 <= sizeBytes <= 4 * Z.of_nat (length data)
  /\ ~ invalid_container data sizeBytes.
Proof.
  intros (H4 & H5 & Hlen & H0 & Hl & _). split.
  - Z.div_mod_to_equations. lia.
  - unfold invalid_container. intros [H | [H | [H | H]]]; try lia; congruence.
Qed.


(** * The worked containers, decoded *)

Example literals_container_decodes g m :
  decompress (6 + m) g literals_container 28
  = RBuffer [0x41; 0x42; 0x43; 0x44; 0x45; 0; 0; 0] 5.
Proof. vm_compute. reflexivity. Qed.

Example literals_container_states :
  steps 5 literals_container (init_state 0 8 0x42190882 0xfffe28a4)
  = Some (literals_reader, literals_out).
Proof. vm_compute. reflexivity. Qed.

Example run_container_decodes g m :
  decompress (3 + m) g run_container 24 = RBuffer [0x41; 0x41; 0x41; 0] 3.
Proof. vm_compute. reflexivity. Qed.

Example run_container_states :
  steps 1 run_container (init_state 0 4 0xff880282 0x3ff)
  = Some (run_reader, run_out).
Proof. vm_compute. reflexivity. Qed.

(** Two bytes [a], [b] followed by a copy code with distance field 1 and
    length 5 expand to [a, b, a, b, a, b, a]. *)
Example copy_container_decodes g m :
  decompress (4 + m) g copy_container 24
  = RBuffer [0xab; 0xcd; 0xab; 0xcd; 0xab; 0xcd; 0xab; 0] 7.
Proof. vm_compute. reflexivity. Qed.

Example copy_container_states :
  steps 2 copy_container (init_state 0 8 0x142f3556 0x7ffff)
  = Some (copy_reader, copy_out).
Proof. vm_compute. reflexivity. Qed.

(** The last word is committed whole: with a buffer of 7 bytes the same
    stream writes one byte past its end. *)
Example copy_container_odd_size g m :
  decompress (4 + m) g [CPRS_SIG; 0; 7; 0x142f3556; 0x7ffff; CPRS_SIG] 24
  = RFault OobBufferWrite.
Proof. vm_compute. reflexivity. Qed.

(** ** The step theorems at the worked containers *)

(** [coded_symbol_step] at the run symbol of [run_container]. *)
Lemma coded_symbol_step_witness :
  Z.testbit (alpha run_reader) 0 = true /\
  0 <= remainingShifts run_reader <= 32 /\
  (iVar7 (alpha run_reader) = sym (alpha run_reader) /\
   iVar6 (alpha run_reader) = count (alpha run_reader) /\
   readCarryByte_coded (alpha run_reader)
   = Z.shiftr (alpha run_reader)
       (codeLenA (alpha run_reader) + 7 + codeLenB (alpha run_reader)) /\
   remainingShifts_coded (remainingShifts run_reader) (alpha run_reader)
   = remainingShifts run_reader
     - (codeLenA (alpha run_reader) + 7 + codeLenB (alpha run_reader)) /\
   step run_container (run_reader, run_out) =
     if sym (alpha run_reader) >=? CPRS_TERM then Break run_out
     else
       continue_with run_container
         (Z.shiftr (alpha run_reader)
            (codeLenA (alpha run_reader) + 7 + codeLenB (alpha run_reader)))
         (remainingShifts run_reader
          - (codeLenA (alpha run_reader) + 7 + codeLenB (alpha run_reader)))
         run_reader
         (if sym (alpha run_reader) =? 0
          then run_loop (Z.to_nat (count (alpha run_reader))) run_out
          else copy_loop (Z.to_nat (count (alpha run_reader)))
                 (sym (alpha run_reader) * 2 <? 4)
                 (index run_out - sym (alpha run_reader) * 2) 0 run_out)).
Proof.
  assert (Z.testbit (alpha run_reader) 0 = true) as h1 by reflexivity.
  assert (0 <= remainingShifts run_reader <= 32) as h2 by (simpl; lia).
  split; [exact h1 |]. split; [exact h2 |].
  exact (coded_symbol_step run_container run_reader run_out h1 h2).
Defined.

(** [literal_step] at the first literal of [copy_container], with one byte
    already in the accumulator. *)
Lemma literal_step_witness :
  out_ok run_out /\
  Z.testbit (alpha (MkReader 0x142f3556 0x7ffff 32 5)) 0 = false /\
  0 <= remainingShifts (MkReader 0x142f3556 0x7ffff 32 5) <= 32 /\
  (Z.land (index run_out) 3 = 3 ->
   index run_out + 1 <= Z.of_nat (length (buffer run_out))) /\
  exists o',
    step copy_container (MkReader 0x142f3556 0x7ffff 32 5, run_out)
    = continue_with copy_container (Z.shiftr 0x142f3556 9) (32 - 9)
        (MkReader 0x142f3556 0x7ffff 32 5) (Ok o') /\
    out_ok o' /\
    emitted o' = emitted run_out ++ [Z.land (Z.shiftr 0x142f3556 1) 0xff] /\
    index o' = index run_out + 1 /\
    writeCarryByte o' = Z.land (Z.shiftr 0x142f3556 1) 0xff /\
    (forall k : nat,
       4 * ((index o' + Z.of_nat k) / 4) <= Z.of_nat (length (buffer o')) ->
       exists o'', run_loop k o' = Ok o'' /\
                   emitted o'' = emitted run_out
                                 ++ Z.land (Z.shiftr 0x142f3556 1) 0xff
                                    :: replicate k (Z.land (Z.shiftr 0x142f3556 1) 0xff)).
Proof.
  assert (out_ok run_out) as h1 by solve_out_ok.
  assert (Z.testbit (alpha (MkReader 0x142f3556 0x7ffff 32 5)) 0 = false)
    as h2 by reflexivity.
  assert (0 <= remainingShifts (MkReader 0x142f3556 0x7ffff 32 5) <= 32)
    as h3 by (simpl; lia).
  assert (Z.land (index run_out) 3 = 3 ->
          index run_out + 1 <= Z.of_nat (length (buffer run_out))) as h4
    by (simpl; lia).
  split; [exact h1 |]. split; [exact h2 |]. split; [exact h3 |].
  split; [exact h4 |].
  exact (literal_step copy_container (MkReader 0x142f3556 0x7ffff 32 5)
           run_out h1 h2 h3 h4).
Defined.

(** [run_step] at the run symbol of [run_container]. *)
Lemma run_step_witness :
  out_ok run_out /\
  carry_ok run_out /\
  Z.testbit (alpha run_reader) 0 = true /\
  0 <= remainingShifts run_reader <= 32 /\
  iVar7 (alpha run_reader) = 0 /\
  4 * ((index run_out + iVar6 (alpha run_reader)) / 4)
  <= Z.of_nat (length (buffer run_out)) /\
  exists o',
    step run_container (run_reader, run_out)
    = continue_with run_container
        (Z.shiftr (alpha run_reader) (consumed (alpha run_reader)))
        (remainingShifts run_reader - consumed (alpha run_reader))
        run_reader (Ok o') /\
    out_ok o' /\
    emitted o' = emitted run_out
                 ++ replicate (Z.to_nat (iVar6 (alpha run_reader)))
                      (writeCarryByte run_out) /\
    index o' = index run_out + iVar6 (alpha run_reader) /\
    writeCarryByte o' = writeCarryByte run_out /\
    (emitted run_out <> [] ->
     last (emitted run_out) = Some (writeCarryByte run_out)).
Proof.
  assert (out_ok run_out) as h1 by solve_out_ok.
  assert (carry_ok run_out) as h0 by (right; reflexivity).
  assert (Z.testbit (alpha run_reader) 0 = true) as h2 by reflexivity.
  assert (0 <= remainingShifts run_reader <= 32) as h3 by (simpl; lia).
  assert (iVar7 (alpha run_reader) = 0) as h4 by reflexivity.
  assert (4 * ((index run_out + iVar6 (alpha run_reader)) / 4)
          <= Z.of_nat (length (buffer run_out))) as h5
    by (vm_compute; discriminate).
  split; [exact h1 |]. split; [exact h0 |]. split; [exact h2 |].
  split; [exact h3 |]. split; [exact h4 |]. split; [exact h5 |].
  exact (run_step run_container run_reader run_out h1 h0 h2 h3 h4 h5).
Defined.

(** [backref_step] at the copy symbol of [copy_container]: two bytes are
    behind it and the copy reaches back two bytes. *)
Lemma backref_step_witness :
  out_ok copy_out /\
  Z.testbit (alpha copy_reader) 0 = true /\
  0 <= remainingShifts copy_reader <= 32 /\
  0 < iVar7 (alpha copy_reader) < CPRS_TERM /\
  iVar7 (alpha copy_reader) * 2 <= index copy_out /\
  4 * ((index copy_out + iVar6 (alpha copy_reader) + 3) / 4)
  <= Z.of_nat (length (buffer copy_out)) /\
  exists o',
    step copy_container (copy_reader, copy_out)
    = continue_with copy_container
        (Z.shiftr (alpha copy_reader) (consumed (alpha copy_reader)))
        (remainingShifts copy_reader - consumed (alpha copy_reader))
        copy_reader (Ok o') /\
    out_ok o' /\
    index o' = index copy_out + iVar6 (alpha copy_reader) /\
    emitted o' = copy_bytes (Z.to_nat (iVar6 (alpha copy_reader)))
                   (Z.to_nat (iVar7 (alpha copy_reader) * 2)) (emitted copy_out) /\
    (exists bs, emitted o' = emitted copy_out ++ bs
                /\ Z.of_nat (length bs) = iVar6 (alpha copy_reader)) /\
    (forall i, 0 <= i < iVar6 (alpha copy_reader) ->
       is_Some (emitted o' !! Z.to_nat (index copy_out + i)) /\
       emitted o' !! Z.to_nat (index copy_out + i)
       = emitted o' !! Z.to_nat (index copy_out + i
                                 - iVar7 (alpha copy_reader) * 2)).
Proof.
  assert (out_ok copy_out) as h1 by solve_out_ok.
  assert (Z.testbit (alpha copy_reader) 0 = true) as h2 by reflexivity.
  assert (0 <= remainingShifts copy_reader <= 32) as h3 by (simpl; lia).
  assert (0 < iVar7 (alpha copy_reader) < CPRS_TERM) as h4
    by (vm_compute; split; reflexivity).
  assert (iVar7 (alpha copy_reader) * 2 <= index copy_out) as h5
    by (vm_compute; discriminate).
  assert (4 * ((index copy_out + iVar6 (alpha copy_reader) + 3) / 4)
          <= Z.of_nat (length (buffer copy_out))) as h6
    by (vm_compute; discriminate).
  split; [exact h1 |]. split; [exact h2 |]. split; [exact h3 |].
  split; [exact h4 |]. split; [exact h5 |]. split; [exact h6 |].
  exact (backref_step copy_container copy_reader copy_out h1 h2 h3 h4 h5 h6).
Defined.

(** [sentinel_step] at the terminal symbol of [literals_container], with a
    partly filled accumulator. *)
Lemma sentinel_step_witness :
  out_ok literals_out /\
  Z.testbit (alpha literals_reader) 0 = true /\
  CPRS_TERM <= iVar7 (alpha literals_reader) /\
  (Z.land (index literals_out) 3 <> 0 ->
   4 * writeCursor literals_out + 4 <= Z.of_nat (length (buffer literals_out))) /\
  exists buf,
    (forall (data : list Z) (fuel : nat),
       loop (S fuel) data (literals_reader, literals_out)
       = RBuffer buf (index literals_out)) /\
    index literals_out = Z.of_nat (length (emitted literals_out)) /\
    take (Z.to_nat (index literals_out)) buf = emitted literals_out /\
    length buf = length (buffer literals_out) /\
    (Z.land (index literals_out) 3 = 0 -> buf = buffer literals_out) /\
    (Z.land (index literals_out) 3 <> 0 ->
     store_word (buffer literals_out) (writeCursor literals_out)
       (currentValue literals_out) = Ok buf).
Proof.
  assert (out_ok literals_out) as h1 by solve_out_ok.
  assert (Z.testbit (alpha literals_reader) 0 = true) as h2 by reflexivity.
  assert (CPRS_TERM <= iVar7 (alpha literals_reader)) as h3
    by (vm_compute; discriminate).
  assert (Z.land (index literals_out) 3 <> 0 ->
          4 * writeCursor literals_out + 4
          <= Z.of_nat (length (buffer literals_out))) as h4
    by (intros _; vm_compute; discriminate).
  split; [exact h1 |]. split; [exact h2 |]. split; [exact h3 |].
  split; [exact h4 |].
  exact (sentinel_step literals_reader literals_out h1 h2 h3 h4).
Defined.

(** C2 as stated fails.  One byte [0xab], then the copy code with distance
    field 1 and length 5: the source of the copy is two bytes back, one
    byte before the start of the buffer, and the first [start[i]] is read
    from there.  No amount of fuel yields a buffer, let alone one that
    holds [0xab] six times. *)
Lemma backref_single_byte_counterexample :
  exists r o,
    step short_copy_container (init_state 0 8 0xff8a1756 0x3ff) = Continue (r, o) /\
    emitted o = [0xab] /\
    Z.testbit (alpha r) 0 = true /\
    iVar7 (alpha r) = 1 /\
    iVar6 (alpha r) = 5 /\
    index o - iVar7 (alpha r) * 2 = -1 /\
    step short_copy_container (r, o) = Crash OobBufferRead /\
    forall g fuel buf n,
      decompress fuel g short_copy_container 24 <> RBuffer buf n.
Proof.
  exists (MkReader 0xffffc50b 0x3ff 23 5),
         (MkOut [0; 0; 0; 0; 0; 0; 0; 0] [0xab; 0; 0; 0] 0 1 0xab).
  do 7 (split; [vm_compute; reflexivity |]).
  intros g fuel buf n. destruct fuel as [| [| fuel]]; vm_compute; discriminate.
Qed.

(** C6 as stated fails.  The counter is 5 and 9 bits are consumed, so it
    drops to -4 and becomes 28; the lookahead register holds [0x80000000]
    and the next word is 1.  The code takes as carry the high 28 bits of
    the lookahead, [0x08000000], not its high 4 bits, [0x8]; and the new
    window holds the new word from bit 28 up, which no shift of the old
    lookahead OR-ed with the specified carry produces. *)
Lemma refill_counterexample :
  exists r',
    refill [0; 0; 0; 0; 0; 1] 0 (5 - 9) (MkReader 0 0x80000000 5 5) = Ok r' /\
    remainingShifts r' = 28 /\
    alpha r' = Z.lor (u32 (Z.shiftl 1 28)) 0x08000000 /\
    high_bits 28 0x80000000 = 0x08000000 /\
    carry_as_specified 28 0x80000000 = 0x8 /\
    forall s, alpha r' <> window_as_specified s 28 0x80000000.
Proof.
  eexists. split; [vm_compute; reflexivity |].
  split_and!; try reflexivity.
  intros s H. apply (f_equal (fun z => Z.testbit z 3)) in H.
  unfold window_as_specified in H. rewrite Z.lor_spec in H.
  change (Z.testbit (carry_as_specified 28 0x80000000) 3) with true in H.
  rewrite orb_true_r in H. vm_compute in H. discriminate.
Qed.

(** [refill_rule] at a counter of 5 after 9 bits were consumed. *)
Lemma refill_rule_witness :
  -32 <= 5 - 9 <= 32 /\
  (5 - 9 < 0 ->
   forall w, load [0; 0; 0; 0; 0; 1] (readCursor (MkReader 0 0x80000000 5 5)) = Some w ->
     refill [0; 0; 0; 0; 0; 1] 0 (5 - 9) (MkReader 0 0x80000000 5 5)
     = Ok (MkReader
             (Z.lor (u32 (Z.shiftl w (5 - 9 + 32)))
                (high_bits (5 - 9 + 32) (beta (MkReader 0 0x80000000 5 5))))
             w (5 - 9 + 32) (readCursor (MkReader 0 0x80000000 5 5) + 1))) /\
  (0 <= 5 - 9 ->
   refill [0; 0; 0; 0; 0; 1] 0 (5 - 9) (MkReader 0 0x80000000 5 5)
   = Ok (MkReader
           (Z.lor (u32 (Z.shiftl (beta (MkReader 0 0x80000000 5 5)) (5 - 9))) 0)
           (beta (MkReader 0 0x80000000 5 5)) (5 - 9)
           (readCursor (MkReader 0 0x80000000 5 5)))).
Proof.
  assert (-32 <= 5 - 9 <= 32) as h1 by lia.
  split; [exact h1 |].
  exact (refill_rule [0; 0; 0; 0; 0; 1] 0 (5 - 9) (MkReader 0 0x80000000 5 5) h1).
Defined.

(** [format_check] at [run_container]. *)
Lemma format_check_witness :
  0 <= 24 <= 4 * Z.of_nat (length run_container) /\
  (decompress 3 0 run_container 24 = RNull
   <-> invalid_container run_container 24) /\
  (~ invalid_container run_container 24 ->
   exists decompressedSize a b,
     load run_container 2 = Some decompressedSize /\
     load run_container 3 = Some a /\
     load run_container 4 = Some b /\
     decompress 3 0 run_container 24
     = loop 3 run_container (init_state 0 decompressedSize a b)).
Proof.
  assert (0 <= 24 <= 4 * Z.of_nat (length run_container)) as h1
    by (simpl; lia).
  split; [exact h1 |].
  exact (format_check 3 0 run_container 24 h1).
Defined.



(** C9 fails on the code.  [truncated_container] has one payload word and no
    terminal symbol in it.  The loop has no bound on the read cursor: the
    eighth pass loads the trailer word [data[6]] into the lookahead
    register as if it were payload, the eleventh reads [data[7]], outside
    the container.  No error is reported at any point. *)
Theorem truncated_payload_read_past_end :
  well_formed truncated_container 28 /\
  (exists s,
     steps 8 truncated_container (init_state 0 64 0 0) = Some s /\
     beta (fst s) = CPRS_SIG /\ readCursor (fst s) = 7) /\
  (forall g m,
     decompress (11 + m) g truncated_container 28 = RFault OobDataRead) /\
  (forall g fuel, decompress fuel g truncated_container 28 <> RNull).
Proof.
  split; [solve_well_formed |]. split_and!.
  - eexists. split; [vm_compute; reflexivity |]. split; reflexivity.
  - intros g m. vm_compute. reflexivity.
  - intros g fuel. apply loop_not_null.
Qed.

(** C10.  [first_run_container] passes the structural checks and its first
    symbol is a run ([iVar7 = 0]) of two bytes: nothing has been emitted and
    [writeCarryByte] has never been assigned.  The two bytes of the output
    are whatever [writeCarryByte] held on entry, so two calls on the same
    container need not return the same bytes. *)
Theorem first_run_emits_garbage :
  well_formed first_run_container 24 /\
  load first_run_container 3 = Some 0xffffc401 /\
  Z.testbit 0xffffc401 0 = true /\
  iVar7 0xffffc401 = 0 /\
  iVar6 0xffffc401 = 2 /\
  (forall g m,
     decompress (2 + m) g first_run_container 24 = RBuffer [g; g; 0; 0] 2) /\
  exists g1 g2 fuel,
    decompress fuel g1 first_run_container 24
    <> decompress fuel g2 first_run_container 24.
Proof.
  split; [solve_well_formed |].
  do 4 (split; [reflexivity |]). split.
  - intros g m. vm_compute. reflexivity.
  - exists 0, 1, 2%nat. vm_compute. discriminate.
Qed.

(** C5 fails on the code.  [odd_size_container] declares 5 bytes and holds
    five literals and the terminal symbol.  The terminal symbol is reached
    with [index = 5]: one byte is pending in the accumulator, and
    [writeCursor] stands at word 1, bytes 4 to 7, of a buffer of 5 bytes.
    The loop is left at once, but [*writeCursor = currentValue] commits the
    whole word: three bytes are written past the end of the buffer, and the
    call does not end in a defined way, for any entry value of
    [writeCarryByte] and any amount of fuel that reaches the symbol.  With
    a declared size of 8 the same stream ends as the claim says
    ([literals_container_decodes]). *)
Theorem sentinel_commit_past_buffer :
  well_formed odd_size_container 28 /\
  load odd_size_container 2 = Some 5 /\
  (exists r o,
     steps 5 odd_size_container (init_state 0 5 0x42190882 0xfffe28a4)
     = Some (r, o) /\
     emitted o = [0x41; 0x42; 0x43; 0x44; 0x45] /\
     index o = 5 /\
     Z.of_nat (length (buffer o)) = 5 /\
     Z.testbit (alpha r) 0 = true /\
     CPRS_TERM <= iVar7 (alpha r) /\
     step odd_size_container (r, o) = Break o /\
     Z.land (index o) 3 <> 0 /\
     4 * writeCursor o + 4 = 8 /\
     store_word (buffer o) (writeCursor o) (currentValue o)
     = Err OobBufferWrite /\
     finish o = RFault OobBufferWrite) /\
  (forall g m,
     decompress (6 + m) g odd_size_container 28 = RFault OobBufferWrite) /\
  (forall g fuel buf n,
     decompress fuel g odd_size_container 28 <> RBuffer buf n).
Proof.
  split; [solve_well_formed |]. split; [reflexivity |]. split; [| split].
  - exists literals_reader,
      (MkOut [0x41; 0x42; 0x43; 0x44; 0] [0x45; 0; 0; 0] 1 5 0x45).
    do 6 (split; [vm_compute; first [reflexivity | discriminate] |]).
    split; [vm_compute; reflexivity |].
    split; [vm_compute; discriminate |].
    do 2 (split; [vm_compute; reflexivity |]).
    vm_compute. reflexivity.
  - intros g m. vm_compute. reflexivity.
  - intros g fuel buf n.
    destruct fuel as [| [| [| [| [| [| fuel]]]]]]; vm_compute; discriminate.
Qed.

(** * Further properties of the decoder *)

(** ** What a coded symbol can ask for *)

(** X3.  Whatever the window holds, a coded symbol has a repeat count
    between 2 and 270, a symbol value of at most [0x10003], and takes
    between 10 and 30 bits; the table is read in its first 79 words only
    (the four primary rows and the sixteen secondary rows, columns 0 to
    2). *)
Theorem coded_symbol_ranges (a : Z) :
  2 <= iVar6 a <= 270 /\
  0 <= iVar7 a <= 0x10003 /\
  10 <= uVar9 a + 7 + uVar1' a <= 30 /\
  0 <= Z.land (Z.shiftr a 1) 3 * 0x04 /\
  Z.land (Z.shiftr a 1) 3 * 0x04 + 2 < 16 /\
  16 <= puVar2 a /\
  puVar2 a + 2 < 79.
Proof.
  pose proof (count_range a) as Hc. rewrite <- iVar6_count in Hc.
  pose proof (sym_range a) as Hs. rewrite <- iVar7_sym in Hs.
  pose proof (consumed_range a) as Hb. unfold consumed in Hb.
  rewrite <- uVar9_codeLenA, <- uVar1'_codeLenB in Hb.
  pose proof (primaryRow_range a) as Hp. unfold primaryRow in Hp.
  pose proof (secondaryRow_range a) as Hq.
  pose proof (puVar2_secondaryRow a 0) as Hpu.
  split_and!; lia.
Qed.

(** ** Progress of the loop *)

(** A pass that stays in the loop emits at least one byte and at most 270. *)
Lemma copy_loop_S n near start i o :
  copy_loop (S n) near start i o
  = bind (copy_iter near (start + i) o)
      (fun o' => copy_loop n near start (i + 1) o').
Proof. reflexivity. Qed.

Lemma step_emits data r o r' o' :
  out_ok o -> step data (r, o) = Continue (r', o') ->
  index o + 1 <= index o' <= index o + 270.
Proof.
  intros Hok Hstep. unfold step in Hstep.
  pose proof (count_range (alpha r)) as Hc. rewrite <- iVar6_count in Hc.
  destruct (Z.land (alpha r) 1 =? 0).
  - apply continue_with_inv in Hstep. destruct Hstep as (Hput & _).
    destruct (put_byte_spec _ o' (out_ok_set_writeCarryByte _ o Hok) Hput)
      as (_ & _ & Hi & _). simpl in Hi. lia.
  - destruct (iVar7 (alpha r) >=? CPRS_TERM); [discriminate |].
    destruct (iVar7 (alpha r) =? 0) eqn:E0.
    + apply continue_with_inv in Hstep. destruct Hstep as (Hrun & _).
      destruct (run_loop_spec _ o o' Hok Hrun) as (_ & _ & Hi & _). lia.
    + apply continue_with_inv in Hstep. destruct Hstep as (Hcopy & _).
      apply Z.eqb_neq in E0.
      pose proof (sym_range (alpha r)) as Hsym. rewrite <- iVar7_sym in Hsym.
      rewrite (u32_small (iVar7 (alpha r) * 2)) in Hcopy by lia.
      assert ((iVar7 (alpha r) * 2 <? 4) = false -> 4 <= iVar7 (alpha r) * 2)
        as Hnear by (intros H; apply Z.ltb_ge in H; exact H).
      destruct (copy_loop_spec _ (iVar7 (alpha r) * 2)
                  (index o - iVar7 (alpha r) * 2) _ 0 o o' Hok
                  ltac:(lia) Hnear ltac:(lia) Hcopy)
        as (_ & _ & Hi & _). lia.
Qed.

Lemma steps_emit k data : forall s s',
  out_ok (snd s) -> steps k data s = Some s' ->
  index (snd s) + Z.of_nat k <= index (snd s')
  <= index (snd s) + 270 * Z.of_nat k.
Proof.
  induction k as [| k IH]; intros s s' Hok H; simpl in H.
  - inversion H; subst s'. lia.
  - destruct (step data s) as [s1 | o | f] eqn:Hstep; try discriminate.
    destruct s as [r o], s1 as [r1 o1]. simpl in Hok.
    destruct (step_continue data r o r1 o1 Hok Hstep) as (Hok1 & _).
    pose proof (step_emits data r o r1 o1 Hok Hstep) as He.
    pose proof (IH (r1, o1) s' Hok1 H) as He'. cbn [fst snd] in *. lia.
Qed.

Lemma out_ok_index_bound o :
  out_ok o -> index o <= Z.of_nat (length (buffer o)) + 3.
Proof.
  intros (Hi & Hw & _ & Hb & _). Z.div_mod_to_equations. lia.
Qed.

Lemma loop_steps_or_done k data : forall s,
  loop k data s <> RFuel \/ exists s', steps k data s = Some s'.
Proof.
  induction k as [| k IH]; intros s; simpl.
  - right. eauto.
  - destruct (step data s) as [s1 | o | f].
    + apply IH.
    + left. unfold finish.
      destruct (negb (Z.land (index o) 3 =? 0)); [| discriminate].
      destruct (store_word _ _ _); discriminate.
    + left. discriminate.
Qed.

(** X4.  The loop cannot go on for ever.  Every pass that stays in the
    loop emits at least one byte, and the emitted bytes are inside the
    buffer up to the pending word, so for a well-formed container
    [decompress] has left the loop, by the terminal symbol or by an access
    out of bounds, after at most [decompressedSize + 3] passes: with that
    much fuel and one more the answer is never "still running". *)
Theorem decompress_fuel_bound (fuel : nat) (garbage : Z) (data : list Z)
    (sizeBytes decompressedSize : Z) :
  well_formed data sizeBytes ->
  load data 2 = Some decompressedSize ->
  decompressedSize + 4 <= Z.of_nat fuel ->
  decompress fuel garbage data sizeBytes <> RFuel.
Proof.
  intros Hwf H2 Hfuel.
  pose proof (well_formed_valid data sizeBytes Hwf) as (Hsz & Hvalid).
  pose proof Hwf as (_ & _ & _ & _ & _ & Hall).
  pose proof (load_word_range data 2 _ Hall H2) as Hdsz.
  destruct (proj2 (decompress_checks fuel garbage data sizeBytes Hsz) Hvalid)
    as (d & a & b & H2' & _ & _ & ->).
  replace d with decompressedSize by congruence.
  destruct (loop_steps_or_done fuel data
              (init_state garbage decompressedSize a b)) as [Hdone | [s' Hs]];
    [exact Hdone |].
  exfalso.
  pose proof (init_state_out_ok garbage decompressedSize a b Hdsz) as Hok0.
  destruct (steps_out_ok fuel data _ _ Hok0 Hs) as (Hok' & Hl').
  pose proof (steps_emit fuel data _ _ Hok0 Hs) as He.
  pose proof (out_ok_index_bound _ Hok') as Hb.
  simpl in He, Hl'. rewrite Hl', length_replicate in Hb. lia.
Qed.

(** [decompress_fuel_bound] at [literals_container], which declares 8
    bytes. *)
Lemma decompress_fuel_bound_witness :
  well_formed literals_container 28 /\
  load literals_container 2 = Some 8 /\
  8 + 4 <= Z.of_nat 12 /\
  decompress 12 0 literals_container 28 <> RFuel.
Proof.
  assert (well_formed literals_container 28) as h1 by solve_well_formed.
  assert (load literals_container 2 = Some 8) as h2 by reflexivity.
  assert (8 + 4 <= Z.of_nat 12) as h3 by (simpl; lia).
  split; [exact h1 |]. split; [exact h2 |]. split; [exact h3 |].
  exact (decompress_fuel_bound 12 0 literals_container 28 8 h1 h2 h3).
Defined.

(** ** The reader and the carry byte on the states the loop reaches *)

Lemma steps_reader_pos k data : forall pos s s',
  Forall (fun w => 0 <= w < 2 ^ 32) data ->
  reader_at data pos (fst s) -> steps k data s = Some s' ->
  exists pos',
    pos + 9 * Z.of_nat k <= pos' <= pos + 30 * Z.of_nat k /\
    reader_at data pos' (fst s').
Proof.
  induction k as [| k IH]; intros pos s s' Hall Hat H; simpl in H.
  - inversion H; subst s'. exists pos. split; [lia | exact Hat].
  - destruct (step data s) as [s1 | o | f] eqn:Hstep; try discriminate.
    destruct s as [r o], s1 as [r1 o1]. simpl in Hat.
    pose proof (step_advances_stream data pos r o r1 o1 Hall Hat Hstep) as Hat1.
    destruct (IH _ (r1, o1) s' Hall Hat1 H) as (pos' & Hle & Hat').
    exists pos'. split; [| exact Hat'].
    pose proof (consumed_range (alpha r)).
    destruct (Z.testbit (alpha r) 0); lia.
Qed.

(** X1.  The window follows the bit stream.  On every state that a
    well-formed container reaches after [k] passes, the reader stands at a
    bit position [pos] of the stream made of [data[3]], [data[4]], ...
    (least significant bit first): bit [j] of the window is bit [pos + j]
    of the stream for all 32 bits, the lookahead register is the word
    before the read cursor, the counter is within 0..32, and [pos] has
    advanced by 9 to 30 bits per pass. *)
Theorem window_follows_stream (garbage : Z) (data : list Z)
    (sizeBytes decompressedSize a b : Z) (k : nat) (s : state) :
  well_formed data sizeBytes ->
  load data 3 = Some a ->
  load data 4 = Some b ->
  steps k data (init_state garbage decompressedSize a b) = Some s ->
  exists pos,
    9 * Z.of_nat k <= pos <= 30 * Z.of_nat k /\
    pos = 32 * (readCursor (fst s) - 4) - remainingShifts (fst s) /\
    0 <= remainingShifts (fst s) <= 32 /\
    load data (readCursor (fst s) - 1) = Some (beta (fst s)) /\
    forall j, 0 <= j < 32 ->
      Z.testbit (alpha (fst s)) j = stream_bit data (pos + j).
Proof.
  intros Hwf Ha Hb Hs.
  pose proof Hwf as (_ & _ & _ & _ & _ & Hall).
  pose proof (init_reader_at data a b Ha Hb Hall) as Hat0.
  destruct (steps_reader_pos k data 0
              (init_state garbage decompressedSize a b) s Hall Hat0 Hs)
    as (pos & Hpos & Hat).
  destruct Hat as (Hrs & _ & Hp & Hbeta & _ & Hbits).
  exists pos. split_and!; try done; lia.
Qed.

(** [window_follows_stream] at [literals_container] after its five
    literals. *)
Lemma window_follows_stream_witness :
  well_formed literals_container 28 /\
  load literals_container 3 = Some 0x42190882 /\
  load literals_container 4 = Some 0xfffe28a4 /\
  steps 5 literals_container (init_state 0 8 0x42190882 0xfffe28a4)
  = Some (literals_reader, literals_out) /\
  exists pos,
    9 * Z.of_nat 5 <= pos <= 30 * Z.of_nat 5 /\
    pos = 32 * (readCursor (fst (literals_reader, literals_out)) - 4)
          - remainingShifts (fst (literals_reader, literals_out)) /\
    0 <= remainingShifts (fst (literals_reader, literals_out)) <= 32 /\
    load literals_container (readCursor (fst (literals_reader, literals_out)) - 1)
    = Some (beta (fst (literals_reader, literals_out))) /\
    forall j, 0 <= j < 32 ->
      Z.testbit (alpha (fst (literals_reader, literals_out))) j
      = stream_bit literals_container (pos + j).
Proof.
  assert (well_formed literals_container 28) as h1 by solve_well_formed.
  assert (load literals_container 3 = Some 0x42190882) as h2 by reflexivity.
  assert (load literals_container 4 = Some 0xfffe28a4) as h3 by reflexivity.
  assert (steps 5 literals_container (init_state 0 8 0x42190882 0xfffe28a4)
          = Some (literals_reader, literals_out)) as h4
    by (vm_compute; reflexivity).
  split; [exact h1 |]. split; [exact h2 |]. split; [exact h3 |].
  split; [exact h4 |].
  exact (window_follows_stream 0 literals_container 28 8 0x42190882 0xfffe28a4
           5 (literals_reader, literals_out) h1 h2 h3 h4).
Defined.

(** X2.  The carry byte.  On every state the loop reaches from the start,
    either nothing has been emitted, no pass has been made and
    [writeCarryByte] is still what it was on entry, or [writeCarryByte] is
    the last byte emitted, whichever path emitted it. *)
Theorem carry_byte_is_last_emitted (garbage : Z) (data : list Z)
    (decompressedSize a b : Z) (k : nat) (s : state) :
  0 <= decompressedSize < 2 ^ 32 ->
  steps k data (init_state garbage decompressedSize a b) = Some s ->
  (k = O /\ emitted (snd s) = [] /\ writeCarryByte (snd s) = garbage) \/
  (k <> O /\ last (emitted (snd s)) = Some (writeCarryByte (snd s))).
Proof.
  intros Hdsz Hs.
  pose proof (init_state_out_ok garbage decompressedSize a b Hdsz) as Hok0.
  destruct k as [| k].
  - left. simpl in Hs. inversion Hs; subst s. auto.
  - right. split; [discriminate |].
    pose proof (steps_carry_ok (S k) data _ s Hok0
                  (init_state_carry_ok garbage decompressedSize a b) Hs)
      as [Hnil | Hlast]; [| exact Hlast].
    exfalso.
    destruct (steps_out_ok (S k) data _ s Hok0 Hs) as (Hok' & _).
    pose proof (steps_emit (S k) data _ s Hok0 Hs) as He.
    pose proof (emitted_length _ Hok') as Hlen.
    rewrite Hnil in Hlen. simpl in He, Hlen. lia.
Qed.

(** [carry_byte_is_last_emitted] at [copy_container] after its two
    literals. *)
Lemma carry_byte_is_last_emitted_witness :
  0 <= 8 < 2 ^ 32 /\
  steps 2 copy_container (init_state 0 8 0x142f3556 0x7ffff)
  = Some (copy_reader, copy_out) /\
  ((2%nat = O /\ emitted (snd (copy_reader, copy_out)) = []
    /\ writeCarryByte (snd (copy_reader, copy_out)) = 0) \/
   (2%nat <> O /\
    last (emitted (snd (copy_reader, copy_out)))
    = Some (writeCarryByte (snd (copy_reader, copy_out))))).
Proof.
  assert (0 <= 8 < 2 ^ 32) as h1 by lia.
  assert (steps 2 copy_container (init_state 0 8 0x142f3556 0x7ffff)
          = Some (copy_reader, copy_out)) as h2 by (vm_compute; reflexivity).
  split; [exact h1 |]. split; [exact h2 |].
  exact (carry_byte_is_last_emitted 0 copy_container 8 0x142f3556 0x7ffff 2
           (copy_reader, copy_out) h1 h2).
Defined.

(** ** The buffer beyond the emitted bytes *)

Lemma put_byte_tail_zero o o' :
  out_ok o -> tail_zero o -> put_byte o = Ok o' -> tail_zero o'.
Proof.
  intros Hok (Hbuf & Hcv) Hput. pose proof Hok as (Hi & Hw & Hc & Hb & Hlen).
  assert (0 <= index o mod 4 < 4) as Hlane by (apply Z.mod_pos_bound; lia).
  assert (index o = 4 * writeCursor o + index o mod 4) as Hidx
    by (rewrite Hw; apply Z.div_mod; lia).
  assert (0 <= writeCursor o) as Hwc by (rewrite Hw; apply Z.div_pos; lia).
  destruct (put_byte_spec o o' Hok Hput) as (_ & _ & Hi' & _).
  unfold put_byte in Hput. rewrite !land_3_mod in Hput.
  rewrite land_3_mod in Hcv.
  destruct (u32 (index o + 1) mod 4 =? 0) eqn:E.
  - destruct (store_word (buffer o) (writeCursor o)
                (<[Z.to_nat (index o mod 4) := writeCarryByte o]> (currentValue o)))
      as [buf' | f] eqn:Hst; simpl in Hput; [| discriminate].
    apply store_word_Ok in Hst. destruct Hst as (_ & Hroom & ->).
    inversion Hput; subst o'; clear Hput. simpl in Hi'.
    apply Z.eqb_eq in E. rewrite Hi' in E.
    split; simpl.
    + intros p x Hp Hx. rewrite Hi' in Hp.
      rewrite list_lookup_inserts_ge in Hx
        by (rewrite length_insert, Hc; Z.div_mod_to_equations; lia).
      apply (Hbuf p x); [lia | exact Hx].
    + intros j x _ Hx.
      destruct j as [| [| [| [| j]]]]; simpl in Hx;
        first [congruence | rewrite lookup_nil in Hx; discriminate].
  - inversion Hput; subst o'; clear Hput. simpl in Hi'.
    apply Z.eqb_neq in E. rewrite Hi' in E.
    split; simpl.
    + intros p x Hp Hx. rewrite Hi' in Hp. apply (Hbuf p x); [lia | exact Hx].
    + intros j x Hj Hx. rewrite land_3_mod, Hi' in Hj.
      assert ((index o + 1) mod 4 = index o mod 4 + 1) as Hm
        by (Z.div_mod_to_equations; lia).
      rewrite list_lookup_insert_ne in Hx by lia.
      apply (Hcv j x); [lia | exact Hx].
Qed.

Lemma early_commit_tail_zero o buf' :
  out_ok o -> tail_zero o ->
  store_word (buffer o) (writeCursor o) (currentValue o) = Ok buf' ->
  forall (p : nat) x, index o <= Z.of_nat p -> buf' !! p = Some x -> x = 0.
Proof.
  intros Hok (Hbuf & Hcv) Hst p x Hp Hx.
  pose proof Hok as (Hi & Hw & Hc & Hb & Hlen).
  assert (0 <= index o mod 4 < 4) as Hlane by (apply Z.mod_pos_bound; lia).
  assert (index o = 4 * writeCursor o + index o mod 4) as Hidx
    by (rewrite Hw; apply Z.div_mod; lia).
  rewrite land_3_mod in Hcv.
  apply store_word_Ok in Hst. destruct Hst as (Hwc & Hroom & ->).
  destruct (decide (Z.of_nat p < 4 * writeCursor o + 4)) as [Hin | Hout].
  - rewrite list_lookup_inserts in Hx by (rewrite ?Hc; lia).
    apply (Hcv (p - Z.to_nat (4 * writeCursor o))%nat x); [lia | exact Hx].
  - rewrite list_lookup_inserts_ge in Hx by (rewrite Hc; lia).
    apply (Hbuf p x); [lia | exact Hx].
Qed.

Lemma run_loop_tail_zero n : forall o o',
  out_ok o -> tail_zero o -> run_loop n o = Ok o' -> tail_zero o'.
Proof.
  induction n as [| n IH]; intros o o' Hok Hz Hrun; simpl in Hrun.
  - inversion Hrun; subst o'. exact Hz.
  - destruct (put_byte o) as [o1 | f] eqn:Hput; simpl in Hrun; [| discriminate].
    destruct (put_byte_spec o o1 Hok Hput) as (Hok1 & _).
    exact (IH o1 o' Hok1 (put_byte_tail_zero o o1 Hok Hz Hput) Hrun).
Qed.

Lemma copy_iter_tail_zero near p o o' :
  out_ok o -> tail_zero o -> copy_iter near p o = Ok o' -> tail_zero o'.
Proof.
  intros Hok Hz Hit. unfold copy_iter in Hit.
  destruct (near && negb (Z.land (index o) 3 =? 0)).
  - destruct (store_word (buffer o) (writeCursor o) (currentValue o))
      as [buf' | f] eqn:Hst; simpl in Hit; [| discriminate].
    destruct (early_commit o buf' Hok Hst) as (Hok1 & _).
    destruct (load_byte buf' p) as [b | f]; simpl in Hit; [| discriminate].
    apply (put_byte_tail_zero _ o' (out_ok_set_writeCarryByte b _ Hok1));
      [| exact Hit].
    split; simpl.
    + exact (early_commit_tail_zero o buf' Hok Hz Hst).
    + exact (proj2 Hz).
  - simpl in Hit.
    destruct (load_byte (buffer o) p) as [b | f]; simpl in Hit; [| discriminate].
    exact (put_byte_tail_zero _ o' (out_ok_set_writeCarryByte b _ Hok) Hz Hit).
Qed.

Lemma copy_loop_tail_zero near d start n : forall i o o',
  out_ok o -> tail_zero o -> 0 < d -> (near = false -> 4 <= d) ->
  start + i = index o - d ->
  copy_loop n near start i o = Ok o' -> tail_zero o'.
Proof.
  induction n as [| n IH]; intros i o o' Hok Hz Hd Hnear Hstart Hcopy;
    simpl in Hcopy.
  - inversion Hcopy; subst o'. exact Hz.
  - rewrite Hstart in Hcopy.
    destruct (copy_iter near (index o - d) o) as [o1 | f] eqn:Hit;
      simpl in Hcopy; [| discriminate].
    destruct (copy_iter_spec near d o o1 Hok Hd Hnear Hit)
      as (b & _ & _ & Hok1 & _ & Hi1 & _).
    apply (IH (i + 1) o1 o' Hok1); try assumption; try lia.
    exact (copy_iter_tail_zero near _ o o1 Hok Hz Hit).
Qed.

Lemma step_tail_zero data r o r' o' :
  out_ok o -> tail_zero o -> step data (r, o) = Continue (r', o') ->
  tail_zero o'.
Proof.
  intros Hok Hz Hstep. unfold step in Hstep.
  destruct (Z.land (alpha r) 1 =? 0).
  - apply continue_with_inv in Hstep. destruct Hstep as (Hput & _).
    exact (put_byte_tail_zero _ o' (out_ok_set_writeCarryByte _ o Hok) Hz Hput).
  - destruct (iVar7 (alpha r) >=? CPRS_TERM); [discriminate |].
    destruct (iVar7 (alpha r) =? 0) eqn:E0.
    + apply continue_with_inv in Hstep. destruct Hstep as (Hrun & _).
      exact (run_loop_tail_zero _ o o' Hok Hz Hrun).
    + apply continue_with_inv in Hstep. destruct Hstep as (Hcopy & _).
      apply Z.eqb_neq in E0.
      pose proof (sym_range (alpha r)) as Hsym. rewrite <- iVar7_sym in Hsym.
      rewrite (u32_small (iVar7 (alpha r) * 2)) in Hcopy by lia.
      assert ((iVar7 (alpha r) * 2 <? 4) = false -> 4 <= iVar7 (alpha r) * 2)
        as Hnear by (intros H; apply Z.ltb_ge in H; exact H).
      exact (copy_loop_tail_zero _ (iVar7 (alpha r) * 2)
               (index o - iVar7 (alpha r) * 2) _ 0 o o' Hok Hz
               ltac:(lia) Hnear ltac:(lia) Hcopy).
Qed.

Lemma steps_tail_zero k data : forall s s',
  out_ok (snd s) -> tail_zero (snd s) -> steps k data s = Some s' ->
  tail_zero (snd s').
Proof.
  induction k as [| k IH]; intros s s' Hok Hz H; simpl in H.
  - inversion H; subst s'. exact Hz.
  - destruct (step data s) as [s1 | o | f] eqn:Hstep; try discriminate.
    destruct s as [r o], s1 as [r1 o1]. simpl in Hok, Hz.
    destruct (step_continue data r o r1 o1 Hok Hstep) as (Hok1 & _).
    exact (IH (r1, o1) s' Hok1 (step_tail_zero data r o r1 o1 Hok Hz Hstep) H).
Qed.

Lemma init_state_tail_zero garbage decompressedSize a b :
  tail_zero (snd (init_state garbage decompressedSize a b)).
Proof.
  split; simpl.
  - intros p x _ Hx. apply lookup_replicate in Hx. tauto.
  - intros j x _ Hx. destruct j as [| [| [| [| j]]]]; simpl in Hx;
        first [congruence | rewrite lookup_nil in Hx; discriminate].
Qed.

(** A buffer comes out of the loop only through [break] and [finish]. *)
Lemma loop_RBuffer_inv fuel data : forall s buf n,
  loop fuel data s = RBuffer buf n ->
  exists k s' o,
    (k < fuel)%nat /\ steps k data s = Some s' /\ step data s' = Break o /\
    finish o = RBuffer buf n.
Proof.
  induction fuel as [| fuel IH]; intros s buf n H; simpl in H; [discriminate |].
  destruct (step data s) as [s1 | o | f] eqn:Hstep; try discriminate.
  - destruct (IH s1 buf n H) as (k & s' & o & Hk & Hs & Hb & Hf).
    exists (S k), s', o. split; [lia |]. simpl. rewrite Hstep. auto.
  - exists O, s, o. split; [lia |]. simpl. auto.
Qed.

Lemma finish_RBuffer_inv o buf n :
  out_ok o -> tail_zero o -> finish o = RBuffer buf n ->
  n = index o /\
  length buf = length (buffer o) /\
  index o <= Z.of_nat (length buf) /\
  take (Z.to_nat (index o)) buf = emitted o /\
  forall (p : nat) x, index o <= Z.of_nat p -> buf !! p = Some x -> x = 0.
Proof.
  intros Hok Hz Hfin. pose proof Hok as (Hi & Hw & Hc & Hb & Hlen).
  assert (0 <= index o mod 4 < 4) as Hlane by (apply Z.mod_pos_bound; lia).
  assert (index o = 4 * writeCursor o + index o mod 4) as Hidx
    by (rewrite Hw; apply Z.div_mod; lia).
  unfold finish in Hfin.
  destruct (Z.land (index o) 3 =? 0) eqn:E; simpl in Hfin.
  - apply Z.eqb_eq in E.
    destruct (finish_spec o Hok ltac:(intros; contradiction))
      as (buf0 & Hf0 & _ & Htake & Hsame & _).
    inversion Hfin; subst buf n. rewrite (Hsame E) in Htake.
    rewrite land_3_mod in E.
    split_and!; try done; try lia. exact (proj1 Hz).
  - destruct (store_word (buffer o) (writeCursor o) (currentValue o))
      as [buf' | f] eqn:Hst; [| discriminate].
    inversion Hfin; subst buf n.
    pose proof (early_commit_tail_zero o buf' Hok Hz Hst) as Hzero.
    pose proof Hst as Hst'. apply store_word_Ok in Hst'.
    destruct Hst' as (_ & Hroom & _).
    destruct (finish_spec o Hok ltac:(intros; exact Hroom))
      as (buf0 & Hf0 & Hl0 & Htake & _ & Hcommit).
    apply Z.eqb_neq in E. specialize (Hcommit E).
    assert (buf0 = buf') as -> by congruence.
    split_and!; try done; lia.
Qed.

Lemma loop_buffer_shape fuel data garbage decompressedSize a b buf n :
  0 <= decompressedSize < 2 ^ 32 ->
  loop fuel data (init_state garbage decompressedSize a b) = RBuffer buf n ->
  Z.of_nat (length buf) = decompressedSize /\
  0 <= n <= decompressedSize /\
  buf = take (Z.to_nat n) buf ++ replicate (Z.to_nat (decompressedSize - n)) 0.
Proof.
  intros Hdsz Hres.
  destruct (loop_RBuffer_inv fuel data _ buf n Hres)
    as (k & [r o0] & o & _ & Hs & Hb & Hfin).
  pose proof (step_break data r o0 o Hb) as ->.
  pose proof (init_state_out_ok garbage decompressedSize a b Hdsz) as Hok0.
  destruct (steps_out_ok k data _ _ Hok0 Hs) as (Hok & Hl).
  pose proof (steps_tail_zero k data _ _ Hok0
                (init_state_tail_zero garbage decompressedSize a b) Hs) as Hz.
  simpl in Hok, Hl, Hz. rewrite length_replicate in Hl.
  destruct (finish_RBuffer_inv o0 buf n Hok Hz Hfin)
    as (-> & Hlb & Hle & _ & Hzero).
  destruct Hok as (Hi & _).
  split_and!; try lia.
  apply list_eq. intros p.
  destruct (decide (p < Z.to_nat (index o0))%nat) as [Hlt | Hge].
  - rewrite lookup_app_l by (rewrite length_take; lia).
    rewrite lookup_take_lt by lia. reflexivity.
  - rewrite lookup_app_r by (rewrite length_take; lia).
    rewrite length_take, Nat.min_l by lia.
    destruct (decide (p < length buf)%nat) as [Hin | Hout].
    + destruct (lookup_lt_is_Some_2 buf p Hin) as [x Hx].
      rewrite Hx. rewrite (Hzero p x ltac:(lia) Hx).
      symmetry. apply lookup_replicate_2. lia.
    + rewrite (lookup_ge_None_2 buf p) by lia.
      symmetry. apply lookup_replicate_None. lia.
Qed.

(** X5.  What is returned.  Whenever [decompress] returns a buffer for a
    well-formed container, the buffer has [decompressedSize] bytes,
    [*sizeOut] is not more than that, and every byte of the buffer from
    [*sizeOut] on is zero: nothing but the emitted bytes was left in it. *)
Theorem returned_buffer_shape (fuel : nat) (garbage : Z) (data : list Z)
    (sizeBytes decompressedSize : Z) (buf : list Z) (n : Z) :
  well_formed data sizeBytes ->
  load data 2 = Some decompressedSize ->
  decompress fuel garbage data sizeBytes = RBuffer buf n ->
  Z.of_nat (length buf) = decompressedSize /\
  0 <= n <= decompressedSize /\
  buf = take (Z.to_nat n) buf ++ replicate (Z.to_nat (decompressedSize - n)) 0.
Proof.
  intros Hwf H2 Hres.
  pose proof (well_formed_valid data sizeBytes Hwf) as (Hsz & Hvalid).
  pose proof Hwf as (_ & _ & _ & _ & _ & Hall).
  pose proof (load_word_range data 2 _ Hall H2) as Hdsz.
  destruct (proj2 (decompress_checks fuel garbage data sizeBytes Hsz) Hvalid)
    as (d & a & b & H2' & _ & _ & Heq).
  rewrite Heq in Hres. clear Heq.
  assert (d = decompressedSize) as -> by congruence.
  exact (loop_buffer_shape fuel data garbage decompressedSize a b buf n Hdsz Hres).
Qed.

(** [returned_buffer_shape] at [run_container]: three bytes emitted into a
    buffer of four. *)
Lemma returned_buffer_shape_witness :
  well_formed run_container 24 /\
  load run_container 2 = Some 4 /\
  decompress 3 0 run_container 24 = RBuffer [0x41; 0x41; 0x41; 0] 3 /\
  (Z.of_nat (length [0x41; 0x41; 0x41; 0]) = 4 /\
   0 <= 3 <= 4 /\
   [0x41; 0x41; 0x41; 0]
   = take (Z.to_nat 3) [0x41; 0x41; 0x41; 0] ++ replicate (Z.to_nat (4 - 3)) 0).
Proof.
  assert (well_formed run_container 24) as h1 by solve_well_formed.
  assert (load run_container 2 = Some 4) as h2 by reflexivity.
  assert (decompress 3 0 run_container 24 = RBuffer [0x41; 0x41; 0x41; 0] 3)
    as h3 by (vm_compute; reflexivity).
  split; [exact h1 |]. split; [exact h2 |]. split; [exact h3 |].
  exact (returned_buffer_shape 3 0 run_container 24 4 [0x41; 0x41; 0x41; 0] 3
           h1 h2 h3).
Defined.

(** ** The size hint *)

Lemma load_insert_other (data : list Z) (h i : Z) :
  i <> 1 -> load (<[1%nat := h]> data) i = load data i.
Proof.
  intros Hi. unfold load. destruct (i <? 0) eqn:E; [reflexivity |].
  apply Z.ltb_ge in E. apply list_lookup_insert_ne. lia.
Qed.

Lemma refill_insert_hint data h rcb rs r :
  5 <= readCursor r ->
  refill (<[1%nat := h]> data) rcb rs r = refill data rcb rs r.
Proof.
  intros Hrc. unfold refill. rewrite load_insert_other by lia. reflexivity.
Qed.

Lemma refill_cursor data rcb rs r r' :
  refill data rcb rs r = Ok r' -> readCursor r <= readCursor r'.
Proof.
  unfold refill. destruct (rs <? 0).
  - destruct (load data (readCursor r)); [| discriminate].
    intros H. inversion H. simpl. lia.
  - intros H. inversion H. simpl. lia.
Qed.

Lemma step_insert_hint data h r o :
  5 <= readCursor r ->
  step (<[1%nat := h]> data) (r, o) = step data (r, o).
Proof.
  intros Hrc. unfold step, continue_with.
  rewrite !refill_insert_hint by exact Hrc. reflexivity.
Qed.

Lemma step_cursor data r o r' o' :
  step data (r, o) = Continue (r', o') -> readCursor r <= readCursor r'.
Proof.
  intros Hstep. unfold step in Hstep.
  destruct (Z.land (alpha r) 1 =? 0).
  - apply continue_with_inv in Hstep. destruct Hstep as (_ & Href).
    exact (refill_cursor _ _ _ _ _ Href).
  - destruct (iVar7 (alpha r) >=? CPRS_TERM); [discriminate |].
    destruct (iVar7 (alpha r) =? 0);
      apply continue_with_inv in Hstep; destruct Hstep as (_ & Href);
      exact (refill_cursor _ _ _ _ _ Href).
Qed.

Lemma loop_insert_hint fuel data h : forall s,
  5 <= readCursor (fst s) ->
  loop fuel (<[1%nat := h]> data) s = loop fuel data s.
Proof.
  induction fuel as [| fuel IH]; intros [r o] Hrc; [reflexivity |].
  rewrite !loop_S. simpl in Hrc. rewrite step_insert_hint by exact Hrc.
  destruct (step data (r, o)) as [[r1 o1] | o1 | f] eqn:Hstep; try reflexivity.
  apply IH. simpl. pose proof (step_cursor data r o r1 o1 Hstep). lia.
Qed.

(** X6.  Word 1 of the container, the compressed-size hint, is read into a
    local and never used: replacing it by any value leaves the result of
    [decompress] as it was, for every container, valid or not. *)
Theorem size_hint_ignored (fuel : nat) (garbage : Z) (data : list Z)
    (sizeBytes h : Z) :
  decompress fuel garbage (<[1%nat := h]> data) sizeBytes
  = decompress fuel garbage data sizeBytes.
Proof.
  unfold decompress.
  destruct (negb (sizeBytes mod 4 =? 0)); [reflexivity |].
  destruct (sizeBytes / 4 <=? 5) eqn:E5; [reflexivity |].
  apply Z.leb_gt in E5.
  rewrite !load_insert_other by lia.
  destruct (load data 0) as [w0 |]; [| reflexivity].
  destruct (negb (w0 =? CPRS_SIG)); [reflexivity |].
  destruct (load data (sizeBytes / 4 - 1)) as [wl |]; [| reflexivity].
  destruct (negb (wl =? CPRS_SIG)); [reflexivity |].
  destruct (load data 2) as [d |]; [| reflexivity].
  destruct (load data 3) as [a |]; [| reflexivity].
  destruct (load data 4) as [b |]; [| reflexivity].
  apply loop_insert_hint. simpl. lia.
Qed.

(** ** Accesses out of bounds *)

(** X7.  A back-reference that reaches before the start of the output is
    not refused: when the symbol value [s] is neither 0 nor terminal and
    [2 * s] exceeds the number of bytes emitted, the step ends in an access
    out of bounds; when the pending word lies inside the buffer, that
    access is the read of [start[0]], at a negative offset from the
    buffer. *)
Theorem backref_before_start (data : list Z) (r : reader) (o : out) :
  out_ok o ->
  Z.testbit (alpha r) 0 = true ->
  0 <= remainingShifts r <= 32 ->
  0 < iVar7 (alpha r) < CPRS_TERM ->
  index o < iVar7 (alpha r) * 2 ->
  (exists f, step data (r, o) = Crash f) /\
  ((Z.land (index o) 3 <> 0 ->
    4 * writeCursor o + 4 <= Z.of_nat (length (buffer o))) ->
   step data (r, o) = Crash OobBufferRead).
Proof.
  intros Hok Hodd Hrs Hs Hsrc.
  pose proof Hok as (Hi & Hw & Hc & Hb & Hlen).
  assert (0 <= writeCursor o) as Hwc by (rewrite Hw; apply Z.div_pos; lia).
  pose proof (count_range (alpha r)) as Hn. rewrite <- iVar6_count in Hn.
  rewrite step_coded by assumption.
  destruct (iVar7 (alpha r) >=? CPRS_TERM) eqn:E1;
    [apply Z.geb_le in E1; lia |].
  destruct (iVar7 (alpha r) =? 0) eqn:E2; [apply Z.eqb_eq in E2; lia |].
  destruct (Z.to_nat (iVar6 (alpha r))) as [| n] eqn:En; [lia |].
  rewrite copy_loop_S, Z.add_0_r. unfold copy_iter.
  assert (load_byte (buffer o) (index o - iVar7 (alpha r) * 2)
          = Err OobBufferRead) as Hld.
  { unfold load_byte. rewrite (proj2 (Z.ltb_lt _ _)) by lia. reflexivity. }
  destruct ((iVar7 (alpha r) * 2 <? 4) && negb (Z.land (index o) 3 =? 0))
    eqn:Hc0.
  - destruct (store_word (buffer o) (writeCursor o) (currentValue o))
      as [buf' | f] eqn:Hst; cbn [bind set_buffer buffer].
    + assert (load_byte buf' (index o - iVar7 (alpha r) * 2)
              = Err OobBufferRead) as Hld'.
      { unfold load_byte. rewrite (proj2 (Z.ltb_lt _ _)) by lia. reflexivity. }
      rewrite Hld'. cbn [bind continue_with]. split; [eauto | reflexivity].
    + cbn [continue_with]. split; [eauto |]. intros Hroom. exfalso.
      apply andb_true_iff in Hc0. destruct Hc0 as (_ & Hl).
      apply negb_true_iff, Z.eqb_neq in Hl.
      rewrite store_word_room in Hst by auto. discriminate.
  - cbn [bind]. rewrite Hld. cbn [bind continue_with].
    split; [eauto | reflexivity].
Qed.

(** [backref_before_start] at [short_copy_container] after its single
    literal. *)
Lemma backref_before_start_witness :
  out_ok (MkOut [0; 0; 0; 0; 0; 0; 0; 0] [0xab; 0; 0; 0] 0 1 0xab) /\
  Z.testbit (alpha (MkReader 0xffffc50b 0x3ff 23 5)) 0 = true /\
  0 <= remainingShifts (MkReader 0xffffc50b 0x3ff 23 5) <= 32 /\
  0 < iVar7 (alpha (MkReader 0xffffc50b 0x3ff 23 5)) < CPRS_TERM /\
  index (MkOut [0; 0; 0; 0; 0; 0; 0; 0] [0xab; 0; 0; 0] 0 1 0xab)
  < iVar7 (alpha (MkReader 0xffffc50b 0x3ff 23 5)) * 2 /\
  (exists f,
     step short_copy_container
       (MkReader 0xffffc50b 0x3ff 23 5,
        MkOut [0; 0; 0; 0; 0; 0; 0; 0] [0xab; 0; 0; 0] 0 1 0xab) = Crash f) /\
  ((Z.land (index (MkOut [0; 0; 0; 0; 0; 0; 0; 0] [0xab; 0; 0; 0] 0 1 0xab)) 3
    <> 0 ->
    4 * writeCursor (MkOut [0; 0; 0; 0; 0; 0; 0; 0] [0xab; 0; 0; 0] 0 1 0xab) + 4
    <= Z.of_nat (length (buffer (MkOut [0; 0; 0; 0; 0; 0; 0; 0]
                                   [0xab; 0; 0; 0] 0 1 0xab)))) ->
   step short_copy_container
     (MkReader 0xffffc50b 0x3ff 23 5,
      MkOut [0; 0; 0; 0; 0; 0; 0; 0] [0xab; 0; 0; 0] 0 1 0xab)
   = Crash OobBufferRead).
Proof.
  assert (out_ok (MkOut [0; 0; 0; 0; 0; 0; 0; 0] [0xab; 0; 0; 0] 0 1 0xab))
    as h1 by solve_out_ok.
  assert (Z.testbit (alpha (MkReader 0xffffc50b 0x3ff 23 5)) 0 = true)
    as h2 by reflexivity.
  assert (0 <= remainingShifts (MkReader 0xffffc50b 0x3ff 23 5) <= 32)
    as h3 by (simpl; lia).
  assert (0 < iVar7 (alpha (MkReader 0xffffc50b 0x3ff 23 5)) < CPRS_TERM)
    as h4 by (vm_compute; split; reflexivity).
  assert (index (MkOut [0; 0; 0; 0; 0; 0; 0; 0] [0xab; 0; 0; 0] 0 1 0xab)
          < iVar7 (alpha (MkReader 0xffffc50b 0x3ff 23 5)) * 2)
    as h5 by (vm_compute; reflexivity).
  split; [exact h1 |]. split; [exact h2 |]. split; [exact h3 |].
  split; [exact h4 |]. split; [exact h5 |].
  exact (backref_before_start short_copy_container
           (MkReader 0xffffc50b 0x3ff 23 5)
           (MkOut [0; 0; 0; 0; 0; 0; 0; 0] [0xab; 0; 0; 0] 0 1 0xab)
           h1 h2 h3 h4 h5).
Defined.

(** X8.  The last word is committed whole.  When a well-formed container
    reaches the terminal symbol with a partly filled accumulator and the
    buffer ends before the end of that word, which is so whenever the
    emitted bytes fill a [decompressedSize] that is not a multiple of 4,
    [*writeCursor = currentValue] writes past the end of the buffer. *)
Theorem partial_word_overflow (garbage : Z) (data : list Z) (sizeBytes : Z)
    (decompressedSize a b : Z) (k : nat) (s : state) (o : out) :
  well_formed data sizeBytes ->
  load data 2 = Some decompressedSize ->
  load data 3 = Some a ->
  load data 4 = Some b ->
  steps k data (init_state garbage decompressedSize a b) = Some s ->
  step data s = Break o ->
  Z.land (index o) 3 <> 0 ->
  decompressedSize < 4 * (index o / 4) + 4 ->
  forall fuel, (k < fuel)%nat ->
    decompress fuel garbage data sizeBytes = RFault OobBufferWrite.
Proof.
  intros Hwf H2 H3 H4 Hsteps Hbreak Hlane Hshort fuel Hfuel.
  pose proof (well_formed_valid data sizeBytes Hwf) as (Hsz & Hvalid).
  pose proof Hwf as (_ & _ & _ & _ & _ & Hall).
  pose proof (load_word_range data 2 _ Hall H2) as Hdsz.
  destruct s as [r o0].
  pose proof (step_break data r o0 o Hbreak) as ->.
  destruct (steps_out_ok k data _ _
              (init_state_out_ok garbage decompressedSize a b Hdsz) Hsteps)
    as (Hok & Hl).
  simpl in Hok, Hl. rewrite length_replicate in Hl.
  destruct (proj2 (decompress_checks fuel garbage data sizeBytes Hsz) Hvalid)
    as (d' & a' & b' & H2' & H3' & H4' & ->).
  replace d' with decompressedSize by congruence.
  replace a' with a by congruence. replace b' with b by congruence.
  replace fuel with (k + S (fuel - k - 1))%nat by lia.
  rewrite (loop_steps k data _ _ _ Hsteps), loop_S, Hbreak.
  unfold finish. rewrite (proj2 (Z.eqb_neq _ _) Hlane). simpl.
  unfold store_word. destruct Hok as (_ & Hw & _).
  destruct (0 <=? writeCursor o0); simpl; [| reflexivity].
  rewrite (proj2 (Z.leb_gt _ _)) by lia. reflexivity.
Qed.

(** [partial_word_overflow] at the five literals of [literals_container]
    with a declared size of 5. *)
Lemma partial_word_overflow_witness :
  well_formed [CPRS_SIG; 0; 5; 0x42190882; 0xfffe28a4; 0xf; CPRS_SIG] 28 /\
  load [CPRS_SIG; 0; 5; 0x42190882; 0xfffe28a4; 0xf; CPRS_SIG] 2 = Some 5 /\
  load [CPRS_SIG; 0; 5; 0x42190882; 0xfffe28a4; 0xf; CPRS_SIG] 3
  = Some 0x42190882 /\
  load [CPRS_SIG; 0; 5; 0x42190882; 0xfffe28a4; 0xf; CPRS_SIG] 4
  = Some 0xfffe28a4 /\
  steps 5 [CPRS_SIG; 0; 5; 0x42190882; 0xfffe28a4; 0xf; CPRS_SIG]
    (init_state 0 5 0x42190882 0xfffe28a4)
  = Some (literals_reader, MkOut [0x41; 0x42; 0x43; 0x44; 0] [0x45; 0; 0; 0] 1 5 0x45) /\
  step [CPRS_SIG; 0; 5; 0x42190882; 0xfffe28a4; 0xf; CPRS_SIG]
    (literals_reader, MkOut [0x41; 0x42; 0x43; 0x44; 0] [0x45; 0; 0; 0] 1 5 0x45)
  = Break (MkOut [0x41; 0x42; 0x43; 0x44; 0] [0x45; 0; 0; 0] 1 5 0x45) /\
  Z.land (index (MkOut [0x41; 0x42; 0x43; 0x44; 0] [0x45; 0; 0; 0] 1 5 0x45)) 3
  <> 0 /\
  5 < 4 * (index (MkOut [0x41; 0x42; 0x43; 0x44; 0] [0x45; 0; 0; 0] 1 5 0x45) / 4)
      + 4 /\
  forall fuel, (5 < fuel)%nat ->
    decompress fuel 0 [CPRS_SIG; 0; 5; 0x42190882; 0xfffe28a4; 0xf; CPRS_SIG] 28
    = RFault OobBufferWrite.
Proof.
  assert (well_formed [CPRS_SIG; 0; 5; 0x42190882; 0xfffe28a4; 0xf; CPRS_SIG] 28)
    as h1 by solve_well_formed.
  assert (load [CPRS_SIG; 0; 5; 0x42190882; 0xfffe28a4; 0xf; CPRS_SIG] 2
          = Some 5) as h2 by reflexivity.
  assert (load [CPRS_SIG; 0; 5; 0x42190882; 0xfffe28a4; 0xf; CPRS_SIG] 3
          = Some 0x42190882) as h3 by reflexivity.
  assert (load [CPRS_SIG; 0; 5; 0x42190882; 0xfffe28a4; 0xf; CPRS_SIG] 4
          = Some 0xfffe28a4) as h4 by reflexivity.
  assert (steps 5 [CPRS_SIG; 0; 5; 0x42190882; 0xfffe28a4; 0xf; CPRS_SIG]
            (init_state 0 5 0x42190882 0xfffe28a4)
          = Some (literals_reader,
                  MkOut [0x41; 0x42; 0x43; 0x44; 0] [0x45; 0; 0; 0] 1 5 0x45))
    as h5 by (vm_compute; reflexivity).
  assert (step [CPRS_SIG; 0; 5; 0x42190882; 0xfffe28a4; 0xf; CPRS_SIG]
            (literals_reader,
             MkOut [0x41; 0x42; 0x43; 0x44; 0] [0x45; 0; 0; 0] 1 5 0x45)
          = Break (MkOut [0x41; 0x42; 0x43; 0x44; 0] [0x45; 0; 0; 0] 1 5 0x45))
    as h6 by (vm_compute; reflexivity).
  assert (Z.land (index (MkOut [0x41; 0x42; 0x43; 0x44; 0] [0x45; 0; 0; 0]
                           1 5 0x45)) 3 <> 0) as h7
    by (vm_compute; discriminate).
  assert (5 < 4 * (index (MkOut [0x41; 0x42; 0x43; 0x44; 0] [0x45; 0; 0; 0]
                            1 5 0x45) / 4) + 4) as h8
    by (vm_compute; reflexivity).
  split; [exact h1 |]. split; [exact h2 |]. split; [exact h3 |].
  split; [exact h4 |]. split; [exact h5 |]. split; [exact h6 |].
  split; [exact h7 |]. split; [exact h8 |].
  exact (partial_word_overflow 0
           [CPRS_SIG; 0; 5; 0x42190882; 0xfffe28a4; 0xf; CPRS_SIG] 28 5
           0x42190882 0xfffe28a4 5
           (literals_reader,
            MkOut [0x41; 0x42; 0x43; 0x44; 0] [0x45; 0; 0; 0] 1 5 0x45)
           (MkOut [0x41; 0x42; 0x43; 0x44; 0] [0x45; 0; 0; 0] 1 5 0x45)
           h1 h2 h3 h4 h5 h6 h7 h8).
Defined.

(** ** Streams of literals *)

Lemma testbit_byte_high b n : 0 <= b < 256 -> 8 <= n -> Z.testbit b n = false.
Proof.
  intros Hb Hn. destruct (decide (b = 0)) as [-> | Hnz].
  - apply Z.bits_0.
  - apply Z.bits_above_log2; [lia |].
    assert (Z.log2 b < 8) by (apply Z.log2_lt_pow2; lia). lia.
Qed.

(** A literal in the stream is a literal in the window. *)
Lemma window_literal data pos r b :
  reader_at data pos r -> stream_field data pos 9 (2 * b) -> 0 <= b < 256 ->
  Z.testbit (alpha r) 0 = false /\ Z.land (Z.shiftr (alpha r) 1) 0xff = b.
Proof.
  intros (_ & _ & _ & _ & _ & Hbits) Hf Hb. split.
  - rewrite Hbits by lia. rewrite Hf by lia. apply Z.testbit_even_0.
  - apply Z.bits_inj'. intros n Hn.
    rewrite Z.land_spec, Z.shiftr_spec by lia.
    change 0xff with (Z.ones 8).
    destruct (decide (n < 8)) as [Hlow | Hhigh].
    + rewrite Z.ones_spec_low by lia. rewrite andb_true_r.
      rewrite Hbits by lia. rewrite Hf by lia.
      replace (n + 1) with (Z.succ n) by lia.
      apply Z.testbit_even_succ. lia.
    + rewrite Z.ones_spec_high by lia. rewrite andb_false_r.
      symmetry. apply testbit_byte_high; lia.
Qed.

(** The 23-bit code [0x7ffff1] in the stream is a terminal symbol in the
    window. *)
Lemma window_terminal data pos r :
  reader_at data pos r -> stream_field data pos 23 0x7ffff1 ->
  Z.testbit (alpha r) 0 = true /\ CPRS_TERM <= iVar7 (alpha r).
Proof.
  intros (_ & _ & _ & _ & Ha & Hbits) Hf.
  assert (alpha r mod 2 ^ 23 = 0x7ffff1) as Hlow.
  { apply Z.bits_inj'. intros n Hn.
    destruct (decide (n < 23)) as [Hin | Hout].
    - rewrite Z.mod_pow2_bits_low by lia.
      rewrite Hbits by lia. apply Hf. lia.
    - rewrite Z.mod_pow2_bits_high by lia. symmetry.
      apply Z.bits_above_log2; [lia |].
      change (Z.log2 0x7ffff1) with 22. lia. }
  split.
  - rewrite Hbits by lia. rewrite Hf by lia. reflexivity.
  - rewrite iVar7_sym. set (w := alpha r) in *.
    assert (primaryRow w = 0) as Hp.
    { unfold primaryRow. rewrite land_3_mod, Z.shiftr_div_pow2 by lia.
      Z.div_mod_to_equations. lia. }
    assert (codeLenA w = 1) as HA
      by (unfold codeLenA; rewrite Hp; reflexivity).
    assert (rest w = w / 16) as Hr.
    { unfold rest. rewrite HA, Z.shiftr_shiftr by lia.
      apply Z.shiftr_div_pow2. lia. }
    assert (secondaryRow w = 19) as Hs.
    { unfold secondaryRow. rewrite Hr. change 0xf with (Z.ones 4).
      rewrite Z.land_ones by lia. Z.div_mod_to_equations. lia. }
    assert (codeLenB w = 15) as HB
      by (unfold codeLenB; rewrite Hs; reflexivity).
    unfold sym, high. rewrite Hs, HB, Hr.
    change (col 19 2) with 0x8004.
    rewrite land_mask_mod, Z.shiftr_div_pow2 by lia.
    unfold CPRS_TERM. Z.div_mod_to_equations. lia.
Qed.

(** The refill finds its word as long as the read cursor is inside the
    container. *)
Lemma refill_in_container data rcb rs r :
  -32 <= rs <= 32 ->
  (rs < 0 -> readCursor r < Z.of_nat (length data)) ->
  0 <= readCursor r ->
  exists r', refill data rcb rs r = Ok r'.
Proof.
  intros Hrs Hrc Hpos. unfold refill. destruct (rs <? 0) eqn:E; [| eauto].
  apply Z.ltb_lt in E.
  destruct (load_in_range data (readCursor r) ltac:(lia)) as [w Hw].
  rewrite Hw. eauto.
Qed.

Lemma literals_steps data : forall bs pos r o,
  Forall (fun w => 0 <= w < 2 ^ 32) data ->
  reader_at data pos r -> out_ok o ->
  literals_at data pos bs ->
  Forall (fun b => 0 <= b < 256) bs ->
  4 * ((index o + Z.of_nat (length bs)) / 4) <= Z.of_nat (length (buffer o)) ->
  pos + 9 * Z.of_nat (length bs) <= 32 * (Z.of_nat (length data) - 4) ->
  exists r' o',
    steps (length bs) data (r, o) = Some (r', o') /\
    reader_at data (pos + 9 * Z.of_nat (length bs)) r' /\
    out_ok o' /\
    emitted o' = emitted o ++ bs /\
    length (buffer o') = length (buffer o).
Proof.
  induction bs as [| b bs IH]; intros pos r o Hall Hat Hok Hlit Hbytes Hroom Hend.
  - exists r, o. simpl. rewrite app_nil_r, Z.add_0_r. auto.
  - destruct Hlit as (Hb & Hrest). inversion Hbytes as [| ? ? Hbr Hbs]; subst.
    destruct (window_literal data pos r b Hat Hb Hbr) as (Heven & Hbyte).
    pose proof Hat as (Hrs & Hrc & Hpos & _).
    cbn [length] in Hroom, Hend.
    (* the byte goes out *)
    destruct (put_byte_room (set_writeCarryByte b o)
                (out_ok_set_writeCarryByte b o Hok)) as [o1 Hput].
    { rewrite land_3_mod. simpl. intros H3. destruct Hok as (Hi & _).
      Z.div_mod_to_equations. lia. }
    destruct (put_byte_spec _ o1 (out_ok_set_writeCarryByte b o Hok) Hput)
      as (Hok1 & He1 & Hi1 & _ & Hl1).
    change (emitted (set_writeCarryByte b o)) with (emitted o) in He1.
    simpl in Hi1, Hl1, He1.
    (* the window moves on *)
    destruct (refill_in_container data (Z.shiftr (alpha r) 9)
                (remainingShifts r - 9) r ltac:(lia) ltac:(lia) ltac:(lia))
      as [r1 Href].
    pose proof (refill_advances_stream data pos 9 r r1 Hall Hat ltac:(lia) Href)
      as Hat1.
    assert (step data (r, o) = Continue (r1, o1)) as Hstep.
    { unfold step. rewrite even_window by exact Heven.
      rewrite Hbyte, Hput. unfold continue_with.
      rewrite i8_small by lia. rewrite Href. reflexivity. }
    destruct (IH (pos + 9) r1 o1 Hall Hat1 Hok1 Hrest Hbs) as
      (r' & o' & Hs' & Hat' & Hok' & He' & Hl').
    { rewrite Hi1, Hl1.
      replace (index o + 1 + Z.of_nat (length bs))
        with (index o + Z.of_nat (S (length bs))) by lia.
      exact Hroom. }
    { lia. }
    exists r', o'. split_and!; try done.
    + cbn [steps length]. rewrite Hstep. exact Hs'.
    + replace (pos + 9 * Z.of_nat (length (b :: bs)))
        with (pos + 9 + 9 * Z.of_nat (length bs)) by (cbn [length]; lia).
      exact Hat'.
    + rewrite He', He1, <- app_assoc. reflexivity.
    + congruence.
Qed.

(** X9.  Literals come out as they went in.  Let a well-formed container
    hold in its bit stream the literals [bs], nine bits each, followed by
    the terminal code [0x7ffff1], all before the trailer word, and let the
    declared size cover [bs] up to the end of its last word.  Then
    [decompress] returns, with any fuel above the number of literals, the
    bytes [bs] followed by zeros, and [*sizeOut] is the number of bytes in
    [bs], wherever in the words of the payload the symbols fall. *)
Theorem literal_stream_decodes (garbage : Z) (data : list Z)
    (sizeBytes decompressedSize : Z) (bs : list Z) :
  well_formed data sizeBytes ->
  load data 2 = Some decompressedSize ->
  Forall (fun b => 0 <= b < 256) bs ->
  literals_at data 0 bs ->
  stream_field data (9 * Z.of_nat (length bs)) 23 0x7ffff1 ->
  9 * Z.of_nat (length bs) + 23 <= 32 * (sizeBytes / 4 - 4) ->
  4 * ((Z.of_nat (length bs) + 3) / 4) <= decompressedSize ->
  forall fuel, (length bs < fuel)%nat ->
    decompress fuel garbage data sizeBytes
    = RBuffer
        (bs ++ replicate (Z.to_nat (decompressedSize - Z.of_nat (length bs))) 0)
        (Z.of_nat (length bs)).
Proof.
  intros Hwf H2 Hbytes Hlit Hterm Hend Hroom fuel Hfuel.
  pose proof (well_formed_valid data sizeBytes Hwf) as (Hsz & Hvalid).
  pose proof Hwf as (_ & _ & Hlen & _ & _ & Hall).
  pose proof (load_word_range data 2 _ Hall H2) as Hdsz.
  destruct (proj2 (decompress_checks fuel garbage data sizeBytes Hsz) Hvalid)
    as (d & a & b & H2' & H3 & H4 & Heq).
  assert (d = decompressedSize) as -> by congruence.
  pose proof (init_reader_at data a b H3 H4 Hall) as Hat0.
  pose proof (init_state_out_ok garbage decompressedSize a b Hdsz) as Hok0.
  pose proof (init_state_tail_zero garbage decompressedSize a b) as Hz0.
  destruct (literals_steps data bs 0 _ _ Hall Hat0 Hok0 Hlit Hbytes)
    as (r' & o' & Hs & Hat & Hok & He & Hl).
  { simpl. rewrite length_replicate. Z.div_mod_to_equations. lia. }
  { lia. }
  pose proof (steps_tail_zero _ data _ _ Hok0 Hz0 Hs) as Hz.
  simpl in Hok, Hz, He, Hl. rewrite length_replicate in Hl.
  rewrite Z.add_0_l in Hat.
  destruct (window_terminal data _ r' Hat Hterm) as (Hodd & Hsym).
  assert (step data (r', o') = Break o') as Hbreak.
  { unfold step. rewrite odd_window by exact Hodd.
    rewrite (proj2 (Z.geb_le _ _) Hsym). reflexivity. }
  pose proof (emitted_length o' Hok) as Hidx.
  change (emitted (snd (init_state garbage decompressedSize a b))) with (@nil Z)
    in He.
  simpl in He. rewrite He in Hidx.
  destruct (finish_spec o' Hok) as (buf & Hfin & Hlb & Htake & _).
  { intros Hne. destruct Hok as (Hi & Hw & _). rewrite Hw.
    rewrite land_3_mod in Hne. Z.div_mod_to_equations. lia. }
  destruct (finish_RBuffer_inv o' buf _ Hok Hz Hfin)
    as (_ & _ & _ & _ & Hzero).
  rewrite Heq.
  replace fuel with (length bs + S (fuel - length bs - 1))%nat by lia.
  rewrite (loop_steps _ data _ _ _ Hs), loop_S, Hbreak, Hfin.
  rewrite <- Hidx. f_equal.
  apply list_eq. intros p.
  destruct (decide (p < length bs)%nat) as [Hlt | Hge].
  - rewrite lookup_app_l by lia. rewrite <- He, <- Htake.
    rewrite lookup_take_lt by lia. reflexivity.
  - rewrite lookup_app_r by lia.
    destruct (decide (p < length buf)%nat) as [Hin | Hout].
    + destruct (lookup_lt_is_Some_2 buf p Hin) as [x Hx].
      rewrite Hx, (Hzero p x ltac:(lia) Hx).
      symmetry. apply lookup_replicate_2. lia.
    + rewrite (lookup_ge_None_2 buf p) by lia.
      symmetry. apply lookup_replicate_None. lia.
Qed.

Ltac solve_stream_field width :=
  let j := fresh "j" in
  let Hj := fresh "Hj" in
  let k := fresh "k" in
  let Hk := fresh "Hk" in
  intros j Hj;
  assert (Z.to_nat j < width)%nat as Hk by lia;
  rewrite <- (Z2Nat.id j) by lia;
  revert Hk; generalize (Z.to_nat j); intros k Hk;
  repeat (destruct k as [| k]; [vm_compute; reflexivity | try lia]).

(** [literal_stream_decodes] at [literals_container]: the five literals
    [0x41 .. 0x45] take 45 bits and cross from word 3 into word 4, the
    terminal code crosses from word 4 into word 5. *)
Lemma literal_stream_decodes_witness :
  well_formed literals_container 28 /\
  load literals_container 2 = Some 8 /\
  Forall (fun b => 0 <= b < 256) [0x41; 0x42; 0x43; 0x44; 0x45] /\
  literals_at literals_container 0 [0x41; 0x42; 0x43; 0x44; 0x45] /\
  stream_field literals_container
    (9 * Z.of_nat (length [0x41; 0x42; 0x43; 0x44; 0x45])) 23 0x7ffff1 /\
  9 * Z.of_nat (length [0x41; 0x42; 0x43; 0x44; 0x45]) + 23
  <= 32 * (28 / 4 - 4) /\
  4 * ((Z.of_nat (length [0x41; 0x42; 0x43; 0x44; 0x45]) + 3) / 4) <= 8 /\
  forall fuel, (length [0x41; 0x42; 0x43; 0x44; 0x45] < fuel)%nat ->
    decompress fuel 0 literals_container 28
    = RBuffer
        ([0x41; 0x42; 0x43; 0x44; 0x45]
         ++ replicate
              (Z.to_nat (8 - Z.of_nat (length [0x41; 0x42; 0x43; 0x44; 0x45]))) 0)
        (Z.of_nat (length [0x41; 0x42; 0x43; 0x44; 0x45])).
Proof.
  assert (well_formed literals_container 28) as h1 by solve_well_formed.
  assert (load literals_container 2 = Some 8) as h2 by reflexivity.
  assert (Forall (fun b => 0 <= b < 256) [0x41; 0x42; 0x43; 0x44; 0x45]) as h3
    by (repeat (apply List.Forall_cons; [vm_compute; split; congruence |]);
        apply List.Forall_nil).
  assert (literals_at literals_container 0 [0x41; 0x42; 0x43; 0x44; 0x45])
    as h4
    by (cbn [literals_at]; split_and!; try exact I; solve_stream_field 9%nat).
  assert (stream_field literals_container
            (9 * Z.of_nat (length [0x41; 0x42; 0x43; 0x44; 0x45])) 23 0x7ffff1)
    as h5 by solve_stream_field 23%nat.
  assert (9 * Z.of_nat (length [0x41; 0x42; 0x43; 0x44; 0x45]) + 23
          <= 32 * (28 / 4 - 4)) as h6 by (vm_compute; discriminate).
  assert (4 * ((Z.of_nat (length [0x41; 0x42; 0x43; 0x44; 0x45]) + 3) / 4) <= 8)
    as h7 by (vm_compute; discriminate).
  split; [exact h1 |]. split; [exact h2 |]. split; [exact h3 |].
  split; [exact h4 |]. split; [exact h5 |]. split; [exact h6 |].
  split; [exact h7 |].
  exact (literal_stream_decodes 0 literals_container 28 8
           [0x41; 0x42; 0x43; 0x44; 0x45] h1 h2 h3 h4 h5 h6 h7).
Defined.

(** * The rest of the program *)

(** The loop of [read_file], from any point it reaches: the capacity is a
    multiple of the increment, holds what was read, and is not more than
    one increment above it. *)
Lemma read_loop_spec avail : forall fuel call rest buffer bufferSize total bytesRead,
  Z.of_nat (length buffer) = total + bytesRead ->
  0 <= total + bytesRead <= bufferSize ->
  bufferSize - FILE_READ_INCREMENT <= total + bytesRead ->
  bufferSize mod FILE_READ_INCREMENT = 0 ->
  (length rest < fuel)%nat ->
  read_loop fuel avail call rest buffer bufferSize total bytesRead
  = ReadBuffer (buffer ++ rest)
      (FILE_READ_INCREMENT
       * (Z.of_nat (length (buffer ++ rest)) / FILE_READ_INCREMENT + 1))
      (Z.of_nat (length (buffer ++ rest))).
Proof.
  unfold FILE_READ_INCREMENT.
  induction fuel as [| fuel IH];
    intros call rest buffer bufferSize total bytesRead Hlen Hcap Hlow Hmod Hfuel;
    [lia |].
  cbn [read_loop]. unfold FILE_READ_INCREMENT.
  set (T := total + bytesRead) in *.
  set (B := if T >=? bufferSize then bufferSize + 4096 else bufferSize).
  assert (T < B /\ B - 4096 <= T /\ B mod 4096 = 0) as (HB1 & HB2 & HB3).
  { unfold B. destruct (T >=? bufferSize) eqn:E.
    - apply Z.geb_le in E. split_and!; try lia.
      rewrite <- Hmod. Z.div_mod_to_equations. lia.
    - rewrite Z.geb_leb in E. apply Z.leb_gt in E. split_and!; lia. }
  destruct (B - T <? 0) eqn:Er; [apply Z.ltb_lt in Er; lia |].
  unfold fread_count.
  set (m := Z.min (Z.min (B - T) (Z.of_nat (length rest))) (Z.max 1 (avail call))).
  assert (0 <= m <= B - T /\ m <= Z.of_nat (length rest)
          /\ (m = 0 -> rest = [])) as (Hm1 & Hm2 & Hm3).
  { unfold m. split_and!; try lia.
    intros H0. destruct rest; [reflexivity |]. cbn [length] in H0. lia. }
  destruct (m =? 0) eqn:Em.
  - apply Z.eqb_eq in Em. rewrite (Hm3 Em), app_nil_r.
    f_equal; try lia. rewrite Hlen. fold T. Z.div_mod_to_equations. lia.
  - apply Z.eqb_neq in Em.
    rewrite (IH (S call) (drop (Z.to_nat m) rest)
               (buffer ++ take (Z.to_nat m) rest) B T m).
    + rewrite <- app_assoc, take_drop. reflexivity.
    + rewrite length_app, length_take. lia.
    + lia.
    + lia.
    + exact HB3.
    + rewrite length_drop. lia.
Qed.

Lemma read_file_all (avail : nat -> Z) (content : list Z) (fuel : nat) :
  (length content < fuel)%nat ->
  read_file fuel avail (Some content)
  = ReadBuffer content
      (FILE_READ_INCREMENT
       * (Z.of_nat (length content) / FILE_READ_INCREMENT + 1))
      (Z.of_nat (length content)).
Proof.
  intros Hfuel. unfold read_file.
  rewrite (read_loop_spec avail fuel O content [] 0 0 0);
    try reflexivity; try exact Hfuel; unfold FILE_READ_INCREMENT; simpl; lia.
Qed.

(** X10.  [read_file] reads the whole stream.  However the stream cuts the
    reads short, [read_file] hands back all its bytes, in order, with
    [*sizeOut] their number; no call of [fread] is for zero bytes or for
    more than the buffer can take, and the buffer ends up with the least
    multiple of [0x1000] bytes strictly above the size: there is always at
    least one byte, and never more than [0x1000], of room left. *)
Theorem read_file_complete (avail : nat -> Z) (content : list Z) (fuel : nat) :
  (length content < fuel)%nat ->
  read_file fuel avail (Some content)
  = ReadBuffer content
      (FILE_READ_INCREMENT
       * (Z.of_nat (length content) / FILE_READ_INCREMENT + 1))
      (Z.of_nat (length content)).
Proof. apply read_file_all. Qed.

(** [read_file_complete] at a stream of five bytes read one byte at a
    time. *)
Lemma read_file_complete_witness :
  (length [1; 2; 3; 4; 5] < 6)%nat /\
  read_file 6 (fun _ => 1) (Some [1; 2; 3; 4; 5])
  = ReadBuffer [1; 2; 3; 4; 5]
      (FILE_READ_INCREMENT
       * (Z.of_nat (length [1; 2; 3; 4; 5]) / FILE_READ_INCREMENT + 1))
      (Z.of_nat (length [1; 2; 3; 4; 5])).
Proof.
  assert (length [1; 2; 3; 4; 5] < 6)%nat as h1 by (simpl; lia).
  split; [exact h1 |].
  exact (read_file_complete (fun _ => 1) [1; 2; 3; 4; 5] 6 h1).
Defined.

Lemma decompress_too_short fuel garbage data sizeBytes :
  sizeBytes mod 4 <> 0 \/ sizeBytes / 4 <= 5 ->
  decompress fuel garbage data sizeBytes = RNull.
Proof.
  intros H. unfold decompress.
  destruct (sizeBytes mod 4 =? 0) eqn:E4; [| reflexivity].
  apply Z.eqb_eq in E4. simpl.
  destruct (sizeBytes / 4 <=? 5) eqn:E5; [reflexivity |].
  apply Z.leb_gt in E5. lia.
Qed.

(** X11.  Input that cannot be a container.  When the program is called
    with one or two arguments and the input can be opened, an input of
    fewer than 24 bytes, the empty input included, or of a length that is
    not a multiple of 4, ends the run with exit code 8: the output is not
    opened and nothing is written, whatever the bytes are. *)
Theorem main_rejects_short_input (argc : Z) (rfuel : nat) (avail : nat -> Z)
    (content : list Z) (fuel : nat) (garbage : Z) (opens : bool) (accept : Z) :
  argc = 2 \/ argc = 3 ->
  (length content < rfuel)%nat ->
  Z.of_nat (length content) < 24 \/ Z.of_nat (length content) mod 4 <> 0 ->
  main argc rfuel avail (Some content) fuel garbage opens accept
  = Some (MkMain ERR_UNCPRS None).
Proof.
  intros Hargc Hrfuel Hshort. unfold main.
  assert (negb (argc =? 2) && negb (argc =? 3) = false) as ->.
  { destruct Hargc as [-> | ->]; reflexivity. }
  rewrite read_file_all by exact Hrfuel.
  rewrite decompress_too_short; [reflexivity |].
  destruct Hshort as [H | H]; [| left; exact H].
  destruct (decide (Z.of_nat (length content) mod 4 = 0)); [right | left; done].
  Z.div_mod_to_equations. lia.
Qed.

(** [main_rejects_short_input] at the empty input. *)
Lemma main_rejects_short_input_witness :
  (2 = 2 \/ 2 = 3) /\
  (length (@nil Z) < 1)%nat /\
  (Z.of_nat (length (@nil Z)) < 24 \/ Z.of_nat (length (@nil Z)) mod 4 <> 0) /\
  main 2 1 (fun _ => 1) (Some []) 0 0 true 0 = Some (MkMain ERR_UNCPRS None).
Proof.
  assert (2 = 2 \/ 2 = 3) as h1 by (left; reflexivity).
  assert (length (@nil Z) < 1)%nat as h2 by (simpl; lia).
  assert (Z.of_nat (length (@nil Z)) < 24
          \/ Z.of_nat (length (@nil Z)) mod 4 <> 0) as h3 by (left; simpl; lia).
  split; [exact h1 |]. split; [exact h2 |]. split; [exact h3 |].
  exact (main_rejects_short_input 2 1 (fun _ => 1) [] 0 0 true 0 h1 h2 h3).
Defined.

(** ** Bytes and words *)

Lemma list_ind4 (P : list Z -> Prop) :
  P [] -> (forall a, P [a]) -> (forall a b, P [a; b]) ->
  (forall a b c, P [a; b; c]) ->
  (forall a b c d l, P l -> P (a :: b :: c :: d :: l)) ->
  forall l, P l.
Proof.
  intros H0 H1 H2 H3 H4 l.
  assert (P l /\ (forall a, P (a :: l)) /\ (forall a b, P (a :: b :: l))
          /\ (forall a b c, P (a :: b :: c :: l))) as H; [| tauto].
  induction l as [| x l (IH0 & IH1 & IH2 & IH3)]; [tauto |].
  split_and!; auto.
Qed.

Lemma words_of_bytes_length bytes :
  Z.of_nat (length (words_of_bytes bytes)) = Z.of_nat (length bytes) / 4.
Proof.
  induction bytes as [| a | a b | a b c | a b c d l IH] using list_ind4;
    try reflexivity.
  cbn [words_of_bytes length]. Z.div_mod_to_equations. lia.
Qed.

Lemma words_of_bytes_range bytes :
  Forall (fun b => 0 <= b < 256) bytes ->
  Forall (fun w => 0 <= w < 2 ^ 32) (words_of_bytes bytes).
Proof.
  induction bytes as [| a | a b | a b c | a b c d l IH] using list_ind4;
    intros H; cbn [words_of_bytes]; try apply List.Forall_nil.
  inversion H as [| ? ? Ha H1]; subst. inversion H1 as [| ? ? Hb H2]; subst.
  inversion H2 as [| ? ? Hc H3]; subst. inversion H3 as [| ? ? Hd H4']; subst.
  apply List.Forall_cons; [lia | auto].
Qed.

Lemma words_of_bytes_app l1 l2 :
  Z.of_nat (length l1) mod 4 = 0 ->
  words_of_bytes (l1 ++ l2) = words_of_bytes l1 ++ words_of_bytes l2.
Proof.
  induction l1 as [| a | a b | a b c | a b c d l IH] using list_ind4;
    intros H; try reflexivity;
    try (cbn [length] in H; exfalso; Z.div_mod_to_equations; lia).
  cbn [app words_of_bytes]. rewrite IH; [reflexivity |].
  cbn [length] in H. Z.div_mod_to_equations. lia.
Qed.

Lemma word_is_signature b0 b1 b2 b3 :
  0 <= b0 < 256 -> 0 <= b1 < 256 -> 0 <= b2 < 256 -> 0 <= b3 < 256 ->
  (b0 + 2 ^ 8 * b1 + 2 ^ 16 * b2 + 2 ^ 24 * b3 = CPRS_SIG
   <-> [b0; b1; b2; b3] = magic).
Proof.
  intros H0 H1 H2 H3. unfold CPRS_SIG, magic. split.
  - intros H. assert (b0 = 0x43 /\ b1 = 0x50 /\ b2 = 0x52 /\ b3 = 0x53)
      as (-> & -> & -> & ->) by lia. reflexivity.
  - intros H. inversion H. reflexivity.
Qed.

(** The first word is the signature exactly when the first four bytes are
    "CPRS". *)
Lemma first_word_signature content :
  Forall (fun b => 0 <= b < 256) content ->
  (4 <= length content)%nat ->
  (load (words_of_bytes content) 0 = Some CPRS_SIG <-> take 4 content = magic).
Proof.
  intros Hb Hlen.
  destruct content as [| b0 [| b1 [| b2 [| b3 rest]]]];
    cbn [length] in Hlen; try lia.
  inversion Hb as [| ? ? H0 Hb1]; subst. inversion Hb1 as [| ? ? H1 Hb2]; subst.
  inversion Hb2 as [| ? ? H2 Hb3]; subst. inversion Hb3 as [| ? ? H3 _]; subst.
  cbn [words_of_bytes take]. unfold load. cbn.
  rewrite <- (word_is_signature b0 b1 b2 b3) by assumption.
  split; [intros H; inversion H; reflexivity | intros ->; reflexivity].
Qed.

(** The last word is the signature exactly when the last four bytes are
    "CPRS". *)
Lemma last_word_signature content :
  Forall (fun b => 0 <= b < 256) content ->
  Z.of_nat (length content) mod 4 = 0 ->
  (4 <= length content)%nat ->
  (load (words_of_bytes content) (Z.of_nat (length content) / 4 - 1)
   = Some CPRS_SIG
   <-> drop (length content - 4) content = magic).
Proof.
  intros Hb Hmod Hlen.
  set (n := (length content - 4)%nat).
  assert (length (take n content) = n) as Hlt
    by (rewrite length_take; lia).
  assert (length (drop n content) = 4%nat) as Hld
    by (rewrite length_drop; lia).
  destruct (drop n content) as [| b0 [| b1 [| b2 [| b3 [| b4 rest]]]]] eqn:Hd;
    cbn [length] in Hld; try lia.
  assert (Forall (fun b => 0 <= b < 256) [b0; b1; b2; b3]) as Hb4.
  { rewrite <- Hd. apply Forall_drop. exact Hb. }
  inversion Hb4 as [| ? ? H0 Hb1]; subst. inversion Hb1 as [| ? ? H1 Hb2]; subst.
  inversion Hb2 as [| ? ? H2 Hb3]; subst. inversion Hb3 as [| ? ? H3 _]; subst.
  rewrite <- (take_drop n content) at 1. rewrite Hd.
  rewrite words_of_bytes_app by (rewrite Hlt; unfold n; Z.div_mod_to_equations; lia).
  cbn [words_of_bytes].
  pose proof (words_of_bytes_length (take n content)) as Hwl. rewrite Hlt in Hwl.
  unfold load.
  rewrite (proj2 (Z.ltb_ge _ _)) by (Z.div_mod_to_equations; lia).
  assert (Z.of_nat (length (words_of_bytes (take n content)))
          = Z.of_nat (length content) / 4 - 1) as Hwl'.
  { rewrite Hwl. unfold n. rewrite Nat2Z.inj_sub by lia.
    Z.div_mod_to_equations. lia. }
  replace (Z.to_nat (Z.of_nat (length content) / 4 - 1))
    with (length (words_of_bytes (take n content)) + 0)%nat by lia.
  rewrite lookup_app_r by lia.
  replace (length (words_of_bytes (take n content)) + 0
           - length (words_of_bytes (take n content)))%nat with 0%nat by lia.
  cbn [lookup list_lookup].
  rewrite <- (word_is_signature b0 b1 b2 b3) by assumption.
  split; [intros H; inversion H; reflexivity | intros ->; reflexivity].
Qed.

Lemma invalid_bytes_words content :
  Forall (fun b => 0 <= b < 256) content ->
  Z.of_nat (length content) mod 4 = 0 ->
  (invalid_container (words_of_bytes content) (Z.of_nat (length content))
   <-> invalid_input content).
Proof.
  intros Hb Hmod. unfold invalid_container, invalid_input.
  destruct (decide (Z.of_nat (length content) < 24)) as [Hs | Hl].
  - split; intros _; right; left; [exact Hs |].
    Z.div_mod_to_equations. lia.
  - assert (4 <= length content)%nat as H4 by lia.
    pose proof (first_word_signature content Hb H4) as Hf.
    pose proof (last_word_signature content Hb Hmod H4) as Hlast.
    assert (~ Z.of_nat (length content) / 4 <= 5) as Hw
      by (Z.div_mod_to_equations; lia).
    tauto.
Qed.

(** X12.  The format check, read on the bytes of the input.  For an input
    that was opened and read, the program ends with exit code 8 and
    without opening the output exactly when the input is not framed as a
    container: its length is not a multiple of 4, or is less than 24, or
    its first four bytes or its last four bytes are not "CPRS". *)
Theorem main_format_check (argc : Z) (rfuel : nat) (avail : nat -> Z)
    (content : list Z) (fuel : nat) (garbage : Z) (opens : bool) (accept : Z) :
  argc = 2 \/ argc = 3 ->
  (length content < rfuel)%nat ->
  Forall (fun b => 0 <= b < 256) content ->
  (main argc rfuel avail (Some content) fuel garbage opens accept
   = Some (MkMain ERR_UNCPRS None)
   <-> invalid_input content).
Proof.
  intros Hargc Hrfuel Hb. unfold main.
  assert (negb (argc =? 2) && negb (argc =? 3) = false) as ->.
  { destruct Hargc as [-> | ->]; reflexivity. }
  rewrite read_file_all by exact Hrfuel.
  destruct (decide (Z.of_nat (length content) mod 4 = 0)) as [Hmod | Hmod].
  2: { rewrite decompress_too_short by (left; exact Hmod).
       split; [intros _; left; exact Hmod | reflexivity]. }
  rewrite <- (invalid_bytes_words content Hb Hmod).
  assert (0 <= Z.of_nat (length content)
          <= 4 * Z.of_nat (length (words_of_bytes content))) as Hsz.
  { rewrite words_of_bytes_length. Z.div_mod_to_equations. lia. }
  destruct (decompress_checks fuel garbage (words_of_bytes content)
              (Z.of_nat (length content)) Hsz) as (Hbad & Hgood).
  destruct (classic_invalid (words_of_bytes content) (Z.of_nat (length content)))
    as [Hinv | Hval].
  - rewrite (Hbad Hinv). tauto.
  - split; [| contradiction].
    destruct (Hgood Hval) as (d & a & b & _ & _ & _ & ->).
    destruct (loop fuel (words_of_bytes content) (init_state garbage d a b))
      as [| buf n | f |] eqn:Hloop; try discriminate.
    + exfalso. exact (loop_not_null _ _ _ Hloop).
    + unfold write_file. destruct opens; simpl; [| discriminate].
      destruct (Z.min n (Z.max 0 accept) =? n); discriminate.
Qed.

(** [main_format_check] at an input of 24 bytes that starts with "CPRS" but
    does not end with it. *)
Lemma main_format_check_witness :
  (2 = 2 \/ 2 = 3) /\
  (length (magic ++ replicate 20 0%Z) < 25)%nat /\
  Forall (fun b => 0 <= b < 256) (magic ++ replicate 20 0) /\
  (main 2 25 (fun _ => 4096) (Some (magic ++ replicate 20 0)) 0 0 true 0
   = Some (MkMain ERR_UNCPRS None)
   <-> invalid_input (magic ++ replicate 20 0)).
Proof.
  assert (2 = 2 \/ 2 = 3) as h1 by (left; reflexivity).
  assert (length (magic ++ replicate 20 0%Z) < 25)%nat as h2 by (simpl; lia).
  assert (Forall (fun b => 0 <= b < 256) (magic ++ replicate 20 0)) as h3
    by (cbv [magic replicate app];
        repeat (apply List.Forall_cons; [vm_compute; split; congruence |]);
        apply List.Forall_nil).
  split; [exact h1 |]. split; [exact h2 |]. split; [exact h3 |].
  exact (main_format_check 2 25 (fun _ => 4096) (magic ++ replicate 20 0)
           0 0 true 0 h1 h2 h3).
Defined.

(** X13.  A successful run.  When the program ends with exit code 0, the
    input was framed as a container, [decompress] returned a buffer of the
    declared size with [*sizeOut = n], and the output stream received
    exactly [n] bytes, the first [n] of that buffer: never more than the
    buffer holds, and none of the zeros behind the emitted bytes. *)
Theorem main_success_output (argc : Z) (rfuel : nat) (avail : nat -> Z)
    (content : list Z) (fuel : nat) (garbage : Z) (opens : bool) (accept : Z)
    (r : main_result) :
  (length content < rfuel)%nat ->
  Forall (fun b => 0 <= b < 256) content ->
  main argc rfuel avail (Some content) fuel garbage opens accept = Some r ->
  exit_code r = ERR_OK ->
  ~ invalid_input content /\
  exists buf n decompressedSize,
    load (words_of_bytes content) 2 = Some decompressedSize /\
    decompress fuel garbage (words_of_bytes content) (Z.of_nat (length content))
    = RBuffer buf n /\
    Z.of_nat (length buf) = decompressedSize /\
    0 <= n <= decompressedSize /\
    written r = Some (take (Z.to_nat n) buf) /\
    Z.of_nat (length (take (Z.to_nat n) buf)) = n.
Proof.
  intros Hrfuel Hb Hmain Hcode. unfold main in Hmain.
  destruct (negb (argc =? 2) && negb (argc =? 3)).
  { inversion Hmain; subst r. discriminate. }
  rewrite read_file_all in Hmain by exact Hrfuel.
  destruct (decide (Z.of_nat (length content) mod 4 = 0)) as [Hmod | Hmod].
  2: { rewrite decompress_too_short in Hmain by (left; exact Hmod).
       inversion Hmain; subst r. discriminate. }
  assert (0 <= Z.of_nat (length content)
          <= 4 * Z.of_nat (length (words_of_bytes content))) as Hsz.
  { rewrite words_of_bytes_length. Z.div_mod_to_equations. lia. }
  destruct (decompress_checks fuel garbage (words_of_bytes content)
              (Z.of_nat (length content)) Hsz) as (Hbad & Hgood).
  destruct (classic_invalid (words_of_bytes content) (Z.of_nat (length content)))
    as [Hinv | Hval].
  { rewrite (Hbad Hinv) in Hmain. inversion Hmain; subst r. discriminate. }
  split; [rewrite <- (invalid_bytes_words content Hb Hmod); exact Hval |].
  destruct (Hgood Hval) as (d & a & b & H2 & _ & _ & Heq).
  rewrite Heq in Hmain.
  destruct (loop fuel (words_of_bytes content) (init_state garbage d a b))
    as [| buf n | f |] eqn:Hloop; try discriminate.
  { exfalso. exact (loop_not_null _ _ _ Hloop). }
  pose proof (load_word_range _ 2 d (words_of_bytes_range content Hb) H2) as Hd.
  destruct (loop_buffer_shape _ _ _ _ _ _ buf n Hd Hloop) as (Hlb & Hn & _).
  exists buf, n, d. rewrite Heq.
  unfold write_file in Hmain. destruct opens; simpl in Hmain.
  2: { inversion Hmain; subst r. discriminate. }
  destruct (Z.min n (Z.max 0 accept) =? n) eqn:Ew.
  2: { inversion Hmain; subst r. discriminate. }
  apply Z.eqb_eq in Ew. rewrite Ew in Hmain.
  inversion Hmain; subst r. simpl.
  split_and!; try done; try lia.
  rewrite length_take. lia.
Qed.

(** [main_success_output] at [run_container], written out as the 24 bytes
    of a file. *)
Lemma main_success_output_witness :
  (length run_container_bytes < 25)%nat /\
  Forall (fun b => 0 <= b < 256) run_container_bytes /\
  main 2 25 (fun _ => 7) (Some run_container_bytes) 3 0 true 3
  = Some (MkMain ERR_OK (Some [0x41; 0x41; 0x41])) /\
  exit_code (MkMain ERR_OK (Some [0x41; 0x41; 0x41])) = ERR_OK /\
  (~ invalid_input run_container_bytes /\
   exists buf n decompressedSize,
     load (words_of_bytes run_container_bytes) 2 = Some decompressedSize /\
     decompress 3 0 (words_of_bytes run_container_bytes)
       (Z.of_nat (length run_container_bytes))
     = RBuffer buf n /\
     Z.of_nat (length buf) = decompressedSize /\
     0 <= n <= decompressedSize /\
     written (MkMain ERR_OK (Some [0x41; 0x41; 0x41]))
     = Some (take (Z.to_nat n) buf) /\
     Z.of_nat (length (take (Z.to_nat n) buf)) = n).
Proof.
  assert (length run_container_bytes < 25)%nat as h1 by (simpl; lia).
  assert (Forall (fun b => 0 <= b < 256) run_container_bytes) as h2
    by (cbv [run_container_bytes magic app];
        repeat (apply List.Forall_cons; [vm_compute; split; congruence |]);
        apply List.Forall_nil).
  assert (main 2 25 (fun _ => 7) (Some run_container_bytes) 3 0 true 3
          = Some (MkMain ERR_OK (Some [0x41; 0x41; 0x41]))) as h3
    by (vm_compute; reflexivity).
  assert (exit_code (MkMain ERR_OK (Some [0x41; 0x41; 0x41])) = ERR_OK) as h4
    by reflexivity.
  split; [exact h1 |]. split; [exact h2 |]. split; [exact h3 |].
  split; [exact h4 |].
  exact (main_success_output 2 25 (fun _ => 7) run_container_bytes
           3 0 true 3 (MkMain ERR_OK (Some [0x41; 0x41; 0x41])) h1 h2 h3 h4).
Defined.

End Cprs.
